(** * zsdl.py: link derivation and resumable download

    A shallow embedding of [src/zsdl.py] (class [Main]).  Python values are
    modelled as the interpreter has them: a [str] is a sequence of Unicode
    code points, an [int] is an unbounded integer, [None] is an [option].
    A call that can raise returns a [result]; code that touches the file
    system, the network, the clock or the progress sink runs in a small
    state-and-exception monad over an explicit [world].

    The semantics followed for the interpreter and its standard library
    ([re], [json], [str] methods, [int], [urllib.parse.unquote]) is that of
    CPython 3 on a POSIX system.  Library functions whose behaviour the
    program takes as it comes ([urlparse], [urljoin], the date parser, the
    HTML tokenizer) are the fields of a class, [PyLib].

    Not modelled: what [download] prints through [log] (the output
    methods themselves are modelled apart, in [Console]), the line
    [download_progress] prints from floating-point times, the command line
    ([main]), the timeout of a request, failures of [open] and [write],
    and the limit CPython 3.11 puts on the number of digits [int] reads. *)

From Stdlib Require Import ZArith NArith List String Ascii Bool Lia.
From Stdlib Require Import DecimalString.
From Stdlib Require DecimalFacts DecimalPos.
From Stdlib Require Floats.SpecFloat.
From stdpp Require Import gmap.
Import ListNotations.

Local Open Scope N_scope.

(* ===================================================================== *)
(** * Python strings and built-ins                                        *)
(* ===================================================================== *)

(** A Python [str]: the list of its code points.  [bytes] values use the
    same representation with every element below 256. *)
Definition pystr := list N.

(** [py "text"] is the [str] whose code points are the bytes of the Rocq
    literal (ASCII literals only are written this way). *)
Definition py (s : string) : pystr :=
  List.map N_of_ascii (list_ascii_of_string s).

Global Arguments py : simpl never.

Definition pystr_eqb (a b : pystr) : bool :=
  bool_decide (a = b).

(** Exceptions the modelled code can raise.  [OutsideModel] is not a Python
    exception: it marks a value the embedding does not represent (a float,
    a JSON array, object or keyword), where the embedding stops. *)
Inductive exn :=
| JSONDecodeError
| TypeError
| ValueError
| IndexError
| UnicodeDecodeError
| NetworkError                                  (* urlopen raised, not an HTTPError *)
| ReadError                                     (* the response stream failed *)
| InvalidStatusCode (code expected : Z)         (* Exception('Invalid status code: ...') *)
| UnexpectedSize (size expected : Z)            (* Exception('Unexected download size: ...') *)
| AlreadyExists (path : pystr)                  (* Exception('Already exists: ...') *)
| OSError                                       (* a file operation on a missing file *)
| AttributeError
| OutsideModel.

Inductive result (A : Type) :=
| Ok (a : A)
| Err (e : exn).
Arguments Ok {A} a.
Arguments Err {A} e.

Definition rbind {A B} (r : result A) (k : A -> result B) : result B :=
  match r with
  | Ok a => k a
  | Err e => Err e
  end.

Notation "'try!' x ':=' c 'in' k" := (rbind c (fun x => k))
  (at level 10, x name, c at level 100, k at level 200).

Module Py.

(** [str.isspace] on one character, which is also the class [\s] of [re]
    for [str] patterns. *)
Definition isspace (c : N) : bool :=
  ((9 <=? c) && (c <=? 13)) || ((28 <=? c) && (c <=? 32))
  || (c =? 133) || (c =? 160) || (c =? 5760)
  || ((8192 <=? c) && (c <=? 8202))
  || (c =? 8232) || (c =? 8233) || (c =? 8239) || (c =? 8287) || (c =? 12288).

(** First code point of every run of ten decimal digits (general category
    Nd, Unicode 14); the mathematical digits U+1D7CE..U+1D7FF are five
    such runs in a row. *)
Definition digit_runs : list N :=
  [ 0x30; 0x660; 0x6f0; 0x7c0; 0x966; 0x9e6; 0xa66; 0xae6; 0xb66; 0xbe6;
    0xc66; 0xce6; 0xd66; 0xde6; 0xe50; 0xed0; 0xf20; 0x1040; 0x1090;
    0x17e0; 0x1810; 0x1946; 0x19d0; 0x1a80; 0x1a90; 0x1b50; 0x1bb0;
    0x1c40; 0x1c50; 0xa620; 0xa8d0; 0xa900; 0xa9d0; 0xa9f0; 0xaa50;
    0xabf0; 0xff10; 0x104a0; 0x10d30; 0x11066; 0x110f0; 0x11136; 0x111d0;
    0x112f0; 0x11450; 0x114d0; 0x11650; 0x116c0; 0x11730; 0x118e0;
    0x11950; 0x11c50; 0x11d50; 0x11da0; 0x16a60; 0x16ac0; 0x16b50;
    0x1d7ce; 0x1d7d8; 0x1d7e2; 0x1d7ec; 0x1d7f6;
    0x1e140; 0x1e2f0; 0x1e950; 0x1fbf0 ].

(** The decimal value of a Unicode digit, [None] for any other character. *)
Definition digit_value (c : N) : option N :=
  match List.find (fun b => (b <=? c) && (c <? b + 10)) digit_runs with
  | Some b => Some (c - b)
  | None => None
  end.

(** The class [\d] of [re] for [str] patterns. *)
Definition isdigit (c : N) : bool :=
  match digit_value c with Some _ => true | None => false end.

Definition is_ascii_digit (c : N) : bool := (48 <=? c) && (c <=? 57).

Definition ascii_lower (c : N) : N :=
  if (65 <=? c) && (c <=? 90) then c + 32 else c.

(** [s.lower()], for the use the program makes of it: a test of equality
    with a word in ASCII that has no [k].  Outside ASCII only the Kelvin
    sign has an ASCII lower case (the letter [k]), so for that test lowering
    the ASCII capitals is all of [lower]. *)
Definition lower (s : pystr) : pystr := List.map ascii_lower s.

Definition hex_value (c : N) : option N :=
  if (48 <=? c) && (c <=? 57) then Some (c - 48)
  else if (65 <=? c) && (c <=? 70) then Some (c - 55)
  else if (97 <=? c) && (c <=? 102) then Some (c - 87)
  else None.

Definition is_hex (c : N) : bool :=
  match hex_value c with Some _ => true | None => false end.

Fixpoint lstrip (s : pystr) : pystr :=
  match s with
  | c :: s' => if isspace c then lstrip s' else s
  | [] => []
  end.

Definition rstrip (s : pystr) : pystr := rev (lstrip (rev s)).

(** [s.strip()] *)
Definition strip (s : pystr) : pystr := rstrip (lstrip s).

Fixpoint starts_with (p s : pystr) : bool :=
  match p, s with
  | [], _ => true
  | a :: p', b :: s' => (a =? b) && starts_with p' s'
  | _ :: _, [] => false
  end.

(** [s.split(sep)] for a non-empty separator.  [skip] counts the
    characters of a separator just found that are still to be passed;
    [cur] is the current piece, reversed. *)
Fixpoint split_go (sep : pystr) (skip : nat) (cur : pystr) (s : pystr)
  : list pystr :=
  match s with
  | [] => [rev cur]
  | c :: s' =>
      match skip with
      | S k => split_go sep k cur s'
      | O =>
          if starts_with sep s
          then rev cur :: split_go sep (Nat.pred (length sep)) [] s'
          else split_go sep O (c :: cur) s'
      end
  end.

Definition split (sep s : pystr) : list pystr := split_go sep O [] s.

(** [''.join(parts)] *)
Definition join (parts : list pystr) : pystr := List.concat parts.

(** [str(z)], also what [%s] gives for an [int]. *)
Definition str_of_int (z : Z) : pystr :=
  py (NilZero.string_of_int (Z.to_int z)).

(** The value of a run of hexadecimal digits; [None] when the text is
    empty or has another character.  This is [int(text, 16)] on the texts
    the program passes to it (two hexadecimal digits). *)
Fixpoint hex_digits (acc : N) (s : pystr) : option N :=
  match s with
  | [] => Some acc
  | c :: s' =>
      match hex_value c with
      | Some d => hex_digits (16 * acc + d) s'
      | None => None
      end
  end.

Definition int16 (s : pystr) : result N :=
  match s with
  | [] => Err ValueError
  | _ => match hex_digits 0 s with
         | Some n => Ok n
         | None => Err ValueError
         end
  end.

(** Decimal digits with single underscores between them, as [int] reads
    them; the digits may be any Unicode decimal digits. *)
Fixpoint int_digits (acc : N) (after_digit : bool) (s : pystr) : option N :=
  match s with
  | [] => if after_digit then Some acc else None
  | c :: s' =>
      match digit_value c with
      | Some d => int_digits (10 * acc + d) true s'
      | None =>
          if (c =? 95) && after_digit
          then match s' with
               | [] => None
               | _ => int_digits acc false s'
               end
          else None
      end
  end.

Global Arguments str_of_int : simpl never.

(** [int(text)] for a [str]: surrounding white space, an optional sign,
    then digits.  [None] is [ValueError]. *)
Definition int_of_str (s : pystr) : option Z :=
  match strip s with
  | 43 :: d => option_map Z.of_N (int_digits 0 false d)
  | 45 :: d => option_map (fun n => Z.opp (Z.of_N n)) (int_digits 0 false d)
  | d => option_map Z.of_N (int_digits 0 false d)
  end.

End Py.

(* ===================================================================== *)
(** * Regular expressions: the part of [re] the program uses              *)
(* ===================================================================== *)

Module Re.

(** Pattern syntax.  [Star] is the greedy [*]; [Bol] is [^] without
    [re.MULTILINE] taking effect on it (the one pattern that has a [^]
    is used without the flag). *)
Inductive regex :=
| Eps
| Bol
| Cls (p : N -> bool)
| Seq (r1 r2 : regex)
| Alt (r1 r2 : regex)
| Star (r : regex)
| Group (i : nat) (r : regex).

(** Captured groups, the most recent capture of a group first. *)
Definition captures := list (nat * pystr).

Definition kont := nat -> pystr -> captures -> option (nat * captures).

Definition group (c : captures) (i : nat) : option pystr :=
  match List.find (fun e => Nat.eqb (fst e) i) c with
  | Some e => Some (snd e)
  | None => None
  end.

(** The greedy loop of [*] over a matcher [body] for one iteration: one
    more iteration first, the continuation [k] when that fails.  An
    iteration has to consume at least one character. *)
Fixpoint star_loop
    (body : nat -> pystr -> captures -> kont -> option (nat * captures))
    (k : kont) (fuel : nat) (i : nat) (s : pystr) (c : captures)
  : option (nat * captures) :=
  match fuel with
  | O => k i s c
  | S fuel' =>
      match body i s c
              (fun i' s' c' =>
                 if Nat.ltb i i' then star_loop body k fuel' i' s' c'
                 else None)
      with
      | Some m => Some m
      | None => k i s c
      end
  end.

(** The backtracking matcher, in continuation-passing style: alternatives
    are tried left to right and [Star] takes as many iterations as it can
    before giving some back, as [re] does.  [i] is the position of the
    rest [s] in the subject.  As an iteration of [Star] consumes at least
    one character, [S (length s)] iterations are never exhausted. *)
Fixpoint run (r : regex) (i : nat) (s : pystr) (c : captures) (k : kont)
  : option (nat * captures) :=
  match r with
  | Eps => k i s c
  | Bol => if Nat.eqb i 0 then k i s c else None
  | Cls p =>
      match s with
      | x :: s' => if p x then k (S i) s' c else None
      | [] => None
      end
  | Seq r1 r2 => run r1 i s c (fun i' s' c' => run r2 i' s' c' k)
  | Alt r1 r2 =>
      match run r1 i s c k with
      | Some m => Some m
      | None => run r2 i s c k
      end
  | Star r1 => star_loop (run r1) k (S (length s)) i s c
  | Group n r1 =>
      run r1 i s c (fun i' s' c' => k i' s' ((n, firstn (i' - i) s) :: c'))
  end.

(** A match found at position [i]: its length, its text ([group(0)]) and
    its groups. *)
Definition match_at (r : regex) (i : nat) (s : pystr)
  : option (nat * pystr * captures) :=
  match run r i s [] (fun i' _ c' => Some (i', c')) with
  | Some (i', c) => Some ((i' - i)%nat, firstn (i' - i) s, c)
  | None => None
  end.

(** [pattern.match(s)]: a match at the start of [s], or [None]. *)
Definition match_ (r : regex) (s : pystr) : option captures :=
  match match_at r 0 s with
  | Some (_, _, c) => Some c
  | None => None
  end.

(** [re.sub(pattern, repl, s)] with a function [repl] that may raise:
    the leftmost matches, not overlapping, are replaced.  [skip] counts
    the characters of the last match that are still to be passed.  (What
    [re] does after an empty match is not modelled beyond copying the
    next character; no match of the pattern this is used with is
    empty.) *)
Fixpoint sub_go (r : regex) (repl : pystr -> captures -> result pystr)
    (skip : nat) (i : nat) (s : pystr) : result pystr :=
  match skip with
  | S k =>
      match s with
      | [] => Ok []
      | _ :: s' => sub_go r repl k (S i) s'
      end
  | O =>
      match match_at r i s with
      | Some (n, txt, c) =>
          try! out := repl txt c in
          try! rest :=
            match n, s with
            | S n', _ :: s' => sub_go r repl n' (S i) s'
            | O, x :: s' =>
                try! t := sub_go r repl O (S i) s' in Ok (x :: t)
            | _, [] => Ok []
            end in
          Ok (out ++ rest)
      | None =>
          match s with
          | [] => Ok []
          | x :: s' => try! t := sub_go r repl O (S i) s' in Ok (x :: t)
          end
      end
  end.

Definition sub (r : regex) (repl : pystr -> captures -> result pystr)
    (s : pystr) : result pystr :=
  sub_go r repl O O s.

(** Pattern builders. *)
Definition chr (c : N) : regex := Cls (N.eqb c).
Definition lit (s : string) : regex :=
  fold_right (fun c r => Seq (chr c) r) Eps (py s).
Definition cat (rs : list regex) : regex := fold_right Seq Eps rs.
Definition plus (r : regex) : regex := Seq r (Star r).
Definition s_ : regex := Cls Py.isspace.                       (* \s *)
Definition d_ : regex := Cls Py.isdigit.                       (* \d *)
Definition any_ : regex := Cls (fun _ => true).                (* [\s\S] *)
Definition dot_ : regex := Cls (fun c => negb (c =? 10)).      (* . *)
Definition not_crlf : regex :=                                 (* [^\r\n] *)
  Cls (fun c => negb ((c =? 13) || (c =? 10))).

End Re.

(* ===================================================================== *)
(** * JSON: [json.loads] and [json.dumps] on integers and strings         *)
(* ===================================================================== *)

(** The Python values [json.loads] gives for the texts the program decodes:
    an [int] or a [str]. *)
Inductive jvalue :=
| JInt (z : Z)
| JStr (s : pystr).

Module Json.

(** The white space [json] skips around a value: [ \t\n\r]. *)
Definition is_ws (c : N) : bool :=
  (c =? 32) || (c =? 9) || (c =? 10) || (c =? 13).

Fixpoint skip_ws (s : pystr) : pystr :=
  match s with
  | c :: s' => if is_ws c then skip_ws s' else s
  | [] => []
  end.

Definition hex4 (a b c d : N) : option N :=
  match Py.hex_value a, Py.hex_value b, Py.hex_value c, Py.hex_value d with
  | Some x, Some y, Some z, Some w => Some (((x * 16 + y) * 16 + z) * 16 + w)
  | _, _, _, _ => None
  end.

Definition is_high_surrogate (u : N) : bool := (0xD800 <=? u) && (u <=? 0xDBFF).
Definition is_low_surrogate (u : N) : bool := (0xDC00 <=? u) && (u <=? 0xDFFF).

(** The character of a one-letter escape. *)
Definition backslash (c : N) : option N :=
  if c =? 34 then Some 34            (* the quote *)
  else if c =? 92 then Some 92       (* the backslash *)
  else if c =? 47 then Some 47       (* \/ *)
  else if c =? 98 then Some 8        (* \b *)
  else if c =? 102 then Some 12      (* \f *)
  else if c =? 110 then Some 10      (* \n *)
  else if c =? 114 then Some 13      (* \r *)
  else if c =? 116 then Some 9       (* \t *)
  else None.

(** [scanstring] in strict mode, from just after the opening quote: the
    decoded string, reversed in [acc], and the text after the closing
    quote.  [None] is [JSONDecodeError]: no closing quote, a control
    character, or an escape that is not one of JSON's.  A high surrogate
    escape directly followed by a low surrogate escape is one character. *)
Fixpoint scanstring (acc : pystr) (s : pystr) : option (pystr * pystr) :=
  match s with
  | [] => None
  | 34 :: rest => Some (rev acc, rest)
  | 92 :: 117 :: a :: b :: c :: d :: rest =>
      match hex4 a b c d with
      | None => None
      | Some u =>
          if is_high_surrogate u
          then match rest with
               | 92 :: 117 :: e :: f :: g :: h :: rest' =>
                   match hex4 e f g h with
                   | None => None
                   | Some u2 =>
                       if is_low_surrogate u2
                       then scanstring
                              (0x10000 + (u - 0xD800) * 0x400 + (u2 - 0xDC00) :: acc)
                              rest'
                       else scanstring (u :: acc) rest
                   end
               | _ => scanstring (u :: acc) rest
               end
          else scanstring (u :: acc) rest
      end
  | 92 :: e :: rest =>
      match backslash e with
      | Some x => scanstring (x :: acc) rest
      | None => None
      end
  | 92 :: [] => None
  | x :: rest => if x <? 32 then None else scanstring (x :: acc) rest
  end.

Fixpoint take_digits (acc : N) (s : pystr) : N * pystr :=
  match s with
  | c :: s' =>
      if Py.is_ascii_digit c then take_digits (10 * acc + (c - 48)) s'
      else (acc, s)
  | [] => (acc, [])
  end.

Fixpoint drop_digits (s : pystr) : pystr :=
  match s with
  | c :: s' => if Py.is_ascii_digit c then drop_digits s' else s
  | [] => []
  end.

(** Does a fraction or an exponent follow the integer part?  Then the
    number is a [float]. *)
Definition float_follows (s : pystr) : bool :=
  match s with
  | 46 :: c :: _ => Py.is_ascii_digit c
  | e :: s' =>
      if (e =? 101) || (e =? 69)
      then match s' with
           | g :: c :: _ =>
               if (g =? 43) || (g =? 45) then Py.is_ascii_digit c
               else Py.is_ascii_digit g
           | [c] => Py.is_ascii_digit c
           | [] => false
           end
      else false
  | [] => false
  end.

(** The integer part of a JSON number, [0] or a digit run that does not
    start with [0], and the text after it. *)
Definition scan_int (s : pystr) : option (N * pystr) :=
  match s with
  | c :: s' =>
      if c =? 48 then Some (0, s')
      else if Py.is_ascii_digit c then Some (take_digits 0 s)
      else None
  | [] => None
  end.

Definition scan_number (neg : bool) (s : pystr) : result (jvalue * pystr) :=
  match scan_int s with
  | None => Err JSONDecodeError
  | Some (n, rest) =>
      if float_follows rest then Err OutsideModel
      else Ok (JInt (if neg then Z.opp (Z.of_N n) else Z.of_N n), rest)
  end.

(** Does the text start with one of the words [null], [true], [false],
    [NaN], [Infinity]? *)
Definition keyword_follows (s : pystr) : bool :=
  existsb (fun k => Py.starts_with (py k) s)
          ["null"; "true"; "false"; "NaN"; "Infinity"]%string.

(** One JSON value at the start of [s] and the text after it.  An array,
    an object, a keyword or a float is outside the model; what is neither
    that nor a string is read as a number. *)
Definition scan_once (s : pystr) : result (jvalue * pystr) :=
  match s with
  | [] => Err JSONDecodeError
  | c :: s' =>
      if c =? 34 then
        match scanstring [] s' with
        | Some (v, rest) => Ok (JStr v, rest)
        | None => Err JSONDecodeError
        end
      else if (c =? 123) || (c =? 91) then Err OutsideModel
      else if keyword_follows s then Err OutsideModel
      else if c =? 45 then
        if Py.starts_with (py "Infinity") s' then Err OutsideModel
        else scan_number true s'
      else scan_number false s
  end.

(** [json.loads(s)] for a [str]: a text that starts with a byte order
    mark is refused; else one value with white space around it and nothing
    else. *)
Definition loads (s : pystr) : result jvalue :=
  if Py.starts_with [0xFEFF] s then Err JSONDecodeError
  else
    try! vr := scan_once (skip_ws s) in
    match skip_ws (snd vr) with
    | [] => Ok (fst vr)
    | _ :: _ => Err JSONDecodeError
    end.

Definition hex_digit_char (d : N) : N :=
  if d <? 10 then 48 + d else 87 + d.

(** [\uXXXX] with lower-case digits. *)
Definition u_escape (u : N) : pystr :=
  [92; 117; hex_digit_char (u / 4096 mod 16); hex_digit_char (u / 256 mod 16);
   hex_digit_char (u / 16 mod 16); hex_digit_char (u mod 16)].

(** The spelling of one character inside [json.dumps] of a [str], with
    the default [ensure_ascii]. *)
Definition escape_char (c : N) : pystr :=
  if c =? 34 then [92; 34]
  else if c =? 92 then [92; 92]
  else if c =? 10 then [92; 110]
  else if c =? 13 then [92; 114]
  else if c =? 9 then [92; 116]
  else if c =? 12 then [92; 102]
  else if c =? 8 then [92; 98]
  else if (32 <=? c) && (c <=? 126) then [c]
  else if c <? 0x10000 then u_escape c
  else u_escape (0xD800 + (c - 0x10000) / 0x400 mod 0x400)
       ++ u_escape (0xDC00 + (c - 0x10000) mod 0x400).

(** [json.dumps(s)] for a [str]. *)
Definition dumps_str (s : pystr) : pystr :=
  [34] ++ List.concat (List.map escape_char s) ++ [34].

End Json.

(* ===================================================================== *)
(** * [urllib.parse.unquote] and UTF-8                                    *)
(* ===================================================================== *)

Module Url.

Definition is_cont (b : N) : bool := (0x80 <=? b) && (b <=? 0xBF).
Definition between (lo hi b : N) : bool := (lo <=? b) && (b <=? hi).

(** Allowed range of the second byte after lead byte [b] of a sequence of
    three or four bytes. *)
Definition second_range (b : N) : N * N :=
  if b =? 0xE0 then (0xA0, 0xBF)
  else if b =? 0xED then (0x80, 0x9F)
  else if b =? 0xF0 then (0x90, 0xBF)
  else if b =? 0xF4 then (0x80, 0x8F)
  else (0x80, 0xBF).

(** [bytes.decode('utf-8', 'replace')]: every maximal ill-formed part
    becomes U+FFFD. *)
Fixpoint decode_replace (s : list N) : pystr :=
  match s with
  | [] => []
  | b :: r =>
      if b <? 0x80 then b :: decode_replace r
      else if between 0xC2 0xDF b then
        match r with
        | c1 :: r1 =>
            if is_cont c1
            then (b - 0xC0) * 64 + (c1 - 0x80) :: decode_replace r1
            else 0xFFFD :: decode_replace r
        | [] => [0xFFFD]
        end
      else if between 0xE0 0xEF b then
        match r with
        | c1 :: r1 =>
            if between (fst (second_range b)) (snd (second_range b)) c1 then
              match r1 with
              | c2 :: r2 =>
                  if is_cont c2
                  then ((b - 0xE0) * 64 + (c1 - 0x80)) * 64 + (c2 - 0x80)
                       :: decode_replace r2
                  else 0xFFFD :: decode_replace r1
              | [] => [0xFFFD]
              end
            else 0xFFFD :: decode_replace r
        | [] => [0xFFFD]
        end
      else if between 0xF0 0xF4 b then
        match r with
        | c1 :: r1 =>
            if between (fst (second_range b)) (snd (second_range b)) c1 then
              match r1 with
              | c2 :: r2 =>
                  if is_cont c2 then
                    match r2 with
                    | c3 :: r3 =>
                        if is_cont c3
                        then (((b - 0xF0) * 64 + (c1 - 0x80)) * 64
                              + (c2 - 0x80)) * 64 + (c3 - 0x80)
                             :: decode_replace r3
                        else 0xFFFD :: decode_replace r2
                    | [] => [0xFFFD]
                    end
                  else 0xFFFD :: decode_replace r1
              | [] => [0xFFFD]
              end
            else 0xFFFD :: decode_replace r
        | [] => [0xFFFD]
        end
      else 0xFFFD :: decode_replace r
  end.

(** [unquote_to_bytes] on an ASCII text: [%HH] becomes the byte [HH], a
    [%] not followed by two hexadecimal digits stays. *)
Fixpoint unquote_to_bytes (s : pystr) : list N :=
  match s with
  | [] => []
  | c :: t =>
      if c =? 37 then
        match t with
        | a :: b :: r =>
            match Py.hex_value a, Py.hex_value b with
            | Some x, Some y => 16 * x + y :: unquote_to_bytes r
            | _, _ => c :: unquote_to_bytes t
            end
        | _ => c :: unquote_to_bytes t
        end
      else c :: unquote_to_bytes t
  end.


(** The pieces [_asciire.split] cuts a text into: maximal runs of ASCII
    characters ([true]) and of other characters ([false]), in order. *)
Fixpoint runs (cur : option (bool * pystr)) (s : pystr)
  : list (bool * pystr) :=
  match s with
  | [] => match cur with
          | Some (k, acc) => [(k, rev acc)]
          | None => []
          end
  | c :: s' =>
      let k := c <? 128 in
      match cur with
      | None => runs (Some (k, [c])) s'
      | Some (k0, acc) =>
          if Bool.eqb k k0 then runs (Some (k0, c :: acc)) s'
          else (k0, rev acc) :: runs (Some (k, [c])) s'
      end
  end.

(** [urllib.parse.unquote(s)] with its defaults (UTF-8, [replace]): the
    percent escapes of every ASCII run are turned into bytes and the run
    is decoded; other characters are kept. *)
Definition unquote (s : pystr) : pystr :=
  if negb (existsb (N.eqb 37) s) then s
  else List.concat
         (List.map (fun p : bool * pystr =>
                      if fst p
                      then decode_replace (unquote_to_bytes (snd p))
                      else snd p)
                   (runs None s)).

End Url.

(* ===================================================================== *)
(** * The link derivation: [js_decode] and [parse_storage]                *)
(* ===================================================================== *)

(** [json_decode(s)] *)
Definition json_decode (s : pystr) : result jvalue := Json.loads s.

(** [chr(n)] *)
Definition py_chr (n : N) : result N :=
  if n <? 0x110000 then Ok n else Err ValueError.

(** [text[1:-1]] *)
Definition slice_1_m1 (s : pystr) : pystr := removelast (tl s).

(** The pattern of [js_decode]:
    [(^|[^\\])(\\\\)*\\x[0-9A-Fa-f]{2}]. *)
Definition hex_escape : Re.regex :=
  Re.cat [ Re.Group 1 (Re.Alt Re.Bol (Re.Cls (fun c => negb (c =? 92))));
           Re.Star (Re.Group 2 (Re.Seq (Re.chr 92) (Re.chr 92)));
           Re.chr 92; Re.chr 120; Re.Cls Py.is_hex; Re.Cls Py.is_hex ].

(** The local function [repl] of [js_decode], applied to [m.group(0)]. *)
Definition js_decode_repl (g0 : pystr) (_ : Re.captures) : result pystr :=
  match Py.split (py "\x") g0 with
  | p0 :: p1 :: rest =>
      try! n := Py.int16 p1 in
      try! c := py_chr n in
      Ok (Py.join (p0 :: slice_1_m1 (Json.dumps_str [c]) :: rest))
  | _ => Err IndexError
  end.

(** [js_decode(s)]: hex escape sequence support, then JSON. *)
Definition js_decode (s : pystr) : result jvalue :=
  try! json_clean := Re.sub hex_escape js_decode_repl s in
  json_decode json_clean.

(** The handler calls [HTMLParser.feed] makes for a document.  Only start
    tags and text reach code of the program; every other call (end tags,
    comments, declarations, ...) runs the library's empty handler. *)
Inductive html_event :=
| StartTag (tag : pystr) (attrs : list (pystr * option pystr))
| EndTag (tag : pystr)
| Data (data : pystr)
| Comment (data : pystr)
| Decl (decl : pystr)
| Pi (data : pystr).

(** An HTML document, as the sequence of parser events it gives. *)
Definition html := list html_event.

(** The seven groups of a match, the dict [jsdata]. *)
Record jsdata := {
  js_a : pystr;
  js_str : pystr;
  js_substr_start : pystr;
  js_substr_length : pystr;
  js_url_head : pystr;
  js_power : pystr;
  js_url_tail : pystr
}.

Module TheHTMLParser.

Definition ws : Re.regex := Re.Star Re.s_.
Definition quoted : Re.regex :=                       (* "[^\r\n]*" *)
  Re.cat [Re.chr 34; Re.Star Re.not_crlf; Re.chr 34].

(** [self.jsreg] *)
Definition jsreg : Re.regex :=
  Re.cat
    [ Re.lit "var"; Re.plus Re.s_; Re.lit "a"; ws; Re.lit "="; ws;
      Re.Group 1 (Re.plus Re.d_); Re.lit ";"; Re.Star Re.any_;
      Re.lit "."; ws; Re.lit "omg"; ws; Re.lit "="; ws;
      Re.Group 2 quoted; ws; Re.lit "."; ws; Re.lit "substr"; ws;
      Re.lit "("; ws; Re.Group 3 (Re.plus Re.d_); ws; Re.lit ","; ws;
      Re.Group 4 (Re.plus Re.d_); ws; Re.lit ")"; ws; Re.lit ";";
      Re.Star Re.any_;
      Re.lit ".href"; ws; Re.lit "="; ws; Re.Group 5 quoted; ws;
      Re.lit "+"; ws;
      Re.lit "("; ws; Re.lit "Math"; ws; Re.dot_; ws; Re.lit "pow"; ws;
      Re.lit "("; ws; Re.lit "a"; ws; Re.lit ","; ws;
      Re.Group 6 (Re.plus Re.d_); ws; Re.lit ")"; ws; Re.lit "+"; ws;
      Re.lit "b"; ws; Re.lit ")"; ws; Re.lit "+"; ws;
      Re.Group 7 quoted; ws; Re.lit ";" ].

(** The parser object: [self.script] and [self.jsdata]. *)
Record t := {
  script : bool;
  jsdata_ : option jsdata
}.

Definition init : t := {| script := false; jsdata_ := None |}.

(** [tag.lower() == 'script'] *)
Definition is_script (tag : pystr) : bool :=
  pystr_eqb (Py.lower tag) (py "script").

Definition handle_starttag (self : t) (tag : pystr)
    (attrs : list (pystr * option pystr)) : t :=
  {| script := is_script tag; jsdata_ := jsdata_ self |}.

(** The groups of a match of [jsreg] on [src], as the dict [jsdata].
    Every group of [jsreg] takes part in every match. *)
Definition jsreg_match (src : pystr) : option jsdata :=
  match Re.match_ jsreg src with
  | None => None
  | Some m =>
      match Re.group m 1, Re.group m 2, Re.group m 3, Re.group m 4,
            Re.group m 5, Re.group m 6, Re.group m 7 with
      | Some g1, Some g2, Some g3, Some g4, Some g5, Some g6, Some g7 =>
          Some {| js_a := g1; js_str := g2; js_substr_start := g3;
                  js_substr_length := g4; js_url_head := g5;
                  js_power := g6; js_url_tail := g7 |}
      | _, _, _, _, _, _, _ => None
      end
  end.

Definition handle_data (self : t) (data : pystr) : t :=
  if negb (script self) then self
  else
    let src := Py.strip data in
    match jsreg_match src with
    | None => self
    | Some d => {| script := script self; jsdata_ := Some d |}
    end.

Definition result (self : t) : option jsdata := jsdata_ self.

Definition handle (self : t) (e : html_event) : t :=
  match e with
  | StartTag tag attrs => handle_starttag self tag attrs
  | Data d => handle_data self d
  | EndTag _ | Comment _ | Decl _ | Pi _ => self
  end.

(** [parser.feed(html)] *)
Definition feed (self : t) (doc : html) : t := fold_left handle doc self.

End TheHTMLParser.

(** The dict [parse_storage] returns. *)
Record link := {
  href : pystr;
  name : pystr
}.

(** Library functions whose behaviour the program takes as it comes:
    [urlparse(url).path], [urljoin], the parsing of an HTTP date
    ([email.utils.parsedate_tz], [None] when the text is no date, and
    [mktime_tz]) and the decoding of a page ([bytes.decode('utf-8')]
    followed by the events [HTMLParser.feed] gives for the text). *)
Class PyLib := {
  date_tuple : Type;
  url_path : pystr -> result pystr;
  urljoin : pystr -> pystr -> result pystr;
  parsedate_tz : pystr -> option date_tuple;
  mktime_tz : date_tuple -> Z;
  decode_html : list N -> result html
}.

(** Python's arithmetic on the decoded values. *)
Definition py_len (v : jvalue) : result Z :=
  match v with
  | JStr s => Ok (Z.of_nat (length s))
  | JInt _ => Err TypeError
  end.

Definition py_int_sub (a : Z) (v : jvalue) : result Z :=
  match v with
  | JInt b => Ok (a - b)%Z
  | JStr _ => Err TypeError
  end.

Definition py_int_min (a : Z) (v : jvalue) : result Z :=
  match v with
  | JInt b => Ok (if (b <? a)%Z then b else a)
  | JStr _ => Err TypeError
  end.

(** [pow(a, b)]; a negative exponent gives a [float]. *)
Definition py_pow (a b : jvalue) : result Z :=
  match a, b with
  | JInt x, JInt y => if (y <? 0)%Z then Err OutsideModel else Ok (x ^ y)%Z
  | _, _ => Err TypeError
  end.

(** What [%s] gives for a value. *)
Definition py_str (v : jvalue) : pystr :=
  match v with
  | JStr s => s
  | JInt z => Py.str_of_int z
  end.

(** [text.split('/').pop()] *)
Definition last_segment (s : pystr) : pystr :=
  List.last (Py.split (py "/") s) [].

(* ===================================================================== *)
(** * The world: files, network, clock and progress sink                  *)
(* ===================================================================== *)

(** A file: its bytes, and the modification time [os.utime] gave it, if
    the program set one. *)
Record file := {
  content : list N;
  mtime : option Z
}.

(** An HTTP request: the URL and the header dict, in insertion order. *)
Record http_request := {
  req_url : pystr;
  req_headers : list (pystr * pystr)
}.

(** What one [res.read(...)] gives: bytes, or an exception.  The empty
    bytes, or the end of the list, is the end of the stream.  How a body is
    cut into chunks depends on the buffer size and on the network; every
    cut is a list of chunks. *)
Inductive chunk :=
| Bytes (data : list N)
| Fault.

(** A response object ([HTTPError] included): status code, headers and the
    results of the successive reads of its body. *)
Record response := {
  res_code : Z;
  res_headers : list (pystr * pystr);
  res_body : list chunk
}.

(** [urlopen] gives a response or raises something that is no
    [HTTPError]. *)
Inductive net_result :=
| Responded (r : response)
| Refused.

(** [DL_PROGRESS_START], [DL_PROGRESS_READ], [DL_PROGRESS_WROTE] and
    [DL_PROGRESS_DONE]. *)
Inductive dl_progress :=
| DL_PROGRESS_START
| DL_PROGRESS_READ
| DL_PROGRESS_WROTE
| DL_PROGRESS_DONE.

(** The arguments of one call of the progress callback:
    [progress(status, start, now, offset, added, current, total)]. *)
Record progress_event := {
  ev_status : dl_progress;
  ev_start : Z;
  ev_now : Z;
  ev_offset : Z;
  ev_added : Z;
  ev_current : Z;
  ev_total : option Z
}.

(** What the program does to the outside, in order. *)
Inductive effect :=
| Progress (e : progress_event)
| Requested (r : http_request).

(** What a run cannot control: [net] answers the [n]-th request of the
    run, [clock] is the value of the [n]-th call of [time.time()]. *)
Record env := {
  net : nat -> http_request -> net_result;
  clock : nat -> Z
}.

(** The state a run threads through: the files, the number of clock
    readings and of requests made so far, and the effects so far.  Console
    output is not part of the model. *)
Record world := {
  fs : gmap pystr file;
  ticks : nat;
  requests : nat;
  trace : list effect
}.

(** Computations: a result or an exception, and the world after. *)
Definition M (A : Type) : Type := env -> world -> result A * world.

Definition ret {A} (a : A) : M A := fun _ w => (Ok a, w).
Definition raise {A} (e : exn) : M A := fun _ w => (Err e, w).
Definition bind {A B} (c : M A) (k : A -> M B) : M B :=
  fun E w => match c E w with
             | (Ok a, w') => k a E w'
             | (Err e, w') => (Err e, w')
             end.
Definition lift {A} (r : result A) : M A := fun _ w => (r, w).

Notation "'do!' x ':=' c 'in' k" := (bind c (fun x => k))
  (at level 10, x name, c at level 100, k at level 200).
Notation "'run!' c 'in' k" := (bind c (fun _ => k))
  (at level 10, c at level 100, k at level 200).

Definition set_fs (f : gmap pystr file -> gmap pystr file) (w : world) : world :=
  {| fs := f (fs w); ticks := ticks w; requests := requests w;
     trace := trace w |}.

Definition log (e : effect) (w : world) : world :=
  {| fs := fs w; ticks := ticks w; requests := requests w;
     trace := trace w ++ [e] |}.

(** [time.time()] *)
Definition time_time : M Z :=
  fun E w => (Ok (clock E (ticks w)),
              {| fs := fs w; ticks := S (ticks w); requests := requests w;
                 trace := trace w |}).

(** [open(dest, 'ab' if cont else 'wb')]: appending keeps the file or
    creates it empty, writing empties it. *)
Definition fs_open (dest : pystr) (cont : bool) : M unit :=
  fun _ w =>
    (Ok tt,
     set_fs (fun m =>
               match m !! dest with
               | Some f => if cont then m
                           else <[dest := {| content := []; mtime := mtime f |}]> m
               | None => <[dest := {| content := []; mtime := None |}]> m
               end) w).

(** [fp.tell()] of a file opened for appending: its size. *)
Definition fs_tell (dest : pystr) : M Z :=
  fun _ w => match fs w !! dest with
             | Some f => (Ok (Z.of_nat (length (content f))), w)
             | None => (Err OSError, w)
             end.

(** [fp.write(data)] on a file opened for appending or writing. *)
Definition fs_write (dest : pystr) (data : list N) : M unit :=
  fun _ w => match fs w !! dest with
             | Some f =>
                 (Ok tt,
                  set_fs <[dest := {| content := content f ++ data;
                                      mtime := mtime f |}]> w)
             | None => (Err OSError, w)
             end.

(** [self.stat(path)]: the size of the file, [None] when there is none. *)
Definition stat (path : pystr) : M (option Z) :=
  fun _ w => (Ok (option_map (fun f => Z.of_nat (length (content f)))
                           (fs w !! path)), w).

(** [os.remove(path)] *)
Definition os_remove (path : pystr) : M unit :=
  fun _ w => match fs w !! path with
             | Some _ => (Ok tt, set_fs (delete path) w)
             | None => (Err OSError, w)
             end.

(** [os.utime(path, (t, t))] *)
Definition os_utime (path : pystr) (t : Z) : M unit :=
  fun _ w => match fs w !! path with
             | Some f =>
                 (Ok tt,
                  set_fs <[path := {| content := content f; mtime := Some t |}]> w)
             | None => (Err OSError, w)
             end.

(** [os.rename(src, dst)] *)
Definition os_rename (src dst : pystr) : M unit :=
  fun _ w => match fs w !! src with
             | Some f => (Ok tt, set_fs (fun m => <[dst := f]> (delete src m)) w)
             | None => (Err OSError, w)
             end.

(** [os.path.join(a, b)] of [posixpath]. *)
Definition path_join (a b : pystr) : pystr :=
  if Py.starts_with [47] b then b
  else match a with
       | [] => b
       | _ => if (List.last a 0 =? 47) then a ++ b else a ++ [47] ++ b
       end.

(** One call of the progress callback: the call is recorded, and the
    callback may raise. *)
Definition call_progress (progress : progress_event -> result unit)
    (e : progress_event) : M unit :=
  fun _ w => (progress e, log (Progress e) w).

(** The header lookup of a response's message object, [header in headers]
    and [headers[header]]: names compare in lower case, the first field of
    the name wins. *)
Definition header_lookup (headers : list (pystr * pystr)) (header : pystr)
  : option pystr :=
  match List.find (fun h => pystr_eqb
                              (Py.lower (fst h))
                              (Py.lower header))
                  headers with
  | Some h => Some (snd h)
  | None => None
  end.

Global Arguments header_lookup : simpl never.

(** [int(r)] where [r] may be [None]. *)
Definition py_int (r : option pystr) : result Z :=
  match r with
  | None => Err TypeError
  | Some s => match Py.int_of_str s with
              | Some z => Ok z
              | None => Err ValueError
              end
  end.

(** The options of the command line that the modelled code reads. *)
Record options := {
  opt_url : pystr;
  opt_file : option pystr;
  opt_dir : option pystr;
  opt_mtime : bool
}.

(** The dict [request_download] returns. *)
Record dlinfo := {
  dl_size : option Z;
  dl_modified : option Z
}.

(** [__prog__] *)
Definition prog : pystr := py "zsdl.py".

(* ===================================================================== *)
(** * The program: class [Main]                                           *)
(* ===================================================================== *)

Section Main.

Context {L : PyLib}.

(** [assert_status_code(code, expected)] *)
Definition assert_status_code (code expected : Z) : result unit :=
  if (code =? expected)%Z then Ok tt
  else Err (InvalidStatusCode code expected).

(** [request(url, headers)]: an [HTTPError] is a response like any
    other, anything else [urlopen] raises goes up. *)
Definition request (url : pystr) (headers : list (pystr * pystr))
  : M response :=
  fun E w =>
    let rq := {| req_url := url; req_headers := headers |} in
    let w' := {| fs := fs w; ticks := ticks w; requests := S (requests w);
                 trace := trace w ++ [Requested rq] |} in
    match net E (requests w) rq with
    | Responded r => (Ok r, w')
    | Refused => (Err NetworkError, w')
    end.

(** [res.read()]: the whole body. *)
Fixpoint read_all (body : list chunk) : result (list N) :=
  match body with
  | [] => Ok []
  | Fault :: _ => Err ReadError
  | Bytes [] :: _ => Ok []
  | Bytes d :: rest => try! t := read_all rest in Ok (d ++ t)
  end.

(** [request_data(url)] *)
Definition request_data (url : pystr)
  : M (Z * list (pystr * pystr) * list N) :=
  do! res := request url [(py "User-Agent", [])] in
  let code := res_code res in
  let headers := res_headers res in
  do! body := lift (read_all (res_body res)) in
  ret (code, headers, body).

(** [request_data_decode(body, headers)], with the parsing [feed] does
    on the text. *)
Definition request_data_decode (body : list N)
    (headers : list (pystr * pystr)) : result html :=
  decode_html body.

(** [request_header_get(headers, header)], without a cast. *)
Definition request_header_get (headers : list (pystr * pystr))
    (header : pystr) : option pystr :=
  header_lookup headers header.

(** [request_header_get(headers, header, cast)]: whatever the cast
    raises, the value is [None]. *)
Definition request_header_get_cast {T} (headers : list (pystr * pystr))
    (header : pystr) (cast : option pystr -> result T) : option T :=
  match cast (header_lookup headers header) with
  | Ok r => Some r
  | Err _ => None
  end.

(** [parse_http_header_date(value)]: [mktime_tz(None)] is a
    [TypeError]. *)
Definition parse_http_header_date (value : pystr) : result Z :=
  match parsedate_tz value with
  | Some parsed => Ok (mktime_tz parsed)
  | None => Err TypeError
  end.

Definition mk_event (status : dl_progress) (start now offset added current : Z)
    (total : option Z) : progress_event :=
  {| ev_status := status; ev_start := start; ev_now := now;
     ev_offset := offset; ev_added := added; ev_current := current;
     ev_total := total |}.

(** The [while True] loop of [request_download] over the reads of the
    body; its value is the final [size]. *)
Fixpoint request_download_loop (dest : pystr)
    (progress : progress_event -> result unit)
    (start offset : Z) (total : option Z) (size : Z) (body : list chunk)
  : M Z :=
  match body with
  | [] => ret size
  | Fault :: _ => raise ReadError
  | Bytes data :: rest =>
      let added := Z.of_nat (length data) in
      if (added =? 0)%Z then ret size
      else
        let size := (size + added)%Z in
        do! now := time_time in
        run! call_progress progress
               (mk_event DL_PROGRESS_READ start now offset added size total) in
        run! fs_write dest data in
        do! now := time_time in
        run! call_progress progress
               (mk_event DL_PROGRESS_WROTE start now offset added size total) in
        request_download_loop dest progress start offset total size rest
  end.

(** [request_download(url, dest, progress, cont)].  The value is the
    dict, or [None] where the code returns nothing. *)
Definition request_download (url dest : pystr)
    (progress : progress_event -> result unit) (cont : bool)
  : M (option dlinfo) :=
  (* Open the output file, append mode if continue. *)
  run! fs_open dest cont in
  (* Get the file size if continue. *)
  do! offset := (if cont then fs_tell dest else ret 0%Z) in
  let continued := cont && negb (offset =? 0)%Z in
  (* Switch to range request if continue from existing. *)
  let status := if continued then 206%Z else 200%Z in
  let headers :=
    [(py "User-Agent", [])]
    ++ (if continued
        then [(py "Range", py "bytes=" ++ Py.str_of_int offset ++ py "-")]
        else []) in
  do! start := time_time in
  run! call_progress progress
         (mk_event DL_PROGRESS_START start start offset 0 offset None) in
  do! res := request url headers in
  let code := res_code res in
  (* If continued and range is invalid, then no more bytes. *)
  if continued && (code =? 416)%Z then
    do! now := time_time in
    run! call_progress progress
           (mk_event DL_PROGRESS_DONE start now offset 0 offset (Some offset)) in
    ret None
  else
    run! lift (assert_status_code (res_code res) status) in
    let headers := res_headers res in
    let content_length :=
      request_header_get_cast headers (py "content-length") py_int in
    let modified := request_header_get headers (py "last-modified") in
    do! modified :=
      lift (match modified with
            | Some (c :: v) =>
                try! t := parse_http_header_date (c :: v) in Ok (Some t)
            | Some [] | None => Ok None
            end) in
    let total := option_map (fun cl => (offset + cl)%Z) content_length in
    let size := offset in
    do! size :=
      request_download_loop dest progress start offset total size
                            (res_body res) in
    do! now := time_time in
    run! call_progress progress
           (mk_event DL_PROGRESS_DONE start now offset 0 size total) in
    ret (Some {| dl_size := total; dl_modified := modified |}).

(** [parse_storage(html)] from the decoding of the groups on: the
    arithmetic of the page, the link and the name. *)
Definition parse_storage_jsdata (jsdata : jsdata) : result link :=
  try! js_a := js_decode (js_a jsdata) in
  try! js_str := js_decode (js_str jsdata) in
  try! js_substr_start := js_decode (js_substr_start jsdata) in
  try! js_substr_length := js_decode (js_substr_length jsdata) in
  try! js_url_head := js_decode (js_url_head jsdata) in
  try! js_power := js_decode (js_power jsdata) in
  try! js_url_tail := js_decode (js_url_tail jsdata) in
  try! len := py_len js_str in
  try! diff := py_int_sub len js_substr_start in
  try! jb_b := py_int_min diff js_substr_length in
  try! p := py_pow js_a js_power in
  let js_computed := (p + jb_b)%Z in
  let href := py_str js_url_head ++ Py.str_of_int js_computed
              ++ py_str js_url_tail in
  try! path := url_path href in
  let name := last_segment (Url.unquote path) in
  Ok {| href := href; name := name |}.

(** [parse_storage(html)]: subscripting the [None] of a parser that met
    no match is a [TypeError]. *)
Definition parse_storage (doc : html) : result link :=
  let parser := TheHTMLParser.feed TheHTMLParser.init doc in
  match TheHTMLParser.result parser with
  | None => Err TypeError
  | Some jsdata => parse_storage_jsdata jsdata
  end.

(** [fetch_storage(url)]: the resource URL and the name. *)
Definition fetch_storage (opts : options) (url : pystr) : M (pystr * pystr) :=
  do! r := request_data (opt_url opts) in
  let '(code, headers, body) := r in
  run! lift (assert_status_code code 200) in
  do! html := lift (request_data_decode body headers) in
  do! parsed := lift (parse_storage html) in
  let href := href parsed in
  do! url := lift (urljoin url href) in
  let name := name parsed in
  ret (url, name).

(** [create_out_dir()] *)
Definition create_out_dir (opts : options) : pystr :=
  match opt_dir opts with
  | Some (c :: d) => c :: d
  | Some [] | None => []
  end.

(** [create_file_name_temp(file_name)] *)
Definition create_file_name_temp (file_name : pystr) : pystr :=
  py "." ++ prog ++ py "." ++ file_name.

(** [create_file_name(storage)], [storage] being the name found or
    [None]. *)
Definition create_file_name (opts : options) (storage : option pystr)
  : option pystr :=
  match opt_file opts with
  | Some (c :: f) => Some (c :: f)
  | Some [] | None => storage
  end.

(** [download_verify_size(file_path, file_size)] *)
Definition download_verify_size (file_path : pystr) (file_size : Z)
  : M unit :=
  do! st := stat file_path in
  match st with
  | None => raise AttributeError
  | Some size =>
      if negb (size =? file_size)%Z
      then raise (UnexpectedSize size file_size)
      else ret tt
  end.

(** [download_set_mtime(file_path, file_mtime)] *)
Definition download_set_mtime (file_path : pystr) (file_mtime : Z)
  : M unit :=
  os_utime file_path file_mtime.

(** [assert_not_exists(file_path)] *)
Definition assert_not_exists (file_path : pystr) : M unit :=
  do! st := stat file_path in
  match st with
  | Some _ => raise (AlreadyExists file_path)
  | None => ret tt
  end.

(** [download_progress(...)]: nothing on a read or at the start; on the
    other calls a line is computed from [total - offset], which is a
    [TypeError] when [total] is [None].  The line itself (floating-point
    rates and times) is console output. *)
Definition download_progress (e : progress_event) : result unit :=
  match ev_status e with
  | DL_PROGRESS_READ => Ok tt
  | DL_PROGRESS_START => Ok tt
  | _ =>
      match ev_total e with
      | None => Err TypeError
      | Some _ => Ok tt
      end
  end.

(** The names and paths [download] settles before the transfer. *)
Record targets := {
  file_name_path : pystr;
  file_name_temp_path : pystr
}.

(** [try: ... except Exception as ex: handler; raise ex] *)
Definition on_exception {A} (c : M A) (handler : M unit) : M A :=
  fun E w => match c E w with
             | (Ok a, w') => (Ok a, w')
             | (Err e, w') =>
                 match handler E w' with
                 | (Ok _, w'') => (Err e, w'')
                 | (Err e', w'') => (Err e', w'')
                 end
             end.

(** [download()] up to the end of the transfer: the early check of an
    explicit name, the link, the late check, the transfer to the
    temporary path. *)
Definition download_transfer (opts : options)
  : M (targets * option dlinfo) :=
  let out_dir := create_out_dir opts in
  let file_name := create_file_name opts None in
  run! match file_name with
       | Some f => assert_not_exists (path_join out_dir f)
       | None => ret tt
       end in
  do! storage := fetch_storage opts (opt_url opts) in
  let url := fst storage in
  do! file_name :=
    lift (match file_name with
          | Some f => Ok f
          | None =>
              match create_file_name opts (Some (snd storage)) with
              | Some f => Ok f
              | None => Err TypeError
              end
          end) in
  let file_name_path := path_join out_dir file_name in
  run! assert_not_exists file_name_path in
  let file_name_temp := create_file_name_temp file_name in
  let file_name_temp_path := path_join out_dir file_name_temp in
  (* Download with progress info. *)
  do! dlinfo := request_download url file_name_temp_path
                                 download_progress true in
  ret ({| file_name_path := file_name_path;
          file_name_temp_path := file_name_temp_path |}, dlinfo).

(** [download()] from the size check on: verify, set the modified time
    if requested, rename. *)
Definition download_finish (opts : options) (t : targets)
    (dlinfo : option dlinfo) : M unit :=
  match dlinfo with
  | None => raise TypeError
  | Some dlinfo =>
      (* Verify size. *)
      let storage_size := dl_size dlinfo in
      run! match storage_size with
           | None => ret tt
           | Some storage_size =>
               on_exception
                 (download_verify_size (file_name_temp_path t) storage_size)
                 (os_remove (file_name_temp_path t))
           end in
      (* Set the modified time if requested. *)
      run! (if opt_mtime opts then
              match dl_modified dlinfo with
              | None => ret tt
              | Some storage_mtime =>
                  download_set_mtime (file_name_temp_path t) storage_mtime
              end
            else ret tt) in
      os_rename (file_name_temp_path t) (file_name_path t)
  end.

(** [download()] *)
Definition download (opts : options) : M unit :=
  do! r := download_transfer opts in
  download_finish opts (fst r) (snd r).

End Main.

Global Arguments request_header_get : simpl never.
Global Arguments request_header_get_cast : simpl never.
Global Arguments parse_http_header_date : simpl never.

(* ===================================================================== *)
(** * Vocabulary of the statements                                        *)
(* ===================================================================== *)

(** The matches of the template a parser meets in a document, in document
    order; [script] is the parser's flag before the document. *)
Fixpoint script_matches_from (script : bool) (doc : html) : list jsdata :=
  match doc with
  | [] => []
  | StartTag tag _ :: rest =>
      script_matches_from (TheHTMLParser.is_script tag) rest
  | Data data :: rest =>
      (if script
       then match TheHTMLParser.jsreg_match (Py.strip data) with
            | Some d => [d]
            | None => []
            end
       else [])
      ++ script_matches_from script rest
  | _ :: rest => script_matches_from script rest
  end.

Definition script_matches (doc : html) : list jsdata :=
  script_matches_from false doc.

(** The texts a pattern matches, groups and greed set aside. *)
Inductive lang : Re.regex -> pystr -> Prop :=
| lang_eps : lang Re.Eps []
| lang_bol : lang Re.Bol []
| lang_cls p x : p x = true -> lang (Re.Cls p) [x]
| lang_seq r1 r2 t1 t2 :
    lang r1 t1 -> lang r2 t2 -> lang (Re.Seq r1 r2) (t1 ++ t2)
| lang_alt_l r1 r2 t : lang r1 t -> lang (Re.Alt r1 r2) t
| lang_alt_r r1 r2 t : lang r2 t -> lang (Re.Alt r1 r2) t
| lang_star_nil r : lang (Re.Star r) []
| lang_star_cons r t1 t2 :
    lang r t1 -> lang (Re.Star r) t2 -> lang (Re.Star r) (t1 ++ t2)
| lang_group n r t : lang r t -> lang (Re.Group n r) t.

(** Every text a group of the pattern can match has property [P] of the
    group's number. *)
Fixpoint groups_ok (P : nat -> pystr -> Prop) (r : Re.regex) : Prop :=
  match r with
  | Re.Group n r1 => (forall t, lang r1 t -> P n t) /\ groups_ok P r1
  | Re.Seq r1 r2 | Re.Alt r1 r2 => groups_ok P r1 /\ groups_ok P r2
  | Re.Star r1 => groups_ok P r1
  | Re.Eps | Re.Bol | Re.Cls _ => True
  end.


(** The progress events among effects, in order. *)
Fixpoint progress_events (es : list effect) : list progress_event :=
  match es with
  | [] => []
  | Progress e :: rest => e :: progress_events rest
  | Requested _ :: rest => progress_events rest
  end.

(** The requests among effects, in order. *)
Fixpoint requests_made (es : list effect) : list http_request :=
  match es with
  | [] => []
  | Requested r :: rest => r :: requests_made rest
  | Progress _ :: rest => requests_made rest
  end.

Definition is_read_or_wrote (e : progress_event) : bool :=
  match ev_status e with
  | DL_PROGRESS_READ | DL_PROGRESS_WROTE => true
  | _ => false
  end.

(** Read and Wrote events come in pairs with the same byte counts. *)
Inductive paired : list progress_event -> Prop :=
| paired_nil : paired []
| paired_cons r w rest :
    ev_status r = DL_PROGRESS_READ ->
    ev_status w = DL_PROGRESS_WROTE ->
    ev_added w = ev_added r ->
    ev_current w = ev_current r ->
    paired rest ->
    paired (r :: w :: rest).

(** A list of integers that never goes down. *)
Fixpoint non_decreasing (l : list Z) : Prop :=
  match l with
  | [] => True
  | x :: rest =>
      match rest with
      | [] => True
      | y :: _ => (x <= y)%Z /\ non_decreasing rest
      end
  end.

(** The size of the file at [path], zero when there is none. *)
Definition size_on_disk (w : world) (path : pystr) : Z :=
  match fs w !! path with
  | Some f => Z.of_nat (length (content f))
  | None => 0%Z
  end.

(** A computation keeps a property of the world, whatever it returns. *)
Definition preserves (Q : world -> Prop) {A} (c : M A) : Prop :=
  forall E w r w', Q w -> c E w = (r, w') -> Q w'.


(* ===================================================================== *)
(** * A library instance for the examples                                 *)
(* ===================================================================== *)

Module Example.

Definition is_scheme_char (c : N) : bool :=
  ((97 <=? c) && (c <=? 122)) || ((65 <=? c) && (c <=? 90))
  || ((48 <=? c) && (c <=? 57)) || (c =? 43) || (c =? 45) || (c =? 46).

Definition is_alpha (c : N) : bool :=
  ((97 <=? c) && (c <=? 122)) || ((65 <=? c) && (c <=? 90)).

Fixpoint take_until (stop : N -> bool) (s : pystr) : pystr :=
  match s with
  | c :: s' => if stop c then [] else c :: take_until stop s'
  | [] => []
  end.

Fixpoint drop_until (stop : N -> bool) (s : pystr) : pystr :=
  match s with
  | c :: s' => if stop c then s else drop_until stop s'
  | [] => []
  end.

(** The scheme of a URL with its colon, and the rest. *)
Definition split_scheme (u : pystr) : pystr * pystr :=
  let pre := take_until (N.eqb 58) u in
  match pre, drop_until (N.eqb 58) u with
  | c :: _, _ :: rest =>
      if is_alpha c && forallb is_scheme_char pre
      then (pre ++ [58], rest) else ([], u)
  | _, _ => ([], u)
  end.

Definition ends_netloc (c : N) : bool := (c =? 47) || (c =? 63) || (c =? 35).

(** The [//host] part of what follows the scheme, and the rest. *)
Definition split_netloc (u : pystr) : pystr * pystr :=
  match u with
  | 47 :: 47 :: r => (47 :: 47 :: take_until ends_netloc r,
                      drop_until ends_netloc r)
  | _ => ([], u)
  end.

(** The path of a URL: what is left without scheme, host, fragment,
    query and the parameters of the last segment. *)
Definition path_of (u : pystr) : result pystr :=
  let p := take_until (fun c => (c =? 35) || (c =? 63))
                      (snd (split_netloc (snd (split_scheme u)))) in
  let lastseg := List.last (Py.split [47] p) [] in
  Ok (firstn (length p - length lastseg)%nat p
      ++ take_until (N.eqb 59) lastseg).

(** The directory of a path: up to its last slash. *)
Definition dirname (p : pystr) : pystr :=
  firstn (length p - length (List.last (Py.split (py "/") p) [])) p.

(** A link resolved against a base URL, for links that are complete
    URLs, start with a slash or name a file next to the base. *)
Definition join_url (base link : pystr) : result pystr :=
  let '(scheme, rest) := split_scheme base in
  let '(host, path) := split_netloc rest in
  match fst (split_scheme link), link with
  | _ :: _, _ => Ok link
  | [], 47 :: 47 :: _ => Ok (scheme ++ link)
  | [], 47 :: _ => Ok (scheme ++ host ++ link)
  | [], _ => Ok (scheme ++ host
                 ++ dirname (take_until (fun c => (c =? 35) || (c =? 63)) path)
                 ++ link)
  end.

Inductive mode := InText | InTag | InScript.

Definition flush (acc : pystr) : html :=
  match acc with
  | [] => []
  | _ => [Data (rev acc)]
  end.

Definition tag_event (t : pystr) : html_event :=
  match t with
  | 47 :: name => EndTag (Py.lower name)
  | _ => StartTag (Py.lower t) []
  end.

(** The events of a document made of text and of tags without
    attributes; the text of a script element runs to its end tag. *)
Fixpoint tokenize (m : mode) (acc : pystr) (s : pystr) : html :=
  match s with
  | [] => flush acc
  | c :: s' =>
      match m with
      | InText =>
          if c =? 60 then flush acc ++ tokenize InTag [] s'
          else tokenize InText (c :: acc) s'
      | InTag =>
          if c =? 62
          then tag_event (rev acc)
               :: tokenize (if TheHTMLParser.is_script (rev acc)
                            then InScript else InText) [] s'
          else tokenize InTag (c :: acc) s'
      | InScript =>
          if (c =? 60)
             && Py.starts_with (py "/script")
                  (Py.lower s')
          then flush acc ++ tokenize InTag [] s'
          else tokenize InScript (c :: acc) s'
      end
  end.

(** A page in ASCII, decoded and parsed. *)
Definition decode_page (body : list N) : result html :=
  if forallb (fun b => b <? 128) body
  then Ok (tokenize InText [] body)
  else Err UnicodeDecodeError.

(** The instance: these URL functions and this page parser; no text is
    read as a date. *)
#[export] Instance lib : PyLib := {|
  date_tuple := unit;
  url_path := path_of;
  urljoin := join_url;
  parsedate_tz := fun _ => None;
  mktime_tz := fun _ => 0%Z;
  decode_html := decode_page
|}.

End Example.

(* ===================================================================== *)
(** * Example documents and worlds                                        *)
(* ===================================================================== *)

Definition quoted (s : string) : pystr := [34] ++ py s ++ [34].

(** The script of a page, after the template in the source of
    [parse_storage], with the given literals. *)
Definition template_script (a str start len head power tail : string) : pystr :=
  py "var a = " ++ py a ++ py ";" ++ [10]
  ++ py "document.getElementById('dlbutton').omg = " ++ quoted str
  ++ py ".substr(" ++ py start ++ py ", " ++ py len ++ py ");" ++ [10]
  ++ py "var b = document.getElementById('dlbutton').omg.length;" ++ [10]
  ++ py "document.getElementById('dlbutton').href = " ++ quoted head
  ++ py "+(Math.pow(a, " ++ py power ++ py ")+b)+" ++ quoted tail ++ py ";"
  ++ [10].

Definition script_element (text : pystr) : html :=
  [ StartTag (py "script") [(py "type", Some (py "text/javascript"))];
    Data ([10; 32; 32] ++ text);
    EndTag (py "script") ].

(** A page with the one script of the end-to-end scenario. *)
Definition page_one : html :=
  [StartTag (py "html") []; StartTag (py "body") []]
  ++ script_element
       (template_script "42" "asdasd" "0" "3" "/d/uN1qu3/" "3" "/file.ext")
  ++ [EndTag (py "body"); EndTag (py "html")].

(** A page with two scripts that both match. *)
Definition page_two : html :=
  [StartTag (py "html") []; StartTag (py "body") []]
  ++ script_element
       (template_script "42" "asdasd" "0" "3" "/d/uN1qu3/" "3" "/file.ext")
  ++ script_element
       (template_script "7" "xy" "1" "5" "/d/0ther/" "2" "/late.bin")
  ++ [EndTag (py "body"); EndTag (py "html")].

Definition jsdata_first : jsdata :=
  {| js_a := py "42"; js_str := quoted "asdasd"; js_substr_start := py "0";
     js_substr_length := py "3"; js_url_head := quoted "/d/uN1qu3/";
     js_power := py "3"; js_url_tail := quoted "/file.ext" |}.

Definition jsdata_second : jsdata :=
  {| js_a := py "7"; js_str := quoted "xy"; js_substr_start := py "1";
     js_substr_length := py "5"; js_url_head := quoted "/d/0ther/";
     js_power := py "2"; js_url_tail := quoted "/late.bin" |}.

(** The script in the comment of [parse_storage]: the link of the button,
    then the same assignment for an image. *)
Definition comment_script : pystr :=
  template_script "42" "asdasd" "0" "3" "/d/uN1qu3/" "3" "/file.ext"
  ++ py "if (document.getElementById('fimage')) {" ++ [10]
  ++ py "document.getElementById('fimage').href = " ++ quoted "/i/uN1qu3/"
  ++ py "+(Math.pow(a, 3)+b)+" ++ quoted "/file.ext" ++ py ";" ++ [10]
  ++ py "}" ++ [10].

(** A sink that takes every event. *)
Definition accept_all (e : progress_event) : result unit := Ok tt.

(** The page with the one script, as the bytes of its text. *)
Definition page_one_bytes : list N :=
  py "<html><body><script>" ++ [10]
  ++ template_script "42" "asdasd" "0" "3" "/d/uN1qu3/" "3" "/file.ext"
  ++ py "</script></body></html>".

Definition page_url : pystr := py "https://host.example/v/abc/file.html".
Definition file_url : pystr := py "https://host.example/d/uN1qu3/74091/file.ext".
Definition temp_path : pystr := py ".zsdl.py.file.ext".

Definition response_page : response :=
  {| res_code := 200; res_headers := []; res_body := [Bytes page_one_bytes] |}.

(** The server answers every request with [r], the clock counts. *)
Definition env_of (r : response) : env :=
  {| net := fun _ _ => Responded r; clock := fun n => Z.of_nat n |}.

(** The server answers the first request with the page and the next ones
    with [r]. *)
Definition env_page_then (r : response) : env :=
  {| net := fun n _ => match n with
                       | O => Responded response_page
                       | S _ => Responded r
                       end;
     clock := fun n => Z.of_nat n |}.

Definition world_of (files : gmap pystr file) : world :=
  {| fs := files; ticks := 0; requests := 0; trace := [] |}.

(** Nothing on disk. *)
Definition world_empty : world := world_of ∅.

(** Three bytes of an earlier run at the temporary path. *)
Definition world_partial : world :=
  world_of {[ temp_path := {| content := [80; 75; 3]; mtime := None |} ]}.

(** The final file is there already. *)
Definition world_done : world :=
  world_of {[ py "file.ext" := {| content := [80; 75; 3; 4]; mtime := None |} ]}.

Definition response_416 : response :=
  {| res_code := 416; res_headers := []; res_body := [] |}.

Definition response_404 : response :=
  {| res_code := 404; res_headers := []; res_body := [Bytes (py "Not Found")] |}.


(** A content-length of 1000 and a body of 998 bytes, in two reads. *)
Definition response_short : response :=
  {| res_code := 200;
     res_headers := [(py "Content-Length", py "1000")];
     res_body := [Bytes (repeat 0 500); Bytes (repeat 0 498)] |}.

(** Five bytes and no content-length. *)
Definition response_no_length : response :=
  {| res_code := 200; res_headers := []; res_body := [Bytes [1; 2; 3; 4; 5]] |}.

Definition options_plain : options :=
  {| opt_url := page_url; opt_file := None; opt_dir := None;
     opt_mtime := false |}.

Definition options_named : options :=
  {| opt_url := page_url; opt_file := Some (py "file.ext"); opt_dir := None;
     opt_mtime := false |}.

(* ===================================================================== *)
(** * Console output: [output], [log] and the progress line               *)
(* ===================================================================== *)

Module Console.

(** What the object keeps for its output: the texts written, in order
    (the flag is true for [sys.stderr]), and two attributes,
    [_output_progress_max], which [__init__] sets to zero, and
    [output_progress_max], which exists once [output_progress_start] has
    run. *)
Record t := {
  written : list (bool * pystr);
  _output_progress_max : nat;
  output_progress_max : option nat
}.

(** The object after [__init__]. *)
Definition init : t :=
  {| written := []; _output_progress_max := 0%nat; output_progress_max := None |}.

(** [out.write(text)] on one of the two streams. *)
Definition write (self : t) (err : bool) (text : pystr) : t :=
  {| written := written self ++ [(err, text)];
     _output_progress_max := _output_progress_max self;
     output_progress_max := output_progress_max self |}.

(** [os.linesep] *)
Definition linesep : pystr := [10].

(** [output(message, err, nl)] *)
Definition output (self : t) (message : pystr) (err nl : bool) : t :=
  let self := write self err message in
  if nl then write self err linesep else self.

(** [log(message, verbose, err, nl)]; [opt_verbose] is
    [options.verbose]. *)
Definition log (opt_verbose : bool) (self : t) (message : pystr)
    (verbose err nl : bool) : t :=
  if verbose && negb opt_verbose then self
  else output self message err nl.

(** [output_progress_start()]: the attribute it sets is not the one
    [output_progress] reads. *)
Definition output_progress_start (self : t) : t :=
  {| written := written self;
     _output_progress_max := _output_progress_max self;
     output_progress_max := Some 0%nat |}.

(** [message.ljust(width)] *)
Definition ljust (message : pystr) (width : nat) : pystr :=
  message ++ repeat 32 (width - length message)%nat.

(** [output_progress(message, err, nl)] *)
Definition output_progress (self : t) (message : pystr) (err nl : bool) : t :=
  let l := Nat.max (_output_progress_max self) (length message) in
  let self := {| written := written self;
                 _output_progress_max := l;
                 output_progress_max := output_progress_max self |} in
  let message_pad := ljust message l in
  output self ([13] ++ message_pad ++ [13]) err false.

End Console.

(* ===================================================================== *)
(** * Small helpers of [Main]                                             *)
(* ===================================================================== *)

(** [dict_has_props(dic, props)] *)
Fixpoint dict_has_props {V} (dic : gmap pystr V) (props : list pystr) : bool :=
  match props with
  | [] => true
  | p :: props' =>
      if negb (bool_decide (is_Some (dic !! p))) then false
      else dict_has_props dic props'
  end.

(** [divmod(a, b)] on integers: the quotient rounded down and the
    remainder with the sign of [b]. *)
Definition divmod (a b : Z) : Z * Z := ((a / b)%Z, (a mod b)%Z).

(** ['%02d' % z]: at least two characters, zeros after the sign. *)
Definition fmt_02d (z : Z) : pystr :=
  let s := Py.str_of_int z in
  if (length s <? 2)%nat then 48 :: s else s.

(** [seconds_human(seconds)] for an [int], which is what [math.floor] and
    [math.ceil] give. *)
Definition seconds_human (seconds : Z) : pystr :=
  let '(m, s) := divmod seconds 60 in
  let '(h, m) := divmod m 60 in
  Py.str_of_int h ++ py ":" ++ fmt_02d m ++ py ":" ++ fmt_02d s.

(* ===================================================================== *)
(** * Vocabulary of the further statements                                *)
(* ===================================================================== *)

(** Is there a backslash directly followed by the letter x? *)
Fixpoint has_backslash_x (s : pystr) : bool :=
  match s with
  | [] => false
  | c :: t =>
      match t with
      | d :: _ => (c =? 92) && (d =? 120)
      | [] => false
      end || has_backslash_x t
  end.

(** A character that stands for itself in a JSON string: no control
    character, not the quote, not the backslash. *)
Definition plain (c : N) : bool :=
  (32 <=? c) && negb (c =? 34) && negb (c =? 92).

(** The parts of a string literal of a page: a character that stands for
    itself, or a hex escape with its two digits. *)
Inductive piece :=
| Plain (c : N)
| Hex (a b : N).

Definition piece_text (p : piece) : pystr :=
  match p with
  | Plain c => [c]
  | Hex a b => [92; 120; a; b]
  end.

Definition hex_digit (c : N) : N :=
  match Py.hex_value c with Some d => d | None => 0 end.

Definition piece_value (p : piece) : N :=
  match p with
  | Plain c => c
  | Hex a b => 16 * hex_digit a + hex_digit b
  end.

(** The literal with these parts, in its quotes, and the string it
    denotes. *)
Definition literal (ps : list piece) : pystr :=
  [34] ++ List.concat (List.map piece_text ps) ++ [34].

Definition literal_value (ps : list piece) : pystr := List.map piece_value ps.

(** No hex escape directly after another, and every part well formed;
    [after_hex] tells whether the part before was a hex escape. *)
Fixpoint separated (after_hex : bool) (ps : list piece) : bool :=
  match ps with
  | [] => true
  | Plain c :: rest => plain c && separated false rest
  | Hex a b :: rest =>
      negb after_hex && Py.is_hex a && Py.is_hex b && separated true rest
  end.

(** The bytes the reads of a body give before its end (an empty read or
    the end of the list) or its first fault. *)
Fixpoint body_bytes (body : list chunk) : list N :=
  match body with
  | [] => []
  | Fault :: _ => []
  | Bytes [] :: _ => []
  | Bytes d :: rest => d ++ body_bytes rest
  end.


(** A call of one of the two progress-line methods. *)
Inductive progress_call :=
| CallStart
| CallLine (message : pystr) (err nl : bool).

Definition do_call (self : Console.t) (c : progress_call) : Console.t :=
  match c with
  | CallStart => Console.output_progress_start self
  | CallLine message err nl => Console.output_progress self message err nl
  end.

(** The last progress event among effects. *)
Definition last_progress (es : list effect) : option progress_event :=
  List.last (List.map Some (progress_events es)) None.

(** The JSON spelling [js_decode] gives a part before it calls
    [json.loads]. *)
Definition piece_json (p : piece) : pystr :=
  match p with
  | Plain c => [c]
  | Hex a b => Json.escape_char (piece_value p)
  end.



(** The bytes of the file at [path], none when there is no file. *)
Definition bytes_on_disk (w : world) (path : pystr) : list N :=
  match fs w !! path with
  | Some f => content f
  | None => []
  end.

(** A last-modified header that the example library does not read as a
    date (it reads none), on a body of five bytes. *)
Definition response_bad_date : response :=
  {| res_code := 200;
     res_headers := [(py "Content-Length", py "5");
                     (py "Last-Modified", py "yesterday")];
     res_body := [Bytes [1; 2; 3; 4; 5]] |}.

(** The answer to a resumed request: the two bytes that were missing. *)
Definition response_rest : response :=
  {| res_code := 206;
     res_headers := [(py "Content-Length", py "2")];
     res_body := [Bytes [4; 5]] |}.

(** Five bytes in two reads, with their content-length. *)
Definition response_full : response :=
  {| res_code := 200;
     res_headers := [(py "Content-Length", py "5")];
     res_body := [Bytes [1; 2; 3]; Bytes [4; 5]] |}.


(** The lengths of the messages of the line calls, in order. *)
Definition call_lengths (calls : list progress_call) : list nat :=
  flat_map (fun c => match c with
                     | CallLine message _ _ => [length message]
                     | CallStart => []
                     end) calls.

(* ===================================================================== *)
(** * Floating point: the figures of the progress line                    *)
(* ===================================================================== *)

Module Float.

(** A [float]: an IEEE 754 double, given by sign, mantissa and exponent. *)
Definition t := SpecFloat.spec_float.

Definition prec : Z := 53.
Definition emax : Z := 1024.

(** [float(z)] for an [int]: the nearest double, ties to even.  Past the
    largest double Python raises [OverflowError], which is not among the
    exceptions of the model. *)
Definition of_int (z : Z) : result t :=
  match SpecFloat.binary_normalize prec emax z 0 false with
  | SpecFloat.S754_infinity _ => Err OutsideModel
  | x => Ok x
  end.

Definition is_zero (x : t) : bool :=
  match x with
  | SpecFloat.S754_zero _ => true
  | _ => false
  end.

(** [x / y]; a zero divisor is [ZeroDivisionError], which is not among
    the exceptions of the model. *)
Definition div (x y : t) : result t :=
  if is_zero y then Err OutsideModel
  else Ok (SpecFloat.SFdiv prec emax x y).

(** [x * y] *)
Definition mul (x y : t) : t := SpecFloat.SFmul prec emax x y.

(** [x > y] *)
Definition gt (x y : t) : bool :=
  match SpecFloat.SFcompare x y with
  | Some Gt => true
  | _ => false
  end.

(** The integer nearest to [m * 2 ^ e], ties to even, for [m >= 0]. *)
Definition round_half_even (m e : Z) : Z :=
  match e with
  | Z.neg p =>
      let d := Z.pow_pos 2 p in
      let q := (m / d)%Z in
      let r := (m mod d)%Z in
      match (2 * r ?= d)%Z with
      | Lt => q
      | Gt => (q + 1)%Z
      | Eq => if Z.even q then q else (q + 1)%Z
      end
  | _ => (m * 2 ^ e)%Z
  end.

(** Two decimal digits. *)
Definition two_digits (z : Z) : pystr :=
  [48 + Z.to_N (z / 10); 48 + Z.to_N (z mod 10)].

(** ['%.2f' % x]: the decimal with two digits after the point that is
    nearest to the exact value of [x], ties to even. *)
Definition format_2f (x : t) : pystr :=
  match x with
  | SpecFloat.S754_nan => py "nan"
  | SpecFloat.S754_infinity s => (if s then py "-" else []) ++ py "inf"
  | SpecFloat.S754_zero s => (if s then py "-" else []) ++ py "0.00"
  | SpecFloat.S754_finite s m e =>
      let n := round_half_even (Z.pos m * 100) e in
      (if s then py "-" else [])
      ++ Py.str_of_int (n / 100) ++ py "." ++ two_digits (n mod 100)
  end.

End Float.

(** The [while] loop of [bytes_human]: [name] is [names[i]] and [rest]
    the names after it, so that [i < il] while [rest] is not empty. *)
Fixpoint bytes_human_loop (based : Float.t) (base : Float.t) (name : N)
    (rest : list N) : result (Float.t * N) :=
  match rest with
  | [] => Ok (based, name)
  | next :: rest' =>
      if Float.gt based base then
        try! based := Float.div based base in
        bytes_human_loop based base next rest'
      else Ok (based, name)
  end.

(** [bytes_human(size)] for an [int]. *)
Definition bytes_human (size : Z) : result pystr :=
  try! based := Float.of_int size in
  try! base := Float.of_int 1024 in
  try! r := bytes_human_loop based base 66 (py "KMGT") in
  Ok (Float.format_2f (fst r) ++ [snd r]).

(** [percent_human(part, total)] for two [int]s. *)
Definition percent_human (part total : Z) : result pystr :=
  if (total =? 0)%Z then
    (* f = 0, an int, and so is f * 100 *)
    try! x := Float.of_int (0 * 100) in
    Ok (Float.format_2f x ++ py "%")
  else
    try! p := Float.of_int part in
    try! t := Float.of_int total in
    try! f := Float.div p t in
    try! hundred := Float.of_int 100 in
    Ok (Float.format_2f (Float.mul f hundred) ++ py "%").

(* ===================================================================== *)
(** * The link derivation: results                                        *)
(* ===================================================================== *)

Lemma last_cons_default {A} (x d : A) (l : list A) :
  List.last (x :: l) d = List.last l x.
Proof.
  revert x d. induction l as [|y l IH]; intros x d; [reflexivity|].
  change (List.last (x :: y :: l) d) with (List.last (y :: l) d).
  now rewrite !IH.
Qed.

(** The parser ends with the last match it met: every match overwrites
    the one before. *)
Lemma feed_result (doc : html) (self : TheHTMLParser.t) :
  TheHTMLParser.result (TheHTMLParser.feed self doc)
  = List.last
      (List.map Some (script_matches_from (TheHTMLParser.script self) doc))
      (TheHTMLParser.jsdata_ self).
Proof.
  revert self. induction doc as [|e doc IH]; intros self; [reflexivity|].
  unfold TheHTMLParser.feed in *. cbn [fold_left].
  rewrite IH. destruct e as [tag attrs|tag|data|data|data|data]; cbn; try reflexivity.
  unfold TheHTMLParser.handle_data.
  destruct (TheHTMLParser.script self) eqn:Hs; cbn; [|now rewrite Hs].
  destruct (TheHTMLParser.jsreg_match (Py.strip data)) as [d|]; cbn.
  - symmetry. exact (last_cons_default (Some d) _ _).
  - now rewrite Hs.
Qed.

Lemma feed_result_last (doc : html) (ds : list jsdata) (d : jsdata) :
  script_matches doc = ds ++ [d] ->
  TheHTMLParser.result (TheHTMLParser.feed TheHTMLParser.init doc) = Some d.
Proof.
  intros H. rewrite feed_result. cbn [TheHTMLParser.script TheHTMLParser.init].
  unfold script_matches in H. rewrite H, map_app. cbn.
  now rewrite last_last.
Qed.


(** ** The matcher finds only texts of the pattern *)

Definition extends (P : nat -> pystr -> Prop) (c c' : Re.captures) : Prop :=
  exists new, c' = new ++ c /\ Forall (fun e => P (fst e) (snd e)) new.

Lemma extends_refl P c : extends P c c.
Proof. exists []. split; [reflexivity|constructor]. Qed.

Lemma extends_trans P c1 c2 c3 :
  extends P c1 c2 -> extends P c2 c3 -> extends P c1 c3.
Proof.
  intros [n1 [-> H1]] [n2 [-> H2]]. exists (n2 ++ n1).
  split; [now rewrite app_assoc|]. apply Forall_app. now split.
Qed.

(** A successful run consumed a text of the pattern, ran its continuation
    on the rest, and added only captures of the shape the groups allow. *)
Lemma run_sound (P : nat -> pystr -> Prop) (r : Re.regex) :
  groups_ok P r ->
  forall i s c k res,
    Re.run r i s c k = Some res ->
    exists t s' c',
      s = t ++ s' /\ lang r t /\ extends P c c'
      /\ k (i + length t)%nat s' c' = Some res.
Proof.
  induction r as [| |p|r1 IH1 r2 IH2|r1 IH1 r2 IH2|r1 IH1|n r1 IH1];
    intros Hg i s c k res H; cbn [Re.run] in H.
  - exists [], s, c. rewrite Nat.add_0_r.
    repeat split; [constructor|apply extends_refl|exact H].
  - destruct (Nat.eqb i 0); [|discriminate].
    exists [], s, c. rewrite Nat.add_0_r.
    repeat split; [constructor|apply extends_refl|exact H].
  - destruct s as [|x s']; [discriminate|].
    destruct (p x) eqn:Hp; [|discriminate].
    exists [x], s', c. cbn [length]. rewrite Nat.add_1_r.
    repeat split; [now constructor|apply extends_refl|exact H].
  - destruct Hg as [Hg1 Hg2].
    apply (IH1 Hg1) in H as (t1 & s1 & c1 & -> & L1 & E1 & H).
    apply (IH2 Hg2) in H as (t2 & s2 & c2 & -> & L2 & E2 & H).
    exists (t1 ++ t2), s2, c2. rewrite length_app, Nat.add_assoc, <- app_assoc.
    repeat split; [now constructor|eapply extends_trans; eassumption|exact H].
  - destruct Hg as [Hg1 Hg2].
    destruct (Re.run r1 i s c k) eqn:H1.
    + apply (IH1 Hg1) in H1 as (t & s' & c' & -> & L1 & E1 & H1).
      exists t, s', c'. repeat split; [now apply lang_alt_l|exact E1|congruence].
    + apply (IH2 Hg2) in H as (t & s' & c' & -> & L1 & E1 & H).
      exists t, s', c'. repeat split; [now apply lang_alt_r|exact E1|exact H].
  - cbn [groups_ok] in Hg. revert H. generalize (S (length s)) as fuel.
    intros fuel. revert i s c. induction fuel as [|fuel IHf]; intros i s c H;
      cbn [Re.star_loop] in H.
    + exists [], s, c. rewrite Nat.add_0_r.
      repeat split; [constructor|apply extends_refl|exact H].
    + destruct (Re.run r1 i s c _) eqn:H1 in H.
      * injection H as ->.
        apply (IH1 Hg) in H1 as (t1 & s1 & c1 & -> & L1 & E1 & H1).
        destruct (Nat.ltb i (i + length t1)); [|discriminate].
        apply IHf in H1 as (t2 & s2 & c2 & -> & L2 & E2 & H1).
        exists (t1 ++ t2), s2, c2.
        rewrite length_app, Nat.add_assoc, <- app_assoc.
        repeat split;
          [now constructor|eapply extends_trans; eassumption|exact H1].
      * exists [], s, c. rewrite Nat.add_0_r.
        repeat split; [constructor|apply extends_refl|exact H].
  - destruct Hg as [Hn Hg1].
    apply (IH1 Hg1) in H as (t & s' & c' & -> & L1 & E1 & H).
    exists t, s', ((n, t) :: c').
    replace (i + length t - i)%nat with (length t) in H by lia.
    rewrite firstn_app, Nat.sub_diag, firstn_all, firstn_O, app_nil_r in H.
    repeat split; [now constructor| |exact H].
    destruct E1 as [new [-> HF]]. exists ((n, t) :: new).
    split; [reflexivity|]. constructor; [|exact HF]. apply Hn, L1.
Qed.

Lemma lang_seq_inv r1 r2 t :
  lang (Re.Seq r1 r2) t ->
  exists t1 t2, t = t1 ++ t2 /\ lang r1 t1 /\ lang r2 t2.
Proof. intros H. inversion H; subst. eauto. Qed.

Lemma lang_cls_inv p t :
  lang (Re.Cls p) t -> exists x, t = [x] /\ p x = true.
Proof. intros H. inversion H; subst. eauto. Qed.

Lemma lang_eps_inv t : lang Re.Eps t -> t = [].
Proof. intros H. now inversion H. Qed.







(** ** The iterations of a star are never cut short *)

(** The matcher calls its continuation on suffixes of the text only. *)
Lemma run_cont (r : Re.regex) :
  forall i s c (k1 k2 : Re.kont),
    (forall n c', (n <= length s)%nat ->
                  k1 (i + n)%nat (skipn n s) c' = k2 (i + n)%nat (skipn n s) c') ->
    Re.run r i s c k1 = Re.run r i s c k2.
Proof.
  induction r as [| |p|r1 IH1 r2 IH2|r1 IH1 r2 IH2|r1 IH1|g r1 IH1];
    intros i s c k1 k2 Hk; cbn [Re.run].
  - specialize (Hk 0%nat c (Nat.le_0_l _)). now rewrite Nat.add_0_r in Hk.
  - destruct (Nat.eqb i 0); [|reflexivity].
    specialize (Hk 0%nat c (Nat.le_0_l _)). now rewrite Nat.add_0_r in Hk.
  - destruct s as [|x s]; [reflexivity|]. destruct (p x); [|reflexivity].
    specialize (Hk 1%nat c). rewrite Nat.add_1_r in Hk. apply Hk. cbn. lia.
  - apply IH1. intros n c' Hn. apply IH2. intros m c'' Hm.
    rewrite length_skipn in Hm. rewrite skipn_skipn, <- Nat.add_assoc.
    rewrite (Nat.add_comm m n). apply Hk. lia.
  - rewrite (IH1 i s c k1 k2 Hk), (IH2 i s c k1 k2 Hk). reflexivity.
  - generalize (S (length s)) as fuel. intros fuel. revert i s c Hk.
    induction fuel as [|fuel IHf]; intros i s c Hk; cbn [Re.star_loop].
    + specialize (Hk 0%nat c (Nat.le_0_l _)). now rewrite Nat.add_0_r in Hk.
    + assert (H0 : k1 i s c = k2 i s c).
      { specialize (Hk 0%nat c (Nat.le_0_l _)). now rewrite Nat.add_0_r in Hk. }
      rewrite H0.
      erewrite IH1; [reflexivity|]. intros n c' Hn. cbv beta.
      destruct (Nat.ltb i (i + n)); [|reflexivity].
      apply IHf. intros m c'' Hm.
      rewrite length_skipn in Hm. rewrite skipn_skipn, <- Nat.add_assoc.
      rewrite (Nat.add_comm m n). apply Hk. lia.
  - apply IH1. intros n c' Hn. apply Hk. exact Hn.
Qed.

(** More fuel than the text has characters changes nothing. *)
Lemma star_loop_fuel (r : Re.regex) (k : Re.kont) :
  forall n m i s c,
    (length s < n)%nat -> (length s < m)%nat ->
    Re.star_loop (Re.run r) k n i s c = Re.star_loop (Re.run r) k m i s c.
Proof.
  induction n as [|n IH]; intros m i s c Hn Hm; [lia|].
  destruct m as [|m]; [lia|]. cbn [Re.star_loop].
  erewrite run_cont; [reflexivity|]. intros j c' Hj. cbv beta.
  destruct (Nat.ltb_spec i (i + j)); [|reflexivity].
  apply IH; rewrite length_skipn; lia.
Qed.

(** The fuel [Re.run] gives a star is enough. *)
Lemma run_star_fuel (r : Re.regex) (k : Re.kont) (n i : nat) (s : pystr)
    (c : Re.captures) :
  (length s < n)%nat ->
  Re.run (Re.Star r) i s c k = Re.star_loop (Re.run r) k n i s c.
Proof.
  intros Hn. cbn [Re.run]. apply star_loop_fuel; lia.
Qed.

(** ** Reading the groups of a match *)

Lemma groups_ok_trivial (r : Re.regex) : groups_ok (fun _ _ => True) r.
Proof. induction r; cbn; auto. Qed.

Lemma lang_hex_escape_backslash t : lang hex_escape t -> In 92 t.
Proof.
  unfold hex_escape, Re.cat, Re.chr. cbn [fold_right]. intros H.
  apply lang_seq_inv in H as (t1 & t2 & -> & _ & H).
  apply lang_seq_inv in H as (t3 & t4 & -> & _ & H).
  apply lang_seq_inv in H as (t5 & t6 & -> & H5 & _).
  apply lang_cls_inv in H5 as (x & -> & Hx). apply N.eqb_eq in Hx. subst x.
  apply in_or_app. right. apply in_or_app. right. now left.
Qed.

Lemma match_at_hex_escape_backslash i s m :
  Re.match_at hex_escape i s = Some m -> In 92 s.
Proof.
  unfold Re.match_at. intros H.
  destruct (Re.run _ _ _ _ _) as [[i' c]|] eqn:Hr; [|discriminate].
  apply (run_sound _ _ (groups_ok_trivial _)) in Hr
    as (t & s' & c' & -> & Hl & _ & _).
  apply in_or_app. left. now apply lang_hex_escape_backslash.
Qed.

(** A text without a backslash has no hex escape: [re.sub] gives it
    back. *)
Lemma sub_hex_escape_id (s : pystr) (i : nat) :
  ~ In 92 s -> Re.sub_go hex_escape js_decode_repl 0 i s = Ok s.
Proof.
  revert i. induction s as [|x s IH]; intros i Hn; cbn [Re.sub_go].
  - destruct (Re.match_at hex_escape i []) eqn:Hm; [|reflexivity].
    now apply match_at_hex_escape_backslash in Hm.
  - destruct (Re.match_at hex_escape i (x :: s)) eqn:Hm.
    + now apply match_at_hex_escape_backslash in Hm.
    + rewrite IH; [reflexivity|]. intros Hin. apply Hn. now right.
Qed.







(** C2, on the code.  The literal with the adjacent escapes [\x41\x42] is
    not decoded like the literal with [AB] in their place: the match of the
    first escape takes the character before it, the second escape has then
    no character before it to match, stays in the text, and [json.loads]
    raises on it. *)
Theorem js_decode_adjacent_escapes :
  Re.sub hex_escape js_decode_repl (quoted "\x41\x42") = Ok (quoted "A\x42")
  /\ js_decode (quoted "\x41\x42") = Err JSONDecodeError
  /\ js_decode (quoted "AB") = Ok (JStr (py "AB")).
Proof. repeat split; vm_compute; reflexivity. Qed.

(** Escapes with a character between them are all decoded. *)
Example js_decode_separate_escapes :
  js_decode (quoted "a\x41b\x42") = Ok (JStr (py "aAbB")).
Proof. vm_compute. reflexivity. Qed.

(** The template is matched greedily: of the two href assignments in the
    script of the source's comment, the groups are those of the last. *)
Example jsreg_match_comment_script :
  option_map js_url_head (TheHTMLParser.jsreg_match (Py.strip comment_script))
  = Some (quoted "/i/uN1qu3/").
Proof. vm_compute. reflexivity. Qed.

(** C3 as stated fails: with two matching scripts the result is not the
    one computed from the first match. *)
Lemma parse_storage_first_match_refuted :
  ~ (forall (doc : html) (d : jsdata) (ds : list jsdata),
       script_matches doc = d :: ds ->
       @parse_storage Example.lib doc = @parse_storage_jsdata Example.lib d).
Proof.
  intros H.
  specialize (H page_two jsdata_first [jsdata_second] eq_refl).
  vm_compute in H. discriminate H.
Qed.

(** C3, amended.  The parser goes through the whole document and every
    match replaces the one before: the link is computed from the last
    script text that matches. *)
Theorem parse_storage_last_match `{L : PyLib} (doc : html)
    (ds : list jsdata) (d : jsdata) :
  script_matches doc = ds ++ [d] ->
  parse_storage doc = parse_storage_jsdata d.
Proof.
  intros H. unfold parse_storage. cbv zeta.
  now rewrite (feed_result_last doc ds d H).
Qed.

Lemma parse_storage_last_match_example :
  script_matches page_two = [jsdata_first] ++ [jsdata_second]
  /\ @parse_storage Example.lib page_two
     = Ok {| href := py "/d/0ther/50/late.bin"; name := py "late.bin" |}.
Proof.
  split; [vm_compute; reflexivity|].
  rewrite (@parse_storage_last_match Example.lib page_two
             [jsdata_first] jsdata_second eq_refl).
  vm_compute. reflexivity.
Defined.

(** ** The transfer: [request_download] *)

Section Transfer.

Context {L : PyLib}.

Lemma fs_open_tell (dest : pystr) (cont : bool) (E : env) (w : world) :
  exists w1,
    fs_open dest cont E w = (Ok tt, w1)
    /\ trace w1 = trace w /\ ticks w1 = ticks w /\ requests w1 = requests w
    /\ (forall p, p <> dest -> fs w1 !! p = fs w !! p)
    /\ (if cont then fs_tell dest else ret 0%Z) E w1
       = (Ok (if cont then size_on_disk w dest else 0%Z), w1).
Proof.
  unfold fs_open, fs_tell, size_on_disk, set_fs, ret.
  eexists. split; [reflexivity|].
  cbn. repeat split; try reflexivity.
  - intros p Hp. destruct (fs w !! dest) as [f|]; [destruct cont|];
      rewrite ?lookup_insert_ne by congruence; reflexivity.
  - destruct cont; [|reflexivity].
    destruct (fs w !! dest) as [f|] eqn:Hf; cbn;
      rewrite ?Hf, ?lookup_insert_eq; reflexivity.
Qed.

Lemma non_decreasing_cons (x y : Z) (l : list Z) :
  (x <= y)%Z -> non_decreasing (y :: l) -> non_decreasing (x :: y :: l).
Proof. intros Hxy H. split; assumption. Qed.

Lemma non_decreasing_single (x : Z) : non_decreasing [x].
Proof. exact I. Qed.

(** The loop emits Read and Wrote events only, in pairs when it ends
    well, with the offset and total it was given and a running size that
    never goes down; it makes no request and writes to [dest] only. *)
Lemma request_download_loop_spec (dest : pystr)
    (progress : progress_event -> result unit) (start offset : Z)
    (total : option Z) (E : env) (body : list chunk) :
  forall (size : Z) (w : world) (res : result Z) (w' : world),
    request_download_loop dest progress start offset total size body E w
    = (res, w') ->
    exists evs,
      trace w' = trace w ++ List.map Progress evs
      /\ requests w' = requests w
      /\ (forall p, p <> dest -> fs w' !! p = fs w !! p)
      /\ Forall (fun e => ev_offset e = offset /\ ev_total e = total
                          /\ is_read_or_wrote e = true) evs
      /\ non_decreasing (size :: List.map ev_current evs)
      /\ (forall size', res = Ok size' -> paired evs).
Proof.
  induction body as [|c body IH]; intros size w res w' H;
    cbn [request_download_loop] in H.
  - injection H as <- <-. exists []. rewrite app_nil_r.
    repeat split; try constructor.
  - destruct c as [data|].
    2:{ injection H as <- <-. exists []. rewrite app_nil_r.
        repeat split; try constructor. }
    destruct (Z.of_nat (length data) =? 0)%Z eqn:Hz.
    { injection H as <- <-. exists []. rewrite app_nil_r.
      repeat split; try constructor. }
    unfold bind, time_time, call_progress in H. cbn in H.
    set (rd := mk_event DL_PROGRESS_READ start (clock E (ticks w)) offset
                 (Z.of_nat (length data)) (size + Z.of_nat (length data))
                 total) in *.
    destruct (progress rd) eqn:Hrd.
    2:{ injection H as <- <-. exists [rd]. cbn.
        repeat split; try discriminate; try lia.
        repeat constructor. }
    unfold fs_write in H. cbn in H.
    destruct (fs w !! dest) as [f|] eqn:Hf.
    2:{ injection H as <- <-. exists [rd]. cbn.
        repeat split; try discriminate; try lia.
        repeat constructor. }
    cbn in H.
    set (wr := mk_event DL_PROGRESS_WROTE start (clock E (S (ticks w))) offset
                 (Z.of_nat (length data)) (size + Z.of_nat (length data))
                 total) in *.
    destruct (progress wr) eqn:Hwr.
    2:{ injection H as <- <-. exists [rd; wr]. cbn.
        rewrite <- app_assoc.
        repeat split; try discriminate; try lia.
        - intros p Hp. now rewrite lookup_insert_ne by congruence.
        - repeat constructor. }
    apply IH in H as (evs & Ht & Hr & Hfs & Hall & Hnd & Hp).
    cbn in Ht, Hr, Hfs. exists (rd :: wr :: evs).
    split; [|split; [|split; [|split; [|split]]]].
    + rewrite Ht, <- !app_assoc. reflexivity.
    + exact Hr.
    + intros p Hp'. rewrite Hfs by assumption.
      now rewrite lookup_insert_ne by congruence.
    + repeat constructor. exact Hall.
    + cbn [List.map ev_current rd wr mk_event].
      apply non_decreasing_cons; [lia|].
      apply non_decreasing_cons; [lia|]. exact Hnd.
    + intros size' Hres. constructor; try reflexivity. eapply Hp, Hres.
Qed.


Lemma filter_read_or_wrote_all (evs : list progress_event) :
  Forall (fun e => is_read_or_wrote e = true) evs ->
  List.filter is_read_or_wrote evs = evs.
Proof.
  induction 1 as [|e evs He _ IH]; [reflexivity|].
  cbn. now rewrite He, IH.
Qed.

(** What one call of [request_download] does, case by case. *)
Lemma request_download_spec (E : env) (url dest : pystr)
    (progress : progress_event -> result unit) (cont : bool)
    (w : world) (res : result (option dlinfo)) (w' : world) :
  request_download url dest progress cont E w = (res, w') ->
  let offset := if cont then size_on_disk w dest else 0%Z in
  let continued := cont && negb (offset =? 0)%Z in
  let status := if continued then 206%Z else 200%Z in
  let start := clock E (ticks w) in
  let start_ev :=
    mk_event DL_PROGRESS_START start start offset 0 offset None in
  let rq :=
    {| req_url := url;
       req_headers :=
         [(py "User-Agent", [])]
         ++ (if continued
             then [(py "Range",
                    py "bytes=" ++ Py.str_of_int offset ++ py "-")]
             else []) |} in
  (forall p, p <> dest -> fs w' !! p = fs w !! p)
  /\ match progress start_ev with
     | Err e => res = Err e /\ trace w' = trace w ++ [Progress start_ev]
     | Ok _ =>
         exists evs,
           trace w' = trace w ++ [Progress start_ev; Requested rq]
                              ++ List.map Progress evs
           /\ Forall (fun e => ev_offset e = offset) evs
           /\ non_decreasing
                (offset :: List.map ev_current
                                    (List.filter is_read_or_wrote evs))
           /\ match net E (requests w) rq with
              | Refused => res = Err NetworkError /\ evs = []
              | Responded r =>
                  if continued && (res_code r =? 416)%Z then
                    (exists now,
                        evs = [mk_event DL_PROGRESS_DONE start now offset 0
                                        offset (Some offset)])
                    /\ (forall v, res = Ok v -> v = None)
                  else if (res_code r =? status)%Z then
                    let total :=
                      option_map (fun cl => (offset + cl)%Z)
                        (request_header_get_cast (res_headers r)
                           (py "content-length") py_int) in
                    Forall (fun e => ev_total e = total) evs
                    /\ (forall v, res = Ok v ->
                          exists mid done m,
                            evs = mid ++ [done] /\ paired mid
                            /\ ev_status done = DL_PROGRESS_DONE
                            /\ ev_added done = 0%Z
                            /\ v = Some {| dl_size := total;
                                           dl_modified := m |})
                  else res = Err (InvalidStatusCode (res_code r) status)
                       /\ evs = []
              end
     end.
Proof.
  intros H. cbv zeta.
  destruct (fs_open_tell dest cont E w)
    as (w1 & Ho & Ht & Hk & Hr & Hfr & Htell).
  unfold request_download, bind in H. rewrite Ho, Htell in H.
  set (offset := if cont then size_on_disk w dest else 0%Z) in *.
  set (continued := cont && negb (offset =? 0)%Z) in *.
  unfold time_time, call_progress in H. cbn in H. rewrite Hk, Ht in H.
  set (start_ev := mk_event DL_PROGRESS_START (clock E (ticks w))
                     (clock E (ticks w)) offset 0 offset None) in *.
  destruct (progress start_ev) as [[]|e] eqn:Hs.
  2:{ injection H as <- <-. cbn. auto. }
  unfold request in H. cbn in H. rewrite Hr in H.
  set (rq := {| req_url := url; req_headers := _ |}) in *.
  destruct (net E (requests w) rq) as [r|] eqn:Hn.
  2:{ injection H as <- <-. cbn. split; [exact Hfr|]. exists [].
      rewrite <- app_assoc. cbn. repeat split; try constructor; try lia. }
  destruct (continued && (res_code r =? 416)%Z) eqn:H416.
  { cbn in H.
    set (done := mk_event DL_PROGRESS_DONE _ _ offset 0 offset (Some offset)) in *.
    split.
    - destruct (progress done); injection H as <- <-; exact Hfr.
    - exists [done]. split; [|split; [|split; [|split]]].
      + destruct (progress done); injection H as <- <-; cbn;
          now rewrite <- !app_assoc.
      + repeat constructor.
      + cbn. lia.
      + eexists. reflexivity.
      + intros v Hv. destruct (progress done); injection H as <- <-;
          congruence. }
  unfold lift, assert_status_code in H.
  destruct (res_code r =? (if continued then 206 else 200))%Z eqn:Hst.
  2:{ injection H as <- <-. cbn. split; [exact Hfr|]. exists [].
      rewrite <- app_assoc. cbn. repeat split; try constructor; try lia. }
  set (total := option_map (fun cl => (offset + cl)%Z) _) in *.
  destruct (match request_header_get (res_headers r) (py "last-modified") with
            | Some [] => Ok None
            | Some (c :: v) =>
                try! t := parse_http_header_date (c :: v) in Ok (Some t)
            | None => Ok None
            end) as [modified|e] eqn:Hm.
  2:{ injection H as <- <-. cbn. split; [exact Hfr|]. exists [].
      rewrite <- app_assoc. cbn. repeat split; try constructor; try lia.
      discriminate. }
  destruct (request_download_loop dest progress (clock E (ticks w)) offset
              total offset (res_body r) E _) as [rl wl] eqn:Hloop in H.
  apply request_download_loop_spec in Hloop
    as (evs & Hlt & Hlr & Hlf & Hall & Hnd & Hp).
  cbn in Hlt, Hlr, Hlf.
  assert (Hrw : Forall (fun e => is_read_or_wrote e = true) evs)
    by (eapply List.Forall_impl; [|exact Hall]; now intros e' [_ [_ ?]]).
  destruct rl as [size|e].
  2:{ injection H as <- <-. split.
      - intros p Hp'. rewrite Hlf by assumption. now apply Hfr.
      - exists evs. split; [|split; [|split; [|split]]].
        + rewrite Hlt, <- !app_assoc. reflexivity.
        + eapply List.Forall_impl; [|exact Hall]. now intros e' [? _].
        + now rewrite (filter_read_or_wrote_all evs Hrw).
        + eapply List.Forall_impl; [|exact Hall]. now intros e' [_ [? _]].
        + discriminate. }
  cbn in H.
  set (done := mk_event DL_PROGRESS_DONE _ _ offset 0 size total) in *.
  assert (Hfilter : List.filter is_read_or_wrote (evs ++ [done]) = evs).
  { rewrite List.filter_app, (filter_read_or_wrote_all evs Hrw).
    cbn. now rewrite app_nil_r. }
  split.
  - intros p Hp'. destruct (progress done); injection H as <- <-; cbn;
      rewrite Hlf by assumption; now apply Hfr.
  - exists (evs ++ [done]). split; [|split; [|split; [|split]]].
    + destruct (progress done); injection H as <- <-; cbn;
        rewrite Hlt, map_app, <- !app_assoc; reflexivity.
    + apply Forall_app. split; [|repeat constructor].
      eapply List.Forall_impl; [|exact Hall]. now intros e' [? _].
    + now rewrite Hfilter.
    + apply Forall_app. split; [|repeat constructor].
      eapply List.Forall_impl; [|exact Hall]. now intros e' [_ [? _]].
    + intros v Hv. exists evs, done, modified.
      destruct (progress done); injection H as <- <-; [|discriminate].
      injection Hv as <-. repeat split. now apply (Hp size).
Qed.

End Transfer.

Lemma progress_events_app (a b : list effect) :
  progress_events (a ++ b) = progress_events a ++ progress_events b.
Proof.
  induction a as [|[e|r] a IH]; cbn; [reflexivity| |]; now rewrite IH.
Qed.

Lemma progress_events_map (evs : list progress_event) :
  progress_events (List.map Progress evs) = evs.
Proof. induction evs as [|e evs IH]; cbn; [reflexivity|now rewrite IH]. Qed.

Lemma requests_made_app (a b : list effect) :
  requests_made (a ++ b) = requests_made a ++ requests_made b.
Proof.
  induction a as [|[e|r] a IH]; cbn; [reflexivity| |]; now rewrite IH.
Qed.

Lemma requests_made_map (evs : list progress_event) :
  requests_made (List.map Progress evs) = [].
Proof. induction evs as [|e evs IH]; cbn; [reflexivity|exact IH]. Qed.

Section TransferClaims.

Context {L : PyLib}.

(** C5.  A call without resume sends one request without a Range header,
    expects status 200 and has offset 0 in every event; a call with
    resume on a destination of [N > 0] bytes sends [Range: bytes=N-] and
    expects status 206; a status that is not the expected one (nor 416
    on the resumed call) is the error [Invalid status code]. *)
Theorem request_download_request_and_status (E : env) (url dest : pystr)
    (progress : progress_event -> result unit) (w : world) :
  (forall e, ev_status e = DL_PROGRESS_START -> progress e = Ok tt) ->
  (exists es,
      trace (snd (request_download url dest progress false E w))
      = trace w ++ es
      /\ requests_made es
         = [{| req_url := url; req_headers := [(py "User-Agent", [])] |}]
      /\ header_lookup [(py "User-Agent", [])] (py "Range") = None
      /\ Forall (fun e => ev_offset e = 0%Z) (progress_events es)
      /\ (forall r,
             net E (requests w)
                 {| req_url := url;
                    req_headers := [(py "User-Agent", [])] |}
             = Responded r ->
             res_code r <> 200%Z ->
             fst (request_download url dest progress false E w)
             = Err (InvalidStatusCode (res_code r) 200)))
  /\ (forall f,
         fs w !! dest = Some f -> content f <> [] ->
         let n := Z.of_nat (length (content f)) in
         let range := py "bytes=" ++ Py.str_of_int n ++ py "-" in
         let headers := [(py "User-Agent", []); (py "Range", range)] in
         exists es,
           trace (snd (request_download url dest progress true E w))
           = trace w ++ es
           /\ requests_made es
              = [{| req_url := url; req_headers := headers |}]
           /\ header_lookup headers (py "Range") = Some range
           /\ Forall (fun e => ev_offset e = n) (progress_events es)
           /\ (forall r,
                  net E (requests w)
                      {| req_url := url; req_headers := headers |}
                  = Responded r ->
                  res_code r <> 206%Z -> res_code r <> 416%Z ->
                  fst (request_download url dest progress true E w)
                  = Err (InvalidStatusCode (res_code r) 206))).
Proof.
  intros Hstart. split.
  - destruct (request_download url dest progress false E w) as [res w'] eqn:H.
    apply request_download_spec in H as [_ H]. cbv zeta in H.
    rewrite Hstart in H by reflexivity. cbn [andb] in H.
    destruct H as (evs & Ht & Hoff & _ & Hnet).
    eexists. split; [exact Ht|].
    split; [|split; [|split]].
    + cbn. now rewrite requests_made_map.
    + reflexivity.
    + cbn. rewrite progress_events_map. constructor; [reflexivity|exact Hoff].
    + intros r Hr Hc. cbn in Hnet. change ([(py "User-Agent", [])] ++ [])
        with [(py "User-Agent", @nil N)] in Hnet. rewrite Hr in Hnet.
      destruct (Z.eqb_spec (res_code r) 200); [contradiction|].
      cbn. exact (proj1 Hnet).
  - intros f Hf Hc n range headers.
    destruct (request_download url dest progress true E w) as [res w'] eqn:H.
    apply request_download_spec in H as [_ H]. cbv zeta in H.
    rewrite Hstart in H by reflexivity.
    unfold size_on_disk in H. rewrite Hf in H. fold n in H.
    assert (Hn : (n =? 0)%Z = false).
    { apply Z.eqb_neq. subst n. destruct (content f); [congruence|].
      cbn [length]. lia. }
    rewrite Hn in H. cbn [andb negb] in H.
    destruct H as (evs & Ht & Hoff & _ & Hnet).
    eexists. split; [exact Ht|].
    split; [|split; [|split]].
    + cbn. now rewrite requests_made_map.
    + reflexivity.
    + cbn. rewrite progress_events_map. constructor; [reflexivity|exact Hoff].
    + intros r Hr Hc6 Hc4. cbn in Hnet. fold range in Hnet.
      change ((py "User-Agent", []) :: [(py "Range", range)])
        with headers in Hnet. rewrite Hr in Hnet.
      destruct (Z.eqb_spec (res_code r) 416); [contradiction|].
      destruct (Z.eqb_spec (res_code r) 206); [contradiction|].
      cbn. exact (proj1 Hnet).
Qed.


(** C6.  Within one call the offset is fixed at the start, 0 for a fresh
    download and the size on disk when resuming: every event of the call
    carries it; and the current total of the Read and Wrote events
    starts from the offset and never goes down. *)
Theorem request_download_offset_fixed (E : env) (url dest : pystr)
    (progress : progress_event -> result unit) (cont : bool) (w : world) :
  let offset := if cont then size_on_disk w dest else 0%Z in
  exists es,
    trace (snd (request_download url dest progress cont E w)) = trace w ++ es
    /\ Forall (fun e => ev_offset e = offset) (progress_events es)
    /\ non_decreasing
         (offset :: List.map ev_current
                             (List.filter is_read_or_wrote
                                          (progress_events es))).
Proof.
  cbv zeta.
  destruct (request_download url dest progress cont E w) as [res w'] eqn:H.
  apply request_download_spec in H as [_ H]. cbv zeta in H.
  destruct (progress _) as [[]|e] in H.
  - destruct H as (evs & Ht & Hoff & Hnd & _).
    eexists. split; [exact Ht|].
    cbn. rewrite progress_events_map. split.
    + constructor; [reflexivity|exact Hoff].
    + exact Hnd.
  - destruct H as [_ Ht]. eexists. split; [exact Ht|]. cbn.
    split; [repeat constructor|exact I].
Qed.

(** C7.  A call that ends without error has emitted: Start first, before
    the request; then Read and Wrote events in pairs, each Wrote right
    after its Read with the same delta and current total; Done last, with
    delta 0. *)
Theorem request_download_event_order (E : env) (url dest : pystr)
    (progress : progress_event -> result unit) (cont : bool) (w : world)
    (v : option dlinfo) :
  fst (request_download url dest progress cont E w) = Ok v ->
  exists start rq mid done,
    trace (snd (request_download url dest progress cont E w))
    = trace w ++ [Progress start; Requested rq]
              ++ List.map Progress (mid ++ [done])
    /\ ev_status start = DL_PROGRESS_START
    /\ paired mid
    /\ ev_status done = DL_PROGRESS_DONE
    /\ ev_added done = 0%Z.
Proof.
  destruct (request_download url dest progress cont E w) as [res w'] eqn:H.
  cbn [fst snd]. intros ->.
  apply request_download_spec in H as [_ H]. cbv zeta in H.
  destruct (progress _) as [[]|e] in H; [|destruct H; discriminate].
  destruct H as (evs & Ht & _ & _ & Hnet).
  destruct (net E _ _) as [r|] in Hnet; [|destruct Hnet; discriminate].
  destruct (_ && (res_code r =? 416)%Z) in Hnet.
  - destruct Hnet as [[now ->] _].
    do 2 eexists. exists []. eexists.
    split; [exact Ht|]. repeat split. constructor.
  - destruct (res_code r =? _)%Z in Hnet; [|destruct Hnet; discriminate].
    destruct Hnet as [_ Hok].
    destruct (Hok v eq_refl) as (mid & done & m & -> & Hp & Hs & Ha & _).
    do 2 eexists. exists mid, done. split; [exact Ht|]. now repeat split.
Qed.

End TransferClaims.

(** ** The headers of the response *)




Section Headers.

Context {L : PyLib}.





Lemma fs_open_exists (dest : pystr) (cont : bool) (E : env) (w w1 : world) :
  fs_open dest cont E w = (Ok tt, w1) -> is_Some (fs w1 !! dest).
Proof.
  unfold fs_open. intros H. injection H as <-. cbn.
  destruct (fs w !! dest) as [f|] eqn:Hf; [destruct cont|];
    rewrite ?lookup_insert_eq, ?Hf; eauto.
Qed.



End Headers.

(** ** The 416 answer to a resumed request *)

(** C4, on the code.  On the resumed path with answer 416 the call emits
    Done with current total and expected total equal to the offset, and
    then returns [None], not the dict; [download] subscripts what it got
    and ends with a [TypeError]. *)
Theorem request_download_416_returns_none :
  let run := @request_download Example.lib file_url temp_path accept_all true
               (env_of response_416) world_partial in
  fst run = Ok None
  /\ progress_events (trace (snd run))
     = [ mk_event DL_PROGRESS_START 0 0 3 0 3 None;
         mk_event DL_PROGRESS_DONE 0 1 3 0 3 (Some 3%Z) ]
  /\ fst (@download Example.lib options_plain (env_page_then response_416)
            world_partial) = Err TypeError.
Proof. vm_compute. repeat split; reflexivity. Qed.

(** On the other path the dict comes back. *)
Example request_download_returns_dict :
  fst (@request_download Example.lib file_url temp_path accept_all true
         (env_of response_short) world_empty)
  = Ok (Some {| dl_size := Some 1000%Z; dl_modified := None |}).
Proof. vm_compute. reflexivity. Qed.

(** Witnesses of C5, C7 and C10 on example runs. *)

Lemma request_download_request_and_status_example :
  fst (@request_download Example.lib file_url temp_path accept_all false
         (env_of response_404) world_empty)
  = Err (InvalidStatusCode 404 200)
  /\ fst (@request_download Example.lib file_url temp_path accept_all true
            (env_of response_404) world_partial)
     = Err (InvalidStatusCode 404 206).
Proof.
  split.
  - destruct (@request_download_request_and_status Example.lib
                (env_of response_404) file_url temp_path accept_all
                world_empty (fun _ _ => eq_refl))
      as [(es & _ & _ & _ & _ & Hst) _].
    apply (Hst response_404 eq_refl). vm_compute. discriminate.
  - destruct (@request_download_request_and_status Example.lib
                (env_of response_404) file_url temp_path accept_all
                world_partial (fun _ _ => eq_refl))
      as [_ Hres].
    destruct (Hres {| content := [80; 75; 3]; mtime := None |} eq_refl
                ltac:(discriminate))
      as (es & _ & _ & _ & _ & Hst).
    apply (Hst response_404 eq_refl); vm_compute; discriminate.
Defined.

Lemma request_download_event_order_example :
  exists start rq mid done,
    trace (snd (@request_download Example.lib file_url temp_path accept_all
                  false (env_of response_short) world_empty))
    = [Progress start; Requested rq] ++ List.map Progress (mid ++ [done])
    /\ ev_status start = DL_PROGRESS_START
    /\ paired mid
    /\ ev_status done = DL_PROGRESS_DONE
    /\ ev_added done = 0%Z.
Proof.
  exact (@request_download_event_order Example.lib (env_of response_short)
           file_url temp_path accept_all false world_empty
           (Some {| dl_size := Some 1000%Z; dl_modified := None |}) eq_refl).
Defined.


(** ** The orchestration: [download] *)

Lemma preserves_bind (Q : world -> Prop) {A B} (c : M A) (k : A -> M B) :
  preserves Q c -> (forall a, preserves Q (k a)) -> preserves Q (bind c k).
Proof.
  intros Hc Hk E w r w' HQ H. unfold bind in H.
  destruct (c E w) as [[a|e] w1] eqn:H1.
  - eapply Hk; [|exact H]. eapply Hc; eassumption.
  - injection H as _ <-. eapply Hc; eassumption.
Qed.

Lemma preserves_ret (Q : world -> Prop) {A} (a : A) : preserves Q (ret a).
Proof. intros E w r w' HQ H. injection H as _ <-. exact HQ. Qed.

Lemma preserves_raise (Q : world -> Prop) {A} (e : exn) :
  preserves Q (@raise A e).
Proof. intros E w r w' HQ H. injection H as _ <-. exact HQ. Qed.

Lemma preserves_lift (Q : world -> Prop) {A} (r : result A) :
  preserves Q (lift r).
Proof. intros E w r' w' HQ H. injection H as _ <-. exact HQ. Qed.

Section Orchestration.

Context {L : PyLib}.

Variable dest : pystr.

Let there (w : world) : Prop := is_Some (fs w !! dest).

Lemma preserves_time_time : preserves there time_time.
Proof. intros E w r w' HQ H. injection H as _ <-. exact HQ. Qed.

Lemma preserves_call_progress progress e :
  preserves there (call_progress progress e).
Proof. intros E w r w' HQ H. injection H as _ <-. exact HQ. Qed.

Lemma preserves_request url headers : preserves there (request url headers).
Proof.
  intros E w r w' HQ H. unfold request in H.
  destruct (net E _ _); injection H as _ <-; exact HQ.
Qed.

Lemma preserves_fs_write data : preserves there (fs_write dest data).
Proof.
  intros E w r w' HQ H. unfold fs_write in H.
  destruct (fs w !! dest) as [f|]; injection H as _ <-; [|exact HQ].
  unfold there. cbn. rewrite lookup_insert_eq. eauto.
Qed.

Lemma preserves_loop progress start offset total body :
  forall size,
    preserves there
      (request_download_loop dest progress start offset total size body).
Proof.
  induction body as [|[data|] body IH]; intros size;
    cbn [request_download_loop].
  - apply preserves_ret.
  - destruct (_ =? 0)%Z; [apply preserves_ret|].
    repeat (apply preserves_bind; [|intros ?]);
      auto using preserves_time_time, preserves_call_progress,
                 preserves_fs_write.
  - apply preserves_raise.
Qed.

(** After [request_download] the destination is a file, whatever the
    outcome. *)
Lemma request_download_dest_exists (E : env) (url : pystr)
    (progress : progress_event -> result unit) (cont : bool)
    (w : world) (res : result (option dlinfo)) (w' : world) :
  request_download url dest progress cont E w = (res, w') ->
  is_Some (fs w' !! dest).
Proof.
  unfold request_download. intros H.
  match type of H with
  | bind _ ?k _ _ = _ => assert (Hk : preserves there (k tt))
  end.
  2:{ unfold bind at 1 in H.
      destruct (fs_open dest cont E w) as [[[]|e] w1] eqn:Ho;
        [|unfold fs_open in Ho; discriminate].
      eapply Hk; [eapply fs_open_exists; exact Ho|exact H]. }
  clear H.
  apply preserves_bind.
  { destruct cont; [|apply preserves_ret].
    intros E0 w0 r w0' HQ H. unfold fs_tell in H.
    destruct (fs w0 !! dest); injection H as _ <-; exact HQ. }
  intros offset. cbv zeta.
  apply preserves_bind; [apply preserves_time_time|]. intros start.
  apply preserves_bind; [apply preserves_call_progress|]. intros _.
  apply preserves_bind; [apply preserves_request|]. intros r.
  destruct (_ && _).
  - repeat (apply preserves_bind; [|intros ?]);
      auto using preserves_time_time, preserves_call_progress, preserves_ret.
  - repeat (apply preserves_bind; [|intros ?]);
      auto using preserves_time_time, preserves_call_progress,
                 preserves_ret, preserves_lift, preserves_loop.
Qed.

End Orchestration.

Section Download.

Context {L : PyLib}.

Lemma create_file_name_temp_length (name : pystr) :
  length (create_file_name_temp name) = (9 + length name)%nat.
Proof. unfold create_file_name_temp. now rewrite !length_app. Qed.

Lemma path_join_length_le (a b : pystr) :
  (length b <= length (path_join a b) <= length a + 1 + length b)%nat.
Proof.
  unfold path_join. destruct (Py.starts_with [47] b); [lia|].
  destruct a as [|c a]; [cbn; lia|].
  destruct (_ =? 47); rewrite !length_app; cbn [length]; lia.
Qed.

(** The temporary path is never the final path. *)
Lemma temp_path_differs (out_dir name : pystr) :
  path_join out_dir (create_file_name_temp name) <> path_join out_dir name.
Proof.
  intros H. apply (f_equal (@length N)) in H. revert H.
  unfold path_join at 1.
  replace (Py.starts_with [47] (create_file_name_temp name)) with false
    by reflexivity.
  pose proof (create_file_name_temp_length name) as Ht.
  unfold path_join. destruct (Py.starts_with [47] name).
  - destruct out_dir as [|c a]; [lia|].
    destruct (_ =? 47); rewrite !length_app; cbn [length]; lia.
  - destruct out_dir as [|c a]; [lia|].
    destruct (_ =? 47); rewrite !length_app; cbn [length]; lia.
Qed.

Lemma assert_not_exists_ok (path : pystr) (E : env) (w w' : world) :
  assert_not_exists path E w = (Ok tt, w') -> w' = w /\ fs w !! path = None.
Proof.
  unfold assert_not_exists, bind, stat. cbn.
  destruct (fs w !! path); cbn; intros H; [discriminate|].
  injection H as <-. split; reflexivity.
Qed.

(** When the transfer phase ends well, the two paths are those of one
    file name, an explicit name if there is one; the final path is free
    and the temporary path is a file. *)
Lemma download_transfer_spec (opts : options) (E : env) (w : world)
    (t : targets) (d : option dlinfo) (w2 : world) :
  download_transfer opts E w = (Ok (t, d), w2) ->
  exists file_name,
    t = {| file_name_path := path_join (create_out_dir opts) file_name;
           file_name_temp_path :=
             path_join (create_out_dir opts)
                       (create_file_name_temp file_name) |}
    /\ (forall name, create_file_name opts None = Some name ->
                     file_name = name)
    /\ fs w2 !! file_name_path t = None
    /\ is_Some (fs w2 !! file_name_temp_path t).
Proof.
  unfold download_transfer. cbv zeta. intros H. unfold bind at 1 in H.
  destruct (match create_file_name opts None with
            | Some f => assert_not_exists (path_join (create_out_dir opts) f)
            | None => ret tt
            end E w) as [[[]|e] w0]; [|discriminate].
  unfold bind at 1 in H.
  destruct (fetch_storage opts (opt_url opts) E w0) as [[storage|e] w1];
    [|discriminate].
  unfold bind at 1 in H. unfold lift at 1 in H.
  destruct (match create_file_name opts None with
            | Some f => Ok f
            | None =>
                match create_file_name opts (Some (snd storage)) with
                | Some f => Ok f
                | None => Err TypeError
                end
            end) as [file_name|e] eqn:Hname; [|discriminate].
  unfold bind at 1 in H.
  destruct (assert_not_exists _ E w1) as [[[]|e] w1'] eqn:Ha; [|discriminate].
  apply assert_not_exists_ok in Ha as [-> Hfree].
  unfold bind at 1 in H.
  destruct (request_download _ _ _ _ E w1) as [[dl|e] w2'] eqn:Hrd;
    [|discriminate].
  unfold ret in H. injection H as <- <- <-.
  exists file_name. cbn [file_name_path file_name_temp_path].
  split; [reflexivity|]. split; [|split].
  - intros name Hn. rewrite Hn in Hname. congruence.
  - apply request_download_spec in Hrd as [Hframe _].
    rewrite Hframe; [exact Hfree|].
    intros Heq. symmetry in Heq. revert Heq. apply temp_path_differs.
  - eapply request_download_dest_exists. exact Hrd.
Qed.



Lemma create_file_name_explicit (opts : options) (name : pystr) :
  opt_file opts = Some name -> name <> [] ->
  create_file_name opts None = Some name.
Proof.
  intros Hf Hn. unfold create_file_name. rewrite Hf.
  destruct name; [contradiction|reflexivity].
Qed.

(** With an explicit name whose path is taken, [download] raises before
    anything else happens: the world is as it was. *)
Lemma download_name_taken (opts : options) (E : env) (w : world)
    (name : pystr) (f : file) :
  opt_file opts = Some name -> name <> [] ->
  fs w !! path_join (create_out_dir opts) name = Some f ->
  download opts E w
  = (Err (AlreadyExists (path_join (create_out_dir opts) name)), w).
Proof.
  intros Hf Hn Hex. unfold download, download_transfer. cbv zeta.
  rewrite (create_file_name_explicit opts name Hf Hn).
  unfold bind, assert_not_exists, bind, stat. cbn. now rewrite Hex.
Qed.

(** A run of [download] that ends well leaves a file at the final
    path. *)
Lemma download_ok_final_exists (opts : options) (E : env) (w w' : world)
    (name : pystr) :
  opt_file opts = Some name -> name <> [] ->
  download opts E w = (Ok tt, w') ->
  is_Some (fs w' !! path_join (create_out_dir opts) name).
Proof.
  intros Hf Hn H. unfold download, bind at 1 in H.
  destruct (download_transfer opts E w) as [[[t d]|e] w2] eqn:Ht;
    [|discriminate].
  destruct (download_transfer_spec _ _ _ _ _ _ Ht)
    as (file_name & Heq & Hname & _ & _).
  rewrite (Hname name (create_file_name_explicit opts name Hf Hn)) in Heq.
  cbn [fst snd] in H. unfold download_finish in H.
  destruct d as [info|]; [|discriminate].
  unfold bind at 1 in H.
  destruct (match dl_size info with
            | Some storage_size =>
                on_exception
                  (download_verify_size (file_name_temp_path t) storage_size)
                  (os_remove (file_name_temp_path t))
            | None => ret tt
            end E w2) as [[[]|e] w3]; [|discriminate].
  unfold bind at 1 in H.
  destruct ((if opt_mtime opts
             then match dl_modified info with
                  | Some storage_mtime =>
                      download_set_mtime (file_name_temp_path t) storage_mtime
                  | None => ret tt
                  end
             else ret tt) E w3) as [[[]|e] w4]; [|discriminate].
  unfold os_rename in H.
  destruct (fs w4 !! file_name_temp_path t) as [g|]; [|discriminate].
  injection H as <-. cbn. rewrite Heq. cbn [file_name_path].
  rewrite lookup_insert_eq. eauto.
Qed.

(** C9.  With an explicit file name whose target path exists, [download]
    fails with the already-exists error and has done nothing before: no
    effect is added, no request is made; in particular a second run
    after one that ended well, against the same destination, fails so
    whatever the network would answer. *)
Theorem download_explicit_name_exists (opts : options) (name : pystr) :
  opt_file opts = Some name -> name <> [] ->
  let path := path_join (create_out_dir opts) name in
  (forall (E : env) (w : world) (f : file),
      fs w !! path = Some f ->
      download opts E w = (Err (AlreadyExists path), w)
      /\ requests_made (trace (snd (download opts E w)))
         = requests_made (trace w)
      /\ requests (snd (download opts E w)) = requests w)
  /\ (forall (E0 E : env) (w0 w : world),
         download opts E0 w0 = (Ok tt, w) ->
         download opts E w = (Err (AlreadyExists path), w)).
Proof.
  intros Hf Hn path. split.
  - intros E w f Hex.
    rewrite (download_name_taken opts E w name f Hf Hn Hex).
    repeat split.
  - intros E0 E w0 w Hok.
    destruct (download_ok_final_exists opts E0 w0 w name Hf Hn Hok)
      as [f Hex].
    exact (download_name_taken opts E w name f Hf Hn Hex).
Qed.

End Download.

(** Witnesses of C8 and C9 on example runs. *)


Lemma download_explicit_name_exists_example :
  @download Example.lib options_named (env_page_then response_short) world_done
  = (Err (AlreadyExists (py "file.ext")), world_done).
Proof.
  destruct (@download_explicit_name_exists Example.lib options_named
              (py "file.ext") eq_refl ltac:(discriminate)) as [H _].
  destruct (H (env_page_then response_short) world_done
              {| content := [80; 75; 3; 4]; mtime := None |} eq_refl)
    as [Hrun _].
  exact Hrun.
Defined.

(** ** The program's own sink *)

(** [download_progress] raises exactly on a Wrote or Done event without a
    total. *)
Lemma download_progress_raises `{L : PyLib} (e : progress_event) :
  download_progress e = Err TypeError
  <-> (ev_status e = DL_PROGRESS_WROTE \/ ev_status e = DL_PROGRESS_DONE)
      /\ ev_total e = None.
Proof.
  unfold download_progress.
  destruct (ev_status e), (ev_total e); split;
    try discriminate; try reflexivity; intuition (discriminate || auto).
Qed.

(** So a run of [download] whose transfer has no total, here for want of
    a content-length, ends with a [TypeError] at the first Wrote event. *)
Example download_unknown_total :
  fst (@download Example.lib options_plain (env_page_then response_no_length)
         world_empty) = Err TypeError
  /\ List.map ev_status
       (progress_events
          (trace (snd (@download Example.lib options_plain
                         (env_page_then response_no_length) world_empty))))
     = [DL_PROGRESS_START; DL_PROGRESS_READ; DL_PROGRESS_WROTE].
Proof. vm_compute. split; reflexivity. Qed.
(* ===================================================================== *)
(** * Further properties of the link derivation                           *)
(* ===================================================================== *)

(** X1.  A document in which the parser meets no text matching the
    template gives no link: [parse_storage] subscripts the [None] the
    parser returns and raises [TypeError]. *)
Theorem parse_storage_no_match `{L : PyLib} (doc : html) :
  script_matches doc = [] -> parse_storage doc = Err TypeError.
Proof.
  intros H. unfold parse_storage. cbv zeta. rewrite feed_result.
  unfold script_matches in H. cbn [TheHTMLParser.script TheHTMLParser.init].
  now rewrite H.
Qed.

Lemma parse_storage_no_match_example :
  @parse_storage Example.lib
    [StartTag (py "html") []; StartTag (py "script") [];
     Data (py "var b = 1;"); EndTag (py "script")]
  = Err TypeError.
Proof.
  apply (@parse_storage_no_match Example.lib). vm_compute. reflexivity.
Defined.



Lemma lang_lit_list (l t : pystr) :
  lang (fold_right (fun c r => Re.Seq (Re.chr c) r) Re.Eps l) t -> t = l.
Proof.
  revert t. induction l as [|c l IH]; intros t H; cbn [fold_right] in H.
  - now apply lang_eps_inv.
  - apply lang_seq_inv in H as (t1 & t2 & -> & H1 & H2).
    apply lang_cls_inv in H1 as (x & -> & Hx). apply N.eqb_eq in Hx. subst x.
    cbn. f_equal. now apply IH.
Qed.

Lemma starts_with_app (p s : pystr) : Py.starts_with p (p ++ s) = true.
Proof.
  induction p as [|c p IH]; [reflexivity|]. cbn. now rewrite N.eqb_refl.
Qed.

(** A text the template matches begins with the word [var]. *)
Lemma jsreg_match_var (src : pystr) (d : jsdata) :
  TheHTMLParser.jsreg_match src = Some d ->
  Py.starts_with (py "var") src = true.
Proof.
  unfold TheHTMLParser.jsreg_match, Re.match_, Re.match_at. intros H.
  destruct (Re.run _ _ _ _ _) as [[i' c]|] eqn:Hr; [|discriminate]. clear H.
  apply (run_sound _ _ (groups_ok_trivial _)) in Hr
    as (t & s' & c' & -> & Hl & _ & _).
  unfold TheHTMLParser.jsreg in Hl.
  change (Re.cat (?a :: ?l)) with (Re.Seq a (Re.cat l)) in Hl.
  apply lang_seq_inv in Hl as (t1 & t2 & -> & H1 & _).
  apply lang_lit_list in H1. subst t1. rewrite <- app_assoc.
  apply starts_with_app.
Qed.

(** X3.  The template is matched at the start of the stripped text, not
    searched in it: a text that does not begin with [var] once the white
    space around it is removed leaves the parser as it was, whatever
    follows in the text. *)
Theorem handle_data_needs_var (self : TheHTMLParser.t) (data : pystr) :
  Py.starts_with (py "var") (Py.strip data) = false ->
  TheHTMLParser.handle_data self data = self.
Proof.
  intros H. unfold TheHTMLParser.handle_data.
  destruct (negb (TheHTMLParser.script self)); [reflexivity|]. cbv zeta.
  destruct (TheHTMLParser.jsreg_match (Py.strip data)) as [d|] eqn:Hm;
    [|reflexivity].
  apply jsreg_match_var in Hm. congruence.
Qed.

Lemma handle_data_needs_var_example :
  TheHTMLParser.handle_data
    {| TheHTMLParser.script := true; TheHTMLParser.jsdata_ := None |}
    (py "// link" ++ [10]
     ++ template_script "42" "asdasd" "0" "3" "/d/uN1qu3/" "3" "/file.ext")
  = {| TheHTMLParser.script := true; TheHTMLParser.jsdata_ := None |}.
Proof.
  apply handle_data_needs_var. vm_compute. reflexivity.
Defined.

Lemma split_go_slash (s cur : pystr) :
  Forall (fun c => c <> 47) cur ->
  Forall (Forall (fun c => c <> 47)) (Py.split_go [47] 0 cur s).
Proof.
  revert cur. induction s as [|c s IH]; intros cur Hcur; cbn [Py.split_go].
  - constructor; [|constructor]. now apply List.Forall_rev.
  - cbn [Py.starts_with length Nat.pred].
    destruct (N.eqb_spec 47 c) as [<-|Hc]; cbn [andb].
    + constructor; [now apply List.Forall_rev|]. apply IH. constructor.
    + apply IH. constructor; [congruence|assumption].
Qed.

(** The last piece of a text cut at its slashes has no slash. *)
Lemma last_segment_no_slash (s : pystr) :
  Forall (fun c => c <> 47) (last_segment s).
Proof.
  unfold last_segment, Py.split.
  change (py "/") with [47].
  pose proof (split_go_slash s [] (List.Forall_nil _)) as H.
  induction H as [|p l Hp Hl IH]; [constructor|].
  destruct l as [|q l]; [exact Hp|exact IH].
Qed.

Lemma parse_storage_jsdata_name `{L : PyLib} (d : jsdata) (l : link) :
  parse_storage_jsdata d = Ok l ->
  exists path, url_path (href l) = Ok path
               /\ name l = last_segment (Url.unquote path).
Proof.
  unfold parse_storage_jsdata. intros H.
  repeat match type of H with
         | rbind (url_path _) _ = _ => fail 1
         | rbind ?c _ = _ => destruct c; cbn [rbind] in H; [|discriminate]
         end.
  match type of H with
  | rbind ?c _ = _ => destruct c as [path|] eqn:Hp; cbn [rbind] in H;
                      [|discriminate]
  end.
  injection H as <-. exists path. split; [exact Hp|reflexivity].
Qed.

Lemma parse_storage_from_match `{L : PyLib} (doc : html) (l : link) :
  parse_storage doc = Ok l ->
  exists d, In d (script_matches doc) /\ parse_storage_jsdata d = Ok l.
Proof.
  unfold parse_storage. cbv zeta. rewrite feed_result.
  cbn [TheHTMLParser.script TheHTMLParser.init]. fold (script_matches doc).
  destruct (script_matches doc) as [|d0 ds] using rev_ind; [discriminate|].
  rewrite map_app. cbn [List.map]. rewrite last_last. intros H.
  exists d0. split; [apply in_or_app; right; now left|exact H].
Qed.

(** X4.  The file name [parse_storage] derives never has a slash in it:
    it is the last piece of the decoded path cut at its slashes.  So
    [os.path.join] puts it under the output directory, never at a path of
    its own. *)
Theorem parse_storage_name_no_slash `{L : PyLib} (doc : html) (l : link) :
  parse_storage doc = Ok l ->
  Forall (fun c => c <> 47) (name l)
  /\ forall out_dir : pystr,
       exists sep, (sep = [] \/ sep = [47])
                   /\ path_join out_dir (name l) = out_dir ++ sep ++ name l.
Proof.
  intros H. apply parse_storage_from_match in H as (d & _ & H).
  apply parse_storage_jsdata_name in H as (path & _ & Hn).
  assert (Hns : Forall (fun c => c <> 47) (name l))
    by (rewrite Hn; apply last_segment_no_slash).
  split; [exact Hns|]. intros out_dir. unfold path_join.
  assert (Hs : Py.starts_with [47] (name l) = false).
  { destruct (name l) as [|c n]; [reflexivity|]. cbn [Py.starts_with].
    inversion Hns; subst. destruct (N.eqb_spec 47 c); [congruence|reflexivity]. }
  rewrite Hs. destruct out_dir as [|c a].
  - exists []. split; [now left|reflexivity].
  - destruct (_ =? 47).
    + exists []. split; [now left|reflexivity].
    + exists [47]. split; [now right|reflexivity].
Qed.

Lemma parse_storage_name_no_slash_example :
  Forall (fun c => c <> 47) (py "file.ext")
  /\ forall out_dir : pystr,
       exists sep, (sep = [] \/ sep = [47])
                   /\ path_join out_dir (py "file.ext")
                      = out_dir ++ sep ++ py "file.ext".
Proof.
  exact (@parse_storage_name_no_slash Example.lib page_one
           {| href := py "/d/uN1qu3/74091/file.ext"; name := py "file.ext" |}
           ltac:(vm_compute; reflexivity)).
Defined.

(** ** Hex escapes: where [js_decode] decodes them *)

Lemma has_backslash_x_cons (c : N) (s : pystr) :
  has_backslash_x s = true -> has_backslash_x (c :: s) = true.
Proof. intros H. cbn [has_backslash_x]. rewrite H. apply orb_true_r. Qed.

Lemma has_backslash_x_mid (a b : pystr) :
  has_backslash_x (a ++ 92 :: 120 :: b) = true.
Proof.
  induction a as [|c a IH]; [reflexivity|].
  rewrite <- app_comm_cons. now apply has_backslash_x_cons.
Qed.

Lemma has_backslash_x_app (t s : pystr) :
  has_backslash_x t = true -> has_backslash_x (t ++ s) = true.
Proof.
  induction t as [|c t IH]; [discriminate|]. intros H.
  rewrite <- app_comm_cons. cbn [has_backslash_x] in *.
  apply orb_prop in H as [H|H].
  - destruct t as [|d t]; [discriminate|]. cbn [app]. now rewrite H.
  - rewrite (IH H). apply orb_true_r.
Qed.

Lemma lang_hex_escape_backslash_x t :
  lang hex_escape t -> has_backslash_x t = true.
Proof.
  unfold hex_escape, Re.cat, Re.chr. cbn [fold_right]. intros H.
  apply lang_seq_inv in H as (t1 & t2 & -> & _ & H).
  apply lang_seq_inv in H as (t3 & t4 & -> & _ & H).
  apply lang_seq_inv in H as (t5 & t6 & -> & H5 & H).
  apply lang_seq_inv in H as (t7 & t8 & -> & H7 & _).
  apply lang_cls_inv in H5 as (x & -> & Hx). apply N.eqb_eq in Hx. subst x.
  apply lang_cls_inv in H7 as (y & -> & Hy). apply N.eqb_eq in Hy. subst y.
  rewrite app_assoc. exact (has_backslash_x_mid (t1 ++ t3) t8).
Qed.

Lemma match_at_hex_escape_backslash_x i s m :
  Re.match_at hex_escape i s = Some m -> has_backslash_x s = true.
Proof.
  unfold Re.match_at. intros H.
  destruct (Re.run _ _ _ _ _) as [[i' c]|] eqn:Hr; [|discriminate].
  apply (run_sound _ _ (groups_ok_trivial _)) in Hr
    as (t & s' & c' & -> & Hl & _ & _).
  now apply has_backslash_x_app, lang_hex_escape_backslash_x.
Qed.

Lemma sub_hex_escape_no_backslash_x (s : pystr) (i : nat) :
  has_backslash_x s = false ->
  Re.sub_go hex_escape js_decode_repl 0 i s = Ok s.
Proof.
  revert i. induction s as [|x s IH]; intros i Hn; cbn [Re.sub_go].
  - destruct (Re.match_at hex_escape i []) eqn:Hm; [|reflexivity].
    apply match_at_hex_escape_backslash_x in Hm. discriminate.
  - destruct (Re.match_at hex_escape i (x :: s)) eqn:Hm.
    + apply match_at_hex_escape_backslash_x in Hm. congruence.
    + rewrite IH; [reflexivity|].
      destruct (has_backslash_x s) eqn:Hs; [|reflexivity].
      now rewrite (has_backslash_x_cons x s Hs) in Hn.
Qed.

(** X5.  A text in which no backslash is directly followed by the letter
    x has no hex escape to replace: [js_decode] gives what [json.loads]
    gives for the text as it is, value or error. *)
Theorem js_decode_without_hex_escape (s : pystr) :
  has_backslash_x s = false -> js_decode s = json_decode s.
Proof.
  intros H. unfold js_decode, Re.sub.
  now rewrite sub_hex_escape_no_backslash_x.
Qed.

Lemma js_decode_without_hex_escape_example :
  js_decode (quoted "a\nb\\c") = json_decode (quoted "a\nb\\c").
Proof.
  apply js_decode_without_hex_escape. vm_compute. reflexivity.
Defined.

Lemma match_at_hex_escape_none (i : nat) (x y : N) (rest : pystr) :
  x <> 92 -> y <> 92 ->
  Re.match_at hex_escape i (x :: y :: rest) = None.
Proof.
  intros Hx Hy.
  assert (Ex : (92 =? x) = false) by (apply N.eqb_neq; congruence).
  assert (Ey : (92 =? y) = false) by (apply N.eqb_neq; congruence).
  unfold Re.match_at, hex_escape, Re.cat, Re.chr.
  cbn [fold_right Re.run Re.star_loop length].
  rewrite !Ex, !Ey. destruct (i =? 0)%nat; destruct (negb (x =? 92)); reflexivity.
Qed.

(** The escape right after a character other than the backslash is
    matched together with that character. *)
Lemma match_at_hex_escape_some (i : nat) (x a b : N) (rest : pystr) :
  x <> 92 -> Py.is_hex a = true -> Py.is_hex b = true ->
  exists c, Re.match_at hex_escape i (x :: 92 :: 120 :: a :: b :: rest)
            = Some (5%nat, [x; 92; 120; a; b], c).
Proof.
  intros Hx Ha Hb.
  assert (Ex : (92 =? x) = false) by (apply N.eqb_neq; congruence).
  assert (Ex' : (x =? 92) = false) by (apply N.eqb_neq; congruence).
  unfold Re.match_at, hex_escape, Re.cat, Re.chr.
  cbn [fold_right Re.run Re.star_loop length].
  rewrite !Ex, Ex', Ha, Hb. cbn [negb].
  change (92 =? 92) with true. change (92 =? 120) with false.
  change (120 =? 120) with true. cbv iota.
  destruct (i =? 0)%nat; cbv iota.
  - replace (S (S (S (S (S i)))) - i)%nat with 5%nat by lia.
    eexists. reflexivity.
  - replace (S (S (S (S (S i)))) - i)%nat with 5%nat by lia.
    eexists. reflexivity.
Qed.

Lemma is_hex_value (a : N) :
  Py.is_hex a = true ->
  Py.hex_value a = Some (hex_digit a) /\ hex_digit a < 16 /\ a <> 92.
Proof.
  unfold Py.is_hex, hex_digit, Py.hex_value.
  destruct ((48 <=? a) && (a <=? 57)) eqn:H1.
  { intros _. apply andb_prop in H1 as [H1 H2].
    apply N.leb_le in H1, H2. repeat split; lia. }
  destruct ((65 <=? a) && (a <=? 70)) eqn:H2.
  { intros _. apply andb_prop in H2 as [H2 H3].
    apply N.leb_le in H2, H3. repeat split; lia. }
  destruct ((97 <=? a) && (a <=? 102)) eqn:H3; [|discriminate].
  intros _. apply andb_prop in H3 as [H3 H4].
  apply N.leb_le in H3, H4. repeat split; lia.
Qed.

Lemma removelast_app_one {A} (l : list A) (x : A) : removelast (l ++ [x]) = l.
Proof. rewrite removelast_app by discriminate. cbn. apply app_nil_r. Qed.

(** What [repl] makes of such a match: the character before the escape,
    then the JSON spelling of the character the escape names. *)
Lemma js_decode_repl_escape (x a b : N) (c : Re.captures) :
  x <> 92 -> Py.is_hex a = true -> Py.is_hex b = true ->
  js_decode_repl [x; 92; 120; a; b] c
  = Ok (x :: Json.escape_char (piece_value (Hex a b))).
Proof.
  intros Hx Ha Hb.
  destruct (is_hex_value a Ha) as (Hva & Hla & Hna).
  destruct (is_hex_value b Hb) as (Hvb & Hlb & Hnb).
  assert (Ex : (92 =? x) = false) by (apply N.eqb_neq; congruence).
  assert (Ea : (92 =? a) = false) by (apply N.eqb_neq; congruence).
  assert (Eb : (92 =? b) = false) by (apply N.eqb_neq; congruence).
  unfold js_decode_repl, Py.split. change (py "\x") with [92; 120].
  cbn [Py.split_go Py.starts_with length Nat.pred].
  rewrite Ex, Ea, Eb. change (92 =? 92) with true.
  change (120 =? 120) with true. cbn [andb rev app].
  unfold Py.int16. cbn [Py.hex_digits]. rewrite Hva, Hvb. cbn [rbind].
  unfold py_chr. cbn [piece_value].
  change (16 * 0 + hex_digit a) with (hex_digit a).
  destruct (N.ltb_spec (16 * hex_digit a + hex_digit b) 0x110000); [|lia].
  cbn [rbind]. unfold Json.dumps_str, slice_1_m1, Py.join.
  cbn [List.map List.concat app tl]. rewrite app_nil_r.
  rewrite removelast_app_one. rewrite app_nil_r. reflexivity.
Qed.

Lemma plain_spec (c : N) :
  plain c = true -> 32 <= c /\ c <> 34 /\ c <> 92.
Proof.
  unfold plain. intros H. apply andb_prop in H as [H H3].
  apply andb_prop in H as [H1 H2]. apply N.leb_le in H1.
  apply negb_true_iff in H2, H3. apply N.eqb_neq in H2, H3. auto.
Qed.

Lemma sub_go_cons (r : Re.regex) repl (i : nat) (x : N) (s : pystr) :
  Re.sub_go r repl 0 i (x :: s)
  = match Re.match_at r i (x :: s) with
    | Some (n, txt, c) =>
        try! out := repl txt c in
        try! rest :=
          match n with
          | S n' => Re.sub_go r repl n' (S i) s
          | O => try! t := Re.sub_go r repl O (S i) s in Ok (x :: t)
          end in
        Ok (out ++ rest)
    | None => try! t := Re.sub_go r repl O (S i) s in Ok (x :: t)
    end.
Proof. reflexivity. Qed.

(** [re.sub] on the inside of a literal and its closing quote: every
    escape that does not directly follow another is replaced. *)
Lemma sub_go_pieces (ps : list piece) :
  (forall i x, x <> 92 -> separated false ps = true ->
     Re.sub_go hex_escape js_decode_repl 0 i
       (x :: List.concat (List.map piece_text ps) ++ [34])
     = Ok (x :: List.concat (List.map piece_json ps) ++ [34]))
  /\ (forall i, separated true ps = true ->
        Re.sub_go hex_escape js_decode_repl 0 i
          (List.concat (List.map piece_text ps) ++ [34])
        = Ok (List.concat (List.map piece_json ps) ++ [34])).
Proof.
  induction ps as [|p ps [IHA IHB]].
  - split.
    + intros i x Hx _. apply sub_hex_escape_id. cbn.
      intros [H|[H|[]]]; [congruence|discriminate].
    + intros i _. apply sub_hex_escape_id. cbn. intros [H|[]]. discriminate.
  - destruct p as [c|a b]; cbn [separated List.map List.concat piece_text piece_json].
    + assert (HA : forall i, plain c && separated false ps = true ->
                Re.sub_go hex_escape js_decode_repl 0 i
                  (([c] ++ List.concat (List.map piece_text ps)) ++ [34])
                = Ok (([c] ++ List.concat (List.map piece_json ps)) ++ [34])).
      { intros i H. apply andb_prop in H as [Hc Hs].
        apply plain_spec in Hc as (_ & _ & Hc).
        cbn [app]. now apply IHA. }
      split; [|exact HA].
      intros i x Hx H. pose proof H as H'. apply andb_prop in H' as [Hc _].
      apply plain_spec in Hc as (_ & _ & Hc).
      cbn [app]. rewrite sub_go_cons.
      rewrite (match_at_hex_escape_none i x c _ Hx Hc).
      specialize (HA (S i) H). cbn [app] in HA. rewrite HA. reflexivity.
    + split; [|cbn; discriminate].
      intros i x Hx H. cbn [negb andb] in H.
      apply andb_prop in H as [H Hs]. apply andb_prop in H as [Ha Hb].
      cbn [app]. rewrite sub_go_cons.
      destruct (match_at_hex_escape_some i x a b
                  (List.concat (List.map piece_text ps) ++ [34]) Hx Ha Hb)
        as [c Hm].
      rewrite Hm, (js_decode_repl_escape x a b c Hx Ha Hb). cbn [rbind].
      cbn [Re.sub_go]. rewrite (IHB _ Hs). cbn [rbind]. rewrite <- !app_assoc. reflexivity.
Qed.

Lemma scanstring_plain (acc rest : pystr) (x : N) :
  plain x = true ->
  Json.scanstring acc (x :: rest) = Json.scanstring (x :: acc) rest.
Proof.
  intros H. apply plain_spec in H as (H32 & H34 & H92).
  assert (Hlt : (x <? 32) = false) by (apply N.ltb_ge; exact H32).
  cbn [Json.scanstring].
  repeat match goal with
         | |- context [match ?p with _ => _ end] =>
             is_var p; destruct p
         end;
    try congruence; try (rewrite Hlt; reflexivity); try reflexivity.
Qed.

(** [json.loads] reads the spelling [json.dumps] gives a character below
    256 back as that character. *)
Lemma scanstring_escape_char (acc rest : pystr) (c : N) :
  c < 256 ->
  Json.scanstring acc (Json.escape_char c ++ rest)
  = Json.scanstring (c :: acc) rest.
Proof.
  intros Hc. destruct c as [|p]; [reflexivity|].
  do 8 (try destruct p as [p|p|]); try (exfalso; lia); reflexivity.
Qed.

Lemma scanstring_pieces (ps : list piece) :
  forall (after_hex : bool) (acc : pystr),
    separated after_hex ps = true ->
    Json.scanstring acc (List.concat (List.map piece_json ps) ++ [34])
    = Some (rev acc ++ literal_value ps, []).
Proof.
  induction ps as [|p ps IH]; intros after_hex acc H.
  - cbn. now rewrite app_nil_r.
  - destruct p as [c|a b];
      cbn [separated List.map List.concat piece_json literal_value] in *.
    + apply andb_prop in H as [Hc Hs]. cbn [app].
      rewrite (scanstring_plain _ _ _ Hc), (IH _ _ Hs).
      cbn [rev]. now rewrite <- app_assoc.
    + apply andb_prop in H as [H Hs]. apply andb_prop in H as [H Hb].
      apply andb_prop in H as [_ Ha].
      destruct (is_hex_value a Ha) as (_ & Hla & _).
      destruct (is_hex_value b Hb) as (_ & Hlb & _).
      rewrite <- app_assoc, scanstring_escape_char by (cbn [piece_value]; lia).
      rewrite (IH _ _ Hs). cbn [rev]. now rewrite <- app_assoc.
Qed.

(** [js_decode] on a literal whose escapes are apart. *)
Lemma js_decode_literal (ps : list piece) :
  separated false ps = true ->
  js_decode (literal ps) = Ok (JStr (literal_value ps)).
Proof.
  intros H. unfold js_decode, Re.sub, literal. cbn [app].
  destruct (sub_go_pieces ps) as [HA _].
  rewrite (HA 0%nat 34 ltac:(discriminate) H). cbn [rbind].
  unfold json_decode, Json.loads.
  change (Py.starts_with [65279] (34 :: ?l)) with false. cbv iota.
  change (Json.skip_ws (34 :: ?l)) with (34 :: l).
  unfold Json.scan_once. change (34 =? 34) with true. cbv iota.
  rewrite (scanstring_pieces ps false [] H). cbn. reflexivity.
Qed.


(** X6.  On a string literal in which no hex escape directly follows
    another, and which has no other backslash, quote or control character
    inside, [js_decode] gives the string the literal denotes: every
    character that stands for itself, and for every escape [\xHH] the
    character with that code. *)
Theorem js_decode_separated_escapes (ps : list piece) :
  separated false ps = true ->
  js_decode (literal ps) = Ok (JStr (literal_value ps)).
Proof. exact (js_decode_literal ps). Qed.

Lemma js_decode_separated_escapes_example :
  js_decode (quoted "/d/\x41b\x2Fc/") = Ok (JStr (py "/d/Ab/c/")).
Proof.
  exact (js_decode_separated_escapes
           [Plain 47; Plain 100; Plain 47; Hex 52 49; Plain 98; Hex 50 70;
            Plain 99; Plain 47] eq_refl).
Defined.

(** ** Decimal numerals: [str] of an integer and back *)



























(* ===================================================================== *)
(** * Further properties of the transfer                                  *)
(* ===================================================================== *)

Section TransferContent.

Context {L : PyLib}.

Lemma file_eta (f : file) : {| content := content f; mtime := mtime f |} = f.
Proof. now destruct f. Qed.

(** What the loop leaves in the file: the bytes it had, then the bytes of
    the reads so far, in order; all bytes of the body when the loop ends
    well. *)
Lemma request_download_loop_content (dest : pystr)
    (progress : progress_event -> result unit) (start offset : Z)
    (total : option Z) (E : env) (body : list chunk) :
  forall (size : Z) (w : world) (res : result Z) (w' : world) (f : file),
    request_download_loop dest progress start offset total size body E w
    = (res, w') ->
    fs w !! dest = Some f ->
    exists written rest,
      fs w' !! dest = Some {| content := content f ++ written;
                              mtime := mtime f |}
      /\ body_bytes body = written ++ rest
      /\ (forall size', res = Ok size' ->
            read_all body = Ok written
            /\ size' = (size + Z.of_nat (length written))%Z).
Proof.
  induction body as [|c body IH]; intros size w res w' f H Hf;
    cbn [request_download_loop] in H.
  - injection H as <- <-. exists [], []. rewrite app_nil_r, file_eta.
    split; [exact Hf|]. split; [reflexivity|].
    intros size' [= <-]. split; [reflexivity|cbn; lia].
  - destruct c as [data|].
    2:{ injection H as <- <-. exists [], []. rewrite app_nil_r, file_eta.
        split; [exact Hf|]. split; [reflexivity|]. discriminate. }
    destruct (Z.of_nat (length data) =? 0)%Z eqn:Hz.
    { injection H as <- <-. exists [], []. rewrite app_nil_r, file_eta.
      apply Z.eqb_eq in Hz. destruct data; [|discriminate].
      split; [exact Hf|]. split; [reflexivity|].
      intros size' [= <-]. split; [reflexivity|cbn; lia]. }
    assert (Hd : data <> []) by (intros ->; discriminate).
    assert (Hbb : body_bytes (Bytes data :: body) = data ++ body_bytes body)
      by (destruct data; [congruence|reflexivity]).
    assert (Hra : read_all (Bytes data :: body)
                  = try! t := read_all body in Ok (data ++ t))
      by (destruct data; [congruence|reflexivity]).
    unfold bind, time_time, call_progress in H. cbn in H.
    destruct (progress _) in H.
    2:{ injection H as <- <-. exists [], (data ++ body_bytes body).
        rewrite app_nil_r, file_eta.
        split; [exact Hf|]. split; [exact Hbb|]. discriminate. }
    unfold fs_write in H. cbn in H. rewrite Hf in H. cbn in H.
    destruct (progress _) in H.
    2:{ injection H as <- <-. exists data, (body_bytes body). cbn.
        rewrite lookup_insert_eq.
        split; [reflexivity|]. split; [exact Hbb|]. discriminate. }
    eapply IH in H as (written & rest & Hfs & Hb & Hok);
      [|cbn; apply lookup_insert_eq].
    cbn [content mtime] in Hfs.
    exists (data ++ written), rest. rewrite Hfs, Hbb, Hb, <- !app_assoc.
    split; [reflexivity|]. split; [reflexivity|].
    intros size' Hres. destruct (Hok size' Hres) as [Hr ->].
    split; [now rewrite Hra, Hr|]. rewrite length_app. lia.
Qed.

Lemma fs_open_content (dest : pystr) (cont : bool) (E : env) (w : world) :
  exists f1,
    fs (snd (fs_open dest cont E w)) !! dest = Some f1
    /\ content f1 = if cont then bytes_on_disk w dest else [].
Proof.
  unfold fs_open, bytes_on_disk. cbn.
  destruct (fs w !! dest) as [f|] eqn:Hf; [destruct cont|].
  - exists f. now rewrite Hf.
  - eexists. rewrite lookup_insert_eq. split; reflexivity.
  - eexists. rewrite lookup_insert_eq. split; [reflexivity|].
    now destruct cont.
Qed.

(** The file after one call of [request_download], case by case. *)
Lemma request_download_content_spec (E : env) (url dest : pystr)
    (progress : progress_event -> result unit) (cont : bool)
    (w : world) (res : result (option dlinfo)) (w' : world) :
  request_download url dest progress cont E w = (res, w') ->
  let base := if cont then bytes_on_disk w dest else [] in
  let offset := if cont then size_on_disk w dest else 0%Z in
  let continued := cont && negb (offset =? 0)%Z in
  let status := if continued then 206%Z else 200%Z in
  let start := clock E (ticks w) in
  let rq :=
    {| req_url := url;
       req_headers :=
         [(py "User-Agent", [])]
         ++ (if continued
             then [(py "Range",
                    py "bytes=" ++ Py.str_of_int offset ++ py "-")]
             else []) |} in
  exists written,
    bytes_on_disk w' dest = base ++ written
    /\ match net E (requests w) rq with
       | Refused => written = []
       | Responded r =>
           if continued && (res_code r =? 416)%Z then written = []
           else if (res_code r =? status)%Z then
             let total :=
               option_map (fun cl => (offset + cl)%Z)
                 (request_header_get_cast (res_headers r)
                    (py "content-length") py_int) in
             (exists rest, body_bytes (res_body r) = written ++ rest)
             /\ (forall info, res = Ok info ->
                   read_all (res_body r) = Ok written
                   /\ exists now m es,
                        let done :=
                          mk_event DL_PROGRESS_DONE start now offset 0
                            (offset + Z.of_nat (length written)) total in
                        trace w' = trace w ++ es ++ [Progress done]
                        /\ progress done = Ok tt
                        /\ info = Some {| dl_size := total;
                                          dl_modified := m |})
           else written = []
       end.
Proof.
  intros H. cbv zeta.
  destruct (fs_open_tell dest cont E w)
    as (w1 & Ho & Ht & Hk & Hr & Hfr & Htell).
  destruct (fs_open_content dest cont E w) as (f1 & Hf1 & Hc1).
  rewrite Ho in Hf1. cbn [snd] in Hf1.
  unfold request_download, bind in H. rewrite Ho, Htell in H.
  set (base := if cont then bytes_on_disk w dest else []) in *.
  set (offset := if cont then size_on_disk w dest else 0%Z) in *.
  set (continued := cont && negb (offset =? 0)%Z) in *.
  set (rq := {| req_url := url; req_headers := _ |}).
  assert (Hnone : forall w2 : world,
             fs w2 = fs w1 ->
             bytes_on_disk w2 dest = base ++ []).
  { intros w2 Hw. unfold bytes_on_disk. rewrite Hw, Hf1, Hc1.
    now rewrite app_nil_r. }
  assert (Hcase : forall P : response -> Prop, (forall r, P r) ->
            match net E (requests w) rq with
            | Refused => @nil N = []
            | Responded r =>
                if continued && (res_code r =? 416)%Z then @nil N = []
                else if (res_code r =? (if continued then 206 else 200))%Z
                     then P r else @nil N = []
            end).
  { intros P HP. destruct (net E (requests w) rq) as [r|]; [|reflexivity].
    destruct (continued && (res_code r =? 416)%Z); [reflexivity|].
    destruct (res_code r =? (if continued then 206 else 200))%Z;
      [apply HP|reflexivity]. }
  unfold time_time, call_progress in H. cbn in H. rewrite Hk, Ht in H.
  destruct (progress _) as [[]|e] eqn:Hs in H.
  2:{ injection H as <- <-. exists []. split; [now apply Hnone|].
      apply (Hcase (fun r => _ /\ _)). intros r.
      split; [eexists; symmetry; apply app_nil_l|discriminate]. }
  unfold request in H. cbn in H. rewrite Hr in H.
  match type of H with
  | context [net E (requests w) ?x] => change x with rq in H
  end.
  destruct (net E (requests w) rq) as [r|] eqn:Hn.
  2:{ injection H as <- <-. exists []. split; [now apply Hnone|reflexivity]. }
  destruct (continued && (res_code r =? 416)%Z) eqn:H416.
  { cbn in H. exists []. split; [|reflexivity].
    destruct (progress _) in H; injection H as <- <-; now apply Hnone. }
  unfold lift, assert_status_code in H.
  destruct (res_code r =? (if continued then 206 else 200))%Z eqn:Hst.
  2:{ injection H as <- <-. exists []. split; [now apply Hnone|reflexivity]. }
  set (total := option_map (fun cl => (offset + cl)%Z) _) in *.
  destruct (match request_header_get (res_headers r) (py "last-modified") with
            | Some [] => Ok None
            | Some (c :: v) =>
                try! t := parse_http_header_date (c :: v) in Ok (Some t)
            | None => Ok None
            end) as [modified|e] eqn:Hm.
  2:{ injection H as <- <-. exists []. split; [now apply Hnone|].
      split; [eexists; symmetry; apply app_nil_l|discriminate]. }
  destruct (request_download_loop dest progress (clock E (ticks w)) offset
              total offset (res_body r) E _) as [rl wl] eqn:Hloop in H.
  pose proof (request_download_loop_spec _ _ _ _ _ _ _ _ _ _ _ Hloop)
    as (evs & Hlt & _).
  eapply request_download_loop_content in Hloop
    as (written & rest & Hfs & Hb & Hok); [|cbn; exact Hf1].
  exists written.
  assert (Hbytes : forall w2 : world,
             fs w2 = fs wl -> bytes_on_disk w2 dest = base ++ written).
  { intros w2 Hw. unfold bytes_on_disk. rewrite Hw, Hfs. cbn. now rewrite Hc1. }
  destruct rl as [size|e].
  2:{ injection H as <- <-. split; [now apply Hbytes|].
      split; [now exists rest|discriminate]. }
  destruct (Hok size eq_refl) as [Hread ->]. cbn in H.
  destruct (progress _) as [[]|e] eqn:Hdone in H; injection H as <- <-.
  2:{ split; [now apply Hbytes|]. split; [now exists rest|discriminate]. }
  split; [now apply Hbytes|]. split; [now exists rest|].
  intros info [= <-]. split; [exact Hread|].
  eexists _, modified, ([Progress _; Requested rq] ++ List.map Progress evs).
  cbv zeta. split; [|split; [exact Hdone|reflexivity]].
  cbn. rewrite Hlt. cbn. rewrite <- !app_assoc. reflexivity.
Qed.

End TransferContent.

Lemma last_progress_snoc (es : list effect) (e : progress_event) :
  last_progress (es ++ [Progress e]) = Some e.
Proof.
  unfold last_progress. rewrite progress_events_app, map_app. cbn.
  apply last_last.
Qed.

Lemma size_bytes_on_disk (w : world) (path : pystr) :
  size_on_disk w path = Z.of_nat (length (bytes_on_disk w path)).
Proof.
  unfold size_on_disk, bytes_on_disk. now destruct (fs w !! path).
Qed.

Section TransferFile.

Context {L : PyLib}.

(** X10.  Whatever the outcome of [request_download], the destination
    holds afterwards the bytes it is opened with (its old bytes when
    resuming, none otherwise) followed by bytes of the body, in order and
    from its start: nothing on disk is lost or rewritten by a resumed call,
    and nothing is written unless the status is the expected one. *)
Theorem request_download_file_content (E : env) (url dest : pystr)
    (progress : progress_event -> result unit) (cont : bool) (w : world) :
  let w' := snd (request_download url dest progress cont E w) in
  let base := if cont then bytes_on_disk w dest else [] in
  let offset := if cont then size_on_disk w dest else 0%Z in
  let status := if cont && negb (offset =? 0)%Z then 206%Z else 200%Z in
  exists written,
    bytes_on_disk w' dest = base ++ written
    /\ forall r,
         (forall rq, net E (requests w) rq = Responded r) ->
         (exists rest, body_bytes (res_body r) = written ++ rest)
         /\ (res_code r <> status -> written = []).
Proof.
  cbv zeta.
  destruct (request_download url dest progress cont E w) as [res w'] eqn:H.
  apply request_download_content_spec in H as (written & Hb & Hn).
  exists written. split; [exact Hb|]. intros r Hr. rewrite Hr in Hn.
  destruct (_ && (res_code r =? 416)%Z).
  { subst written. split; [now eexists|reflexivity]. }
  destruct (Z.eqb_spec (res_code r)
              (if cont && negb ((if cont then size_on_disk w dest else 0)
                                =? 0)%Z then 206 else 200)%Z) as [He|Hne].
  - destruct Hn as [Hp _]. split; [exact Hp|]. intros Hc. contradiction.
  - subst written. split; [now eexists|reflexivity].
Qed.

(** X11.  When [request_download] returns its dict, the destination holds
    the bytes it was opened with followed by the whole body, and the last
    event is the Done event, whose current size is the size of the file on
    disk and whose total is the size in the dict. *)
Theorem request_download_complete (E : env) (url dest : pystr)
    (progress : progress_event -> result unit) (cont : bool) (w : world)
    (r : response) (info : dlinfo) :
  (forall rq, net E (requests w) rq = Responded r) ->
  fst (request_download url dest progress cont E w) = Ok (Some info) ->
  let w' := snd (request_download url dest progress cont E w) in
  exists data done,
    read_all (res_body r) = Ok data
    /\ bytes_on_disk w' dest
       = (if cont then bytes_on_disk w dest else []) ++ data
    /\ last_progress (trace w') = Some done
    /\ ev_status done = DL_PROGRESS_DONE
    /\ ev_current done = size_on_disk w' dest
    /\ ev_total done = dl_size info.
Proof.
  intros Hr Hok. cbv zeta.
  destruct (request_download url dest progress cont E w) as [res w'] eqn:H.
  cbn [fst snd] in *. subst res.
  pose proof (request_download_spec _ _ _ _ _ _ _ _ H) as [_ Hs].
  apply request_download_content_spec in H as (written & Hb & Hn).
  cbv zeta in Hs. rewrite Hr in Hn, Hs.
  destruct (progress _) as [[]|e] in Hs; [|destruct Hs; discriminate].
  destruct Hs as (evs & _ & _ & _ & Hs).
  destruct (_ && (res_code r =? 416)%Z).
  { destruct Hs as [_ Hs]. specialize (Hs _ eq_refl). discriminate. }
  destruct (res_code r =? _)%Z; [|destruct Hs; discriminate].
  destruct Hn as [_ Hn].
  destruct (Hn _ eq_refl) as (Hread & now & m & es & Ht & _ & Hi).
  injection Hi as ->. eexists written, _.
  split; [exact Hread|]. split; [exact Hb|].
  split; [rewrite Ht, app_assoc; apply last_progress_snoc|].
  split; [reflexivity|]. split; [|reflexivity].
  cbn [ev_current mk_event]. rewrite (size_bytes_on_disk w' dest), Hb.
  rewrite length_app, Nat2Z.inj_add. f_equal.
  destruct cont; [apply size_bytes_on_disk|reflexivity].
Qed.

(** X12.  A last-modified header that is there and is not read as a date
    ends the call with the [TypeError] of [mktime_tz(None)], unlike a bad
    content-length: after the Start event and the request, before any
    read, so that no byte is written. *)
Theorem request_download_bad_date (E : env) (url dest : pystr)
    (progress : progress_event -> result unit) (cont : bool) (w : world)
    (r : response) (v : pystr) :
  (forall e, ev_status e = DL_PROGRESS_START -> progress e = Ok tt) ->
  (forall rq, net E (requests w) rq = Responded r) ->
  let offset := if cont then size_on_disk w dest else 0%Z in
  res_code r = (if cont && negb (offset =? 0)%Z then 206%Z else 200%Z) ->
  request_header_get (res_headers r) (py "last-modified") = Some v ->
  v <> [] ->
  parsedate_tz v = None ->
  let run := request_download url dest progress cont E w in
  fst run = Err TypeError
  /\ bytes_on_disk (snd run) dest
     = (if cont then bytes_on_disk w dest else [])
  /\ exists start rq,
       trace (snd run) = trace w ++ [Progress start; Requested rq].
Proof.
  intros Hstart Hr offset Hst Hlm Hv Hdate. cbv zeta.
  destruct (fs_open_tell dest cont E w)
    as (w1 & Ho & Ht & Hk & Hrq & Hfr & Htell).
  destruct (fs_open_content dest cont E w) as (f1 & Hf1 & Hc1).
  rewrite Ho in Hf1. cbn [snd] in Hf1.
  unfold request_download, bind. rewrite Ho, Htell. fold offset.
  unfold time_time, call_progress, request. cbn.
  rewrite Hstart by reflexivity. rewrite Hrq, Hr. cbn.
  assert (H416 : (cont && negb (offset =? 0)%Z && (res_code r =? 416)%Z)
                 = false).
  { rewrite Hst. destruct (cont && negb (offset =? 0)%Z); reflexivity. }
  rewrite H416. unfold lift, assert_status_code.
  rewrite Hst, Z.eqb_refl, Hlm.
  destruct v as [|c v]; [congruence|].
  unfold parse_http_header_date. rewrite Hdate. cbn.
  split; [reflexivity|]. split.
  - unfold bytes_on_disk at 1. cbn. now rewrite Hf1, Hc1.
  - rewrite Ht, <- app_assoc. eexists _, _. reflexivity.
Qed.

End TransferFile.

Lemma request_download_complete_example :
  exists data done,
    read_all (res_body response_rest) = Ok data
    /\ bytes_on_disk
         (snd (@request_download Example.lib file_url temp_path accept_all
                 true (env_of response_rest) world_partial)) temp_path
       = [80; 75; 3] ++ data
    /\ last_progress
         (trace (snd (@request_download Example.lib file_url temp_path
                        accept_all true (env_of response_rest)
                        world_partial)))
       = Some done
    /\ ev_status done = DL_PROGRESS_DONE
    /\ ev_current done
       = size_on_disk
           (snd (@request_download Example.lib file_url temp_path accept_all
                   true (env_of response_rest) world_partial)) temp_path
    /\ ev_total done = Some 5%Z.
Proof.
  exact (@request_download_complete Example.lib (env_of response_rest)
           file_url temp_path accept_all true world_partial
           response_rest
           {| dl_size := Some 5%Z; dl_modified := None |}
           (fun _ => eq_refl) eq_refl).
Defined.

Lemma request_download_bad_date_example :
  fst (@request_download Example.lib file_url temp_path accept_all false
         (env_of response_bad_date) world_empty) = Err TypeError
  /\ bytes_on_disk
       (snd (@request_download Example.lib file_url temp_path accept_all
               false (env_of response_bad_date) world_empty)) temp_path
     = []
  /\ exists start rq,
       trace (snd (@request_download Example.lib file_url temp_path
                      accept_all false (env_of response_bad_date)
                      world_empty))
       = trace world_empty ++ [Progress start; Requested rq].
Proof.
  exact (@request_download_bad_date Example.lib (env_of response_bad_date)
           file_url temp_path accept_all false world_empty
           response_bad_date (py "yesterday")
           (fun _ _ => eq_refl) (fun _ => eq_refl) eq_refl eq_refl
           ltac:(discriminate) eq_refl).
Defined.

(* ===================================================================== *)
(** * Further properties of the orchestration                             *)
(* ===================================================================== *)

Section Fetch.

Context {L : PyLib}.

(** What [fetch_storage] does to the world, whatever it returns. *)
Lemma fetch_storage_world (opts : options) (url : pystr) (E : env)
    (w : world) :
  snd (fetch_storage opts url E w)
  = {| fs := fs w; ticks := ticks w; requests := S (requests w);
       trace := trace w
                ++ [Requested {| req_url := opt_url opts;
                                 req_headers := [(py "User-Agent", [])] |}] |}.
Proof.
  unfold fetch_storage, request_data, bind, request, lift, ret.
  destruct (net E (requests w) _) as [r|]; [|reflexivity]. cbn.
  destruct (read_all (res_body r)) as [body|]; [|reflexivity].
  destruct (assert_status_code (res_code r) 200); [|reflexivity].
  destruct (request_data_decode body (res_headers r)); [|reflexivity].
  destruct (parse_storage _); [|reflexivity].
  destruct (urljoin url _); reflexivity.
Qed.

(** X13.  [fetch_storage] makes one request, to the URL of the options
    (its argument is only the base the link is joined to) and with an
    empty User-Agent as only header; it changes no file and reads no
    clock; and when the status of a page that could be read is not 200 it
    raises the status error. *)
Theorem fetch_storage_one_request (opts : options) (url : pystr) (E : env)
    (w : world) :
  let run := fetch_storage opts url E w in
  let rq := {| req_url := opt_url opts;
               req_headers := [(py "User-Agent", [])] |} in
  fs (snd run) = fs w
  /\ ticks (snd run) = ticks w
  /\ trace (snd run) = trace w ++ [Requested rq]
  /\ forall r body,
       net E (requests w) rq = Responded r ->
       read_all (res_body r) = Ok body ->
       res_code r <> 200%Z ->
       fst run = Err (InvalidStatusCode (res_code r) 200).
Proof.
  cbv zeta. rewrite fetch_storage_world. cbn [fs ticks trace].
  repeat match goal with |- _ /\ _ => split; [reflexivity|] end.
  intros r body Hr Hb Hc.
  unfold fetch_storage, request_data, bind, request, lift, ret.
  rewrite Hr. cbn. rewrite Hb. unfold assert_status_code.
  destruct (Z.eqb_spec (res_code r) 200); [contradiction|reflexivity].
Qed.

End Fetch.

Section DownloadMore.

Context {L : PyLib}.

Lemma assert_not_exists_world (path : pystr) (E : env) (w : world) :
  snd (assert_not_exists path E w) = w.
Proof.
  unfold assert_not_exists, bind, stat. cbn.
  now destruct (fs w !! path).
Qed.

(** The steps of a transfer phase that ends well. *)
Lemma download_transfer_inv (opts : options) (E : env) (w : world)
    (t : targets) (d : option dlinfo) (w2 : world) :
  download_transfer opts E w = (Ok (t, d), w2) ->
  exists file_name url name,
    t = {| file_name_path := path_join (create_out_dir opts) file_name;
           file_name_temp_path :=
             path_join (create_out_dir opts)
                       (create_file_name_temp file_name) |}
    /\ fetch_storage opts (opt_url opts) E w = (Ok (url, name),
                                                snd (fetch_storage opts (opt_url opts) E w))
    /\ (forall nm, create_file_name opts None = Some nm -> file_name = nm)
    /\ (create_file_name opts None = None -> file_name = name)
    /\ fs w !! file_name_path t = None
    /\ request_download url (file_name_temp_path t) download_progress true E
         (snd (fetch_storage opts (opt_url opts) E w))
       = (Ok d, w2).
Proof.
  unfold download_transfer. cbv zeta. intros H. unfold bind at 1 in H.
  destruct (match create_file_name opts None with
            | Some f => assert_not_exists (path_join (create_out_dir opts) f)
            | None => ret tt
            end E w) as [[[]|e] w0] eqn:H0; [|discriminate].
  assert (Hw0 : w0 = w).
  { destruct (create_file_name opts None).
    - pose proof (assert_not_exists_world
                    (path_join (create_out_dir opts) p) E w) as Hx.
      now rewrite H0 in Hx.
    - now injection H0 as <-. }
  subst w0. clear H0.
  unfold bind at 1 in H.
  destruct (fetch_storage opts (opt_url opts) E w) as [[[url name]|e] w1] eqn:Hf;
    [|discriminate].
  cbn [fst snd] in H.
  unfold bind at 1 in H. unfold lift at 1 in H.
  destruct (match create_file_name opts None with
            | Some f => Ok f
            | None =>
                match create_file_name opts (Some name) with
                | Some f => Ok f
                | None => Err TypeError
                end
            end) as [file_name|e] eqn:Hname; [|discriminate].
  unfold bind at 1 in H.
  destruct (assert_not_exists _ E w1) as [[[]|e] w1'] eqn:Ha; [|discriminate].
  apply assert_not_exists_ok in Ha as [-> Hfree].
  unfold bind at 1 in H.
  destruct (request_download _ _ _ _ E w1) as [[dl|e] w2'] eqn:Hrd;
    [|discriminate].
  unfold ret in H. injection H as <- <- <-.
  exists file_name, url, name. cbn [file_name_path file_name_temp_path snd].
  split; [reflexivity|]. split; [reflexivity|]. split; [|split; [|split]].
  - intros nm Hc. rewrite Hc in Hname. congruence.
  - intros Hc. rewrite Hc in Hname. unfold create_file_name in *.
    destruct (opt_file opts) as [[|c f]|]; congruence.
  - pose proof (fetch_storage_world opts (opt_url opts) E w) as Hw.
    rewrite Hf in Hw. cbn [snd] in Hw. rewrite Hw in Hfree. exact Hfree.
  - exact Hrd.
Qed.

(** What the last phase does when it ends well: the size was checked if
    there was one, the modified time set if asked for and known, and the
    temporary file became the final file. *)
Lemma download_finish_ok (opts : options) (t : targets) (info : dlinfo)
    (E : env) (w2 w' : world) :
  download_finish opts t (Some info) E w2 = (Ok tt, w') ->
  exists g,
    fs w2 !! file_name_temp_path t = Some g
    /\ (forall total, dl_size info = Some total ->
          Z.of_nat (length (content g)) = total)
    /\ fs w'
       = <[file_name_path t :=
             {| content := content g;
                mtime := if opt_mtime opts
                         then match dl_modified info with
                              | Some m => Some m
                              | None => mtime g
                              end
                         else mtime g |}]>
           (delete (file_name_temp_path t) (fs w2))
    /\ trace w' = trace w2.
Proof.
  unfold download_finish. intros H. unfold bind at 1 in H.
  destruct (match dl_size info with
            | Some storage_size =>
                on_exception
                  (download_verify_size (file_name_temp_path t) storage_size)
                  (os_remove (file_name_temp_path t))
            | None => ret tt
            end E w2) as [[[]|e] w3] eqn:Hv; [|discriminate].
  assert (Hw3 : w3 = w2
                /\ forall total, dl_size info = Some total ->
                     exists g, fs w2 !! file_name_temp_path t = Some g
                               /\ Z.of_nat (length (content g)) = total).
  { destruct (dl_size info) as [total|].
    - unfold on_exception, download_verify_size, bind, stat in Hv. cbn in Hv.
      destruct (fs w2 !! file_name_temp_path t) as [g|] eqn:Hg; cbn in Hv.
      + destruct (Z.eqb_spec (Z.of_nat (length (content g))) total);
          cbn in Hv.
        * injection Hv as <-. split; [reflexivity|].
          intros total' [= <-]. eauto.
        * unfold os_remove in Hv. rewrite Hg in Hv. discriminate.
      + unfold os_remove in Hv. rewrite Hg in Hv. discriminate.
    - injection Hv as <-. split; [reflexivity|]. discriminate. }
  destruct Hw3 as [-> Hsize]. clear Hv.
  unfold bind at 1 in H.
  destruct ((if opt_mtime opts
             then match dl_modified info with
                  | Some storage_mtime =>
                      download_set_mtime (file_name_temp_path t) storage_mtime
                  | None => ret tt
                  end
             else ret tt) E w2) as [[[]|e] w4] eqn:Hm; [|discriminate].
  unfold os_rename in H.
  destruct (fs w4 !! file_name_temp_path t) as [g4|] eqn:Hg4; [|discriminate].
  injection H as <-. cbn [fs trace set_fs].
  destruct (opt_mtime opts); [destruct (dl_modified info) as [m|]|].
  - unfold download_set_mtime, os_utime in Hm.
    destruct (fs w2 !! file_name_temp_path t) as [g|] eqn:Hg; [|discriminate].
    injection Hm as <-. cbn [fs set_fs trace] in *.
    rewrite lookup_insert_eq in Hg4. injection Hg4 as <-.
    exists g. split; [reflexivity|]. split.
    { intros total Ht. destruct (Hsize total Ht) as (g' & [= <-] & Hl).
      exact Hl. }
    split; [|reflexivity]. now rewrite delete_insert_eq.
  - injection Hm as <-. exists g4. split; [exact Hg4|]. split.
    { intros total Ht. destruct (Hsize total Ht) as (g' & Hg' & Hl).
      congruence. }
    split; [|reflexivity]. now rewrite file_eta.
  - injection Hm as <-. exists g4. split; [exact Hg4|]. split.
    { intros total Ht. destruct (Hsize total Ht) as (g' & Hg' & Hl).
      congruence. }
    split; [|reflexivity]. now rewrite file_eta.
Qed.

(** A transfer with the program's own sink that returns its dict has a
    known total, the one of its Done event, which is the last event and
    carries the size of the temporary file. *)
Lemma request_download_own_sink (E : env) (url dest : pystr) (cont : bool)
    (w : world) (info : dlinfo) (w' : world) :
  request_download url dest download_progress cont E w = (Ok (Some info), w') ->
  exists total done,
    dl_size info = Some total
    /\ last_progress (trace w') = Some done
    /\ ev_status done = DL_PROGRESS_DONE
    /\ ev_total done = Some total
    /\ ev_current done = size_on_disk w' dest.
Proof.
  intros H.
  pose proof (request_download_spec _ _ _ _ _ _ _ _ H) as [_ Hs].
  apply request_download_content_spec in H as (written & Hb & Hn).
  cbv zeta in Hs, Hn.
  destruct (download_progress _) as [[]|e] in Hs; [|destruct Hs; discriminate].
  destruct Hs as (evs & _ & _ & _ & Hs).
  destruct (net E (requests w) _) as [r|]; [|destruct Hs; discriminate].
  destruct (_ && (res_code r =? 416)%Z).
  { destruct Hs as [_ Hs]. specialize (Hs _ eq_refl). discriminate. }
  destruct (res_code r =? _)%Z; [|destruct Hs; discriminate].
  destruct Hn as [_ Hn].
  destruct (Hn _ eq_refl) as (_ & now & m & es & Ht & Hacc & Hi).
  injection Hi as ->. cbn [dl_size].
  unfold download_progress in Hacc. cbn [ev_status ev_total mk_event] in Hacc.
  destruct (option_map _ _) as [total|] eqn:Htot; [|discriminate].
  eexists total, _. split; [reflexivity|].
  split; [rewrite Ht, app_assoc; apply last_progress_snoc|].
  split; [reflexivity|]. split; [reflexivity|].
  cbn [ev_current mk_event]. rewrite (size_bytes_on_disk w' dest), Hb.
  rewrite length_app, Nat2Z.inj_add. f_equal.
  destruct cont; [apply size_bytes_on_disk|reflexivity].
Qed.

(** X14.  When [download] ends well there is a file at the final path
    and none at the temporary path, and the size of the final file is the
    total the transfer announced: the last progress event is a Done event
    whose current size and total are both the size of that file.  (A
    transfer without a known total never gets this far.) *)
Theorem download_complete (opts : options) (E : env) (w w' : world) :
  download opts E w = (Ok tt, w') ->
  exists file_name f done,
    fs w' !! path_join (create_out_dir opts) file_name = Some f
    /\ fs w' !! path_join (create_out_dir opts)
                         (create_file_name_temp file_name) = None
    /\ (forall name, create_file_name opts None = Some name ->
                     file_name = name)
    /\ last_progress (trace w') = Some done
    /\ ev_status done = DL_PROGRESS_DONE
    /\ ev_total done = Some (Z.of_nat (length (content f)))
    /\ ev_current done = Z.of_nat (length (content f)).
Proof.
  intros H. unfold download, bind at 1 in H.
  destruct (download_transfer opts E w) as [[[t d]|e] w2] eqn:Ht;
    [|discriminate].
  cbn [fst snd] in H.
  destruct (download_transfer_inv _ _ _ _ _ _ Ht)
    as (file_name & url & name & Heq & _ & Hexp & _ & _ & Hrd).
  destruct d as [info|]; [|discriminate].
  apply download_finish_ok in H as (g & Hg & Hsize & Hfs & Htr).
  apply request_download_own_sink in Hrd
    as (total & done & Htot & Hlast & Hst & Hdt & Hcur).
  specialize (Hsize total Htot).
  assert (Hne : file_name_temp_path t <> file_name_path t)
    by (rewrite Heq; apply temp_path_differs).
  exists file_name, {| content := content g;
                       mtime := if opt_mtime opts
                                then match dl_modified info with
                                     | Some m => Some m
                                     | None => mtime g
                                     end
                                else mtime g |}, done.
  rewrite Heq in Hfs, Hne, Hcur, Hg.
  cbn [file_name_path file_name_temp_path] in *.
  rewrite Hfs, Htr. cbn [content].
  split; [apply lookup_insert_eq|]. split.
  { rewrite lookup_insert_ne by congruence. apply lookup_delete_eq. }
  split; [exact Hexp|].
  split; [exact Hlast|]. split; [exact Hst|].
  split; [now rewrite Hdt, Hsize|].
  rewrite Hcur. unfold size_on_disk. now rewrite Hg.
Qed.


End DownloadMore.

Lemma download_complete_example :
  exists file_name f done,
    fs (snd (@download Example.lib options_plain
               (env_page_then response_full) world_empty))
      !! path_join (create_out_dir options_plain) file_name = Some f
    /\ fs (snd (@download Example.lib options_plain
                  (env_page_then response_full) world_empty))
         !! path_join (create_out_dir options_plain)
                      (create_file_name_temp file_name) = None
    /\ (forall name, create_file_name options_plain None = Some name ->
                     file_name = name)
    /\ last_progress
         (trace (snd (@download Example.lib options_plain
                        (env_page_then response_full) world_empty)))
       = Some done
    /\ ev_status done = DL_PROGRESS_DONE
    /\ ev_total done = Some (Z.of_nat (length (content f)))
    /\ ev_current done = Z.of_nat (length (content f)).
Proof.
  apply (@download_complete Example.lib options_plain
           (env_page_then response_full) world_empty).
  vm_compute. reflexivity.
Defined.


Section DownloadNames.

Context {L : PyLib}.

(** X16.  Without a file name on the command line the name is the one the
    page gives, and the check of the final path comes after the page was
    fetched: when a file of that name exists, [download] raises the
    already-exists error having made the request for the page and nothing
    else, with every file as it was. *)
Theorem download_derived_name_exists (opts : options) (E : env) (w : world)
    (url name : pystr) (f : file) :
  create_file_name opts None = None ->
  fst (fetch_storage opts (opt_url opts) E w) = Ok (url, name) ->
  fs w !! path_join (create_out_dir opts) name = Some f ->
  download opts E w
  = (Err (AlreadyExists (path_join (create_out_dir opts) name)),
     {| fs := fs w; ticks := ticks w; requests := S (requests w);
        trace := trace w
                 ++ [Requested {| req_url := opt_url opts;
                                  req_headers := [(py "User-Agent", [])] |}]
     |}).
Proof.
  intros Hc Hf Hex. unfold download, download_transfer. cbv zeta.
  rewrite Hc. unfold bind at 1. unfold bind at 1. unfold ret at 1.
  unfold bind at 1.
  pose proof (fetch_storage_world opts (opt_url opts) E w) as Hw.
  destruct (fetch_storage opts (opt_url opts) E w) as [res w1].
  cbn [fst snd] in Hf, Hw. subst res w1. cbn [fst snd].
  assert (Hn : create_file_name opts (Some name) = Some name).
  { unfold create_file_name in *.
    destruct (opt_file opts) as [[|c g]|]; congruence. }
  rewrite Hn. unfold bind at 1. unfold lift at 1.
  unfold bind at 1. unfold assert_not_exists, bind, stat. cbn.
  now rewrite Hex.
Qed.

End DownloadNames.

Lemma download_derived_name_exists_example :
  @download Example.lib options_plain (env_page_then response_full) world_done
  = (Err (AlreadyExists (py "file.ext")),
     {| fs := fs world_done; ticks := 0; requests := 1;
        trace := [Requested {| req_url := page_url;
                               req_headers := [(py "User-Agent", [])] |}] |}).
Proof.
  exact (@download_derived_name_exists Example.lib options_plain
           (env_page_then response_full) world_done file_url (py "file.ext")
           {| content := [80; 75; 3; 4]; mtime := None |}
           eq_refl ltac:(vm_compute; reflexivity) eq_refl).
Defined.

Section DownloadFrame.

Context {L : PyLib}.

Lemma download_finish_frame (opts : options) (t : targets)
    (d : option dlinfo) (E : env) (w : world) (p : pystr) :
  p <> file_name_path t -> p <> file_name_temp_path t ->
  fs (snd (download_finish opts t d E w)) !! p = fs w !! p.
Proof.
  intros Hf Ht. unfold download_finish.
  destruct d as [info|]; [|reflexivity].
  unfold bind at 1.
  destruct (match dl_size info with
            | Some storage_size =>
                on_exception
                  (download_verify_size (file_name_temp_path t) storage_size)
                  (os_remove (file_name_temp_path t))
            | None => ret tt
            end E w) as [r3 w3] eqn:Hv.
  assert (H3 : fs w3 !! p = fs w !! p).
  { destruct (dl_size info) as [total|]; [|now injection Hv as _ <-].
    unfold on_exception, download_verify_size, bind, stat, os_remove,
      raise, ret in Hv. cbn in Hv.
    destruct (fs w !! file_name_temp_path t) as [g|] eqn:Hg; cbn in Hv.
    - destruct (Z.of_nat (length (content g)) =? total)%Z; cbn in Hv.
      + now injection Hv as _ <-.
      + rewrite Hg in Hv. injection Hv as _ <-. cbn.
        now rewrite lookup_delete_ne by congruence.
    - rewrite Hg in Hv. now injection Hv as _ <-. }
  destruct r3 as [[]|e]; [|exact H3].
  unfold bind at 1.
  destruct ((if opt_mtime opts
             then match dl_modified info with
                  | Some storage_mtime =>
                      download_set_mtime (file_name_temp_path t) storage_mtime
                  | None => ret tt
                  end
             else ret tt) E w3) as [r4 w4] eqn:Hm.
  assert (H4 : fs w4 !! p = fs w3 !! p).
  { destruct (opt_mtime opts); [destruct (dl_modified info) as [m|]|];
      try (now injection Hm as _ <-).
    unfold download_set_mtime, os_utime in Hm.
    destruct (fs w3 !! file_name_temp_path t); injection Hm as _ <-;
      [|reflexivity].
    cbn. now rewrite lookup_insert_ne by congruence. }
  destruct r4 as [[]|e]; cbn [snd]; [|now rewrite H4].
  unfold os_rename.
  destruct (fs w4 !! file_name_temp_path t); cbn; [|now rewrite H4].
  rewrite lookup_insert_ne, lookup_delete_ne by congruence.
  now rewrite H4.
Qed.

Lemma download_transfer_frame (opts : options) (E : env) (w : world) :
  exists file_name,
    (forall p,
        p <> path_join (create_out_dir opts) (create_file_name_temp file_name) ->
        fs (snd (download_transfer opts E w)) !! p = fs w !! p)
    /\ (forall t d,
           fst (download_transfer opts E w) = Ok (t, d) ->
           t = {| file_name_path := path_join (create_out_dir opts) file_name;
                  file_name_temp_path :=
                    path_join (create_out_dir opts)
                              (create_file_name_temp file_name) |}).
Proof.
  destruct (download_transfer opts E w) as [res w2] eqn:Hrun.
  cbn [fst snd].
  assert (Hout : forall e : exn,
             res = Err e -> fs w2 = fs w ->
             exists file_name,
               (forall p,
                   p <> path_join (create_out_dir opts)
                                  (create_file_name_temp file_name) ->
                   fs w2 !! p = fs w !! p)
               /\ (forall t d,
                      res = Ok (t, d) ->
                      t = {| file_name_path :=
                               path_join (create_out_dir opts) file_name;
                             file_name_temp_path :=
                               path_join (create_out_dir opts)
                                         (create_file_name_temp file_name) |})).
  { intros e -> Hw. exists [].
    split; [intros p _; now rewrite Hw|discriminate]. }
  revert Hrun. unfold download_transfer. cbv zeta. unfold bind at 1.
  destruct (match create_file_name opts None with
            | Some f => assert_not_exists (path_join (create_out_dir opts) f)
            | None => ret tt
            end E w) as [r0 w0] eqn:H0.
  assert (Hw0 : w0 = w).
  { destruct (create_file_name opts None).
    - pose proof (assert_not_exists_world
                    (path_join (create_out_dir opts) p) E w) as Hx.
      now rewrite H0 in Hx.
    - now injection H0 as _ <-. }
  subst w0. clear H0.
  destruct r0 as [[]|e]; [|intros [= <- <-]; now apply (Hout e)].
  unfold bind at 1.
  pose proof (fetch_storage_world opts (opt_url opts) E w) as Hw1.
  destruct (fetch_storage opts (opt_url opts) E w) as [[[url name]|e] w1].
  2:{ intros [= <- <-]. apply (Hout e); [reflexivity|].
      cbn [snd] in Hw1. now rewrite Hw1. }
  cbn [fst snd] in *. unfold bind at 1. unfold lift at 1.
  destruct (match create_file_name opts None with
            | Some f => Ok f
            | None =>
                match create_file_name opts (Some name) with
                | Some f => Ok f
                | None => Err TypeError
                end
            end) as [file_name|e].
  2:{ intros [= <- <-]. apply (Hout e); [reflexivity|]. now rewrite Hw1. }
  unfold bind at 1.
  pose proof (assert_not_exists_world
                (path_join (create_out_dir opts) file_name) E w1) as Ha.
  destruct (assert_not_exists _ E w1) as [[[]|e] w1'].
  2:{ intros [= <- <-]. apply (Hout e); [reflexivity|].
      cbn [snd] in Ha. now rewrite Ha, Hw1. }
  cbn [snd] in Ha. subst w1'. unfold bind at 1.
  destruct (request_download _ _ _ _ E w1) as [rd w2'] eqn:Hrd.
  pose proof (request_download_spec _ _ _ _ _ _ _ _ Hrd) as [Hframe _].
  intros Hrun. exists file_name. split.
  - intros p Hp.
    assert (fs w2 = fs w2') as ->
        by (destruct rd; now injection Hrun as _ <-).
    rewrite (Hframe p Hp). now rewrite Hw1.
  - intros t d Hok. subst res.
    destruct rd; [|discriminate]. now injection Hrun as <- _ _.
Qed.

(** X17.  One run of [download] changes at most two paths, the final
    path of one file name and the temporary path of that name; every
    other file is as it was, whatever the outcome. *)
Theorem download_touches_two_paths (opts : options) (E : env) (w : world) :
  exists file_name,
    forall p,
      p <> path_join (create_out_dir opts) file_name ->
      p <> path_join (create_out_dir opts) (create_file_name_temp file_name) ->
      fs (snd (download opts E w)) !! p = fs w !! p.
Proof.
  destruct (download_transfer_frame opts E w) as (file_name & Hfr & Ht).
  exists file_name. intros p Hf Htmp.
  unfold download, bind.
  destruct (download_transfer opts E w) as [[[t d]|e] w2];
    cbn [fst snd] in *; [|now apply Hfr].
  specialize (Ht t d eq_refl). subst t.
  rewrite download_finish_frame by assumption. now apply Hfr.
Qed.

End DownloadFrame.

(* ===================================================================== *)
(** * The progress line and the small helpers                             *)
(* ===================================================================== *)

Lemma ljust_length (message : pystr) (width : nat) :
  length (Console.ljust message width) = Nat.max (length message) width.
Proof. unfold Console.ljust. rewrite length_app, repeat_length. lia. Qed.

Lemma do_calls_spec (calls : list progress_call) :
  forall self : Console.t,
    let self' := fold_left do_call calls self in
    Console._output_progress_max self'
    = fold_left Nat.max (call_lengths calls) (Console._output_progress_max self)
    /\ exists lines,
         Console.written self' = Console.written self ++ lines
         /\ Forall (fun e => (2 + Console._output_progress_max self
                              <= length (snd e))%nat) lines
         /\ non_decreasing
              (List.map (fun e => Z.of_nat (length (snd e))) lines).
Proof.
  induction calls as [|c calls IH]; intros self; cbv zeta.
  - split; [reflexivity|]. exists []. rewrite app_nil_r.
    repeat split; constructor.
  - cbn [fold_left]. destruct (IH (do_call self c)) as (Hmax & lines & Hw & Hl & Hn).
    destruct c as [|message err nl].
    + split; [exact Hmax|]. exists lines. auto.
    + cbn [do_call call_lengths flat_map app fold_left] in *.
      split; [exact Hmax|].
      set (l := Nat.max (Console._output_progress_max self) (length message)) in *.
      exists ((err, [13] ++ Console.ljust message l ++ [13]) :: lines).
      assert (Hlen : length ([13] ++ Console.ljust message l ++ [13])
                     = (2 + l)%nat).
      { rewrite !length_app, ljust_length. cbn [length]. lia. }
      split; [|split].
      * rewrite Hw. unfold Console.output_progress, Console.output,
          Console.write. cbn. now rewrite <- app_assoc.
      * constructor; [cbn [snd]; lia|].
        eapply List.Forall_impl; [|exact Hl].
        intros e He. unfold Console.output_progress in He. cbn in He. lia.
      * cbn [List.map snd]. rewrite Hlen.
        destruct lines as [|e lines]; [exact I|].
        apply non_decreasing_cons; [|exact Hn].
        inversion Hl as [|? ? He _]; subst.
        unfold Console.output_progress in He. cbn in He. fold l in He. lia.
Qed.

(** X18.  Every progress line is padded to the length of the longest
    message since the object was made, so that a line is never shorter
    than one written before it; [output_progress_start] does not reset
    that length, for the attribute it sets is not the one that is read. *)
Theorem output_progress_never_shorter (calls : list progress_call)
    (self : Console.t) :
  let self' := fold_left do_call calls self in
  Console._output_progress_max self'
  = fold_left Nat.max (call_lengths calls) (Console._output_progress_max self)
  /\ exists lines,
       Console.written self' = Console.written self ++ lines
       /\ non_decreasing
            (List.map (fun e => Z.of_nat (length (snd e))) lines).
Proof.
  destruct (do_calls_spec calls self) as (Hmax & lines & Hw & _ & Hn).
  split; [exact Hmax|]. exists lines. split; assumption.
Qed.

Lemma fmt_02d_length (z : Z) :
  (0 <= z < 60)%Z -> length (fmt_02d z) = 2%nat.
Proof.
  intros Hz.
  assert (Hall : forallb (fun k => Nat.eqb (length (fmt_02d (Z.of_nat k))) 2)
                         (seq 0 60) = true) by (vm_compute; reflexivity).
  rewrite forallb_forall in Hall.
  specialize (Hall (Z.to_nat z)). rewrite Z2Nat.id in Hall by lia.
  apply Nat.eqb_eq, Hall, in_seq. lia.
Qed.

(** X19.  [seconds_human] writes hours, minutes and seconds of the number
    it is given: the three fields add up to it, minutes and seconds are
    below 60 and always take two characters, also for a negative number,
    where only the hours are negative. *)
Theorem seconds_human_fields (seconds : Z) :
  exists h m s : Z,
    seconds_human seconds
    = Py.str_of_int h ++ py ":" ++ fmt_02d m ++ py ":" ++ fmt_02d s
    /\ (0 <= m < 60)%Z /\ (0 <= s < 60)%Z
    /\ seconds = (3600 * h + 60 * m + s)%Z
    /\ length (fmt_02d m) = 2%nat /\ length (fmt_02d s) = 2%nat.
Proof.
  exists (seconds / 60 / 60)%Z, (seconds / 60 mod 60)%Z, (seconds mod 60)%Z.
  pose proof (Z.mod_pos_bound seconds 60 ltac:(lia)) as Hs.
  pose proof (Z.mod_pos_bound (seconds / 60) 60 ltac:(lia)) as Hm.
  split; [reflexivity|]. split; [exact Hm|]. split; [exact Hs|].
  split.
  - pose proof (Z.div_mod seconds 60 ltac:(lia)).
    pose proof (Z.div_mod (seconds / 60) 60 ltac:(lia)). lia.
  - split; now apply fmt_02d_length.
Qed.

(** X20.  [dict_has_props] is true exactly when every one of the
    properties is a key of the dict; in particular for no property at
    all. *)
Theorem dict_has_props_spec {V} (dic : gmap pystr V) (props : list pystr) :
  dict_has_props dic props = true
  <-> Forall (fun p => is_Some (dic !! p)) props.
Proof.
  induction props as [|p props IH]; cbn [dict_has_props].
  - split; [constructor|reflexivity].
  - destruct (bool_decide (is_Some (dic !! p))) eqn:Hp; cbn [negb].
    + apply bool_decide_eq_true in Hp. rewrite IH. split.
      * intros H. now constructor.
      * intros H. now inversion H.
    + apply bool_decide_eq_false in Hp. split; [discriminate|].
      intros H. inversion H. contradiction.
Qed.
(** ** The figures in floating point *)

Lemma div_eucl_shift (m : positive) :
  Z.div_eucl (Z.shiftl (Z.pos m) 53) (Z.pos m) = (2 ^ 53, 0)%Z.
Proof.
  pose proof (Z.div_mul (2 ^ 53) (Z.pos m) ltac:(lia)) as Hq.
  pose proof (Z.mod_mul (2 ^ 53) (Z.pos m) ltac:(lia)) as Hr.
  rewrite Z.shiftl_mul_pow2, Z.mul_comm by lia.
  unfold Z.div, Z.modulo in Hq, Hr.
  destruct (Z.div_eucl (2 ^ 53 * Z.pos m) (Z.pos m)) as [q r].
  now subst.
Qed.

Lemma SFdiv_same (s : bool) (m : positive) (e : Z) :
  SpecFloat.SFdiv Float.prec Float.emax
    (SpecFloat.S754_finite s m e) (SpecFloat.S754_finite s m e)
  = SpecFloat.S754_finite false 4503599627370496 (-52).
Proof.
  unfold SpecFloat.SFdiv, SpecFloat.SFdiv_core_binary.
  rewrite !Z.sub_diag. rewrite xorb_nilpotent.
  change (SpecFloat.fexp Float.prec Float.emax 0) with (-53)%Z.
  change (Z.min (-53) 0) with (-53)%Z. change (0 - -53)%Z with 53%Z.
  cbv iota beta zeta.
  rewrite div_eucl_shift.
  assert (Hl : SpecFloat.new_location (Z.pos m) 0 = SpecFloat.loc_Exact).
  { unfold SpecFloat.new_location.
    destruct (Z.even (Z.pos m)); reflexivity. }
  rewrite Hl. vm_compute. reflexivity.
Qed.

Lemma bytes_human_loop_unit (base : Float.t) (rest : list N) :
  Float.is_zero base = false ->
  forall (based : Float.t) (name : N),
    exists x u,
      bytes_human_loop based base name rest = Ok (x, u)
      /\ In u (name :: rest).
Proof.
  intros Hb. induction rest as [|next rest IH]; intros based name;
    cbn [bytes_human_loop].
  - exists based, name. split; [reflexivity|now left].
  - destruct (Float.gt based base).
    + unfold Float.div. rewrite Hb. cbn [rbind].
      destruct (IH (SpecFloat.SFdiv Float.prec Float.emax based base) next)
        as (x & u & -> & Hu).
      exists x, u. split; [reflexivity|now right].
    + exists based, name. split; [reflexivity|now left].
Qed.

(** X21.  For every size that converts to a [float], [bytes_human] gives
    a number with two decimals followed by one of the five unit letters:
    the loop stops at the last unit, so that no size runs past the list of
    names. *)
Theorem bytes_human_unit (size : Z) (based : Float.t) :
  Float.of_int size = Ok based ->
  exists x u,
    bytes_human size = Ok (Float.format_2f x ++ [u])
    /\ In u (py "BKMGT").
Proof.
  intros H. unfold bytes_human. rewrite H. cbn [rbind].
  change (Float.of_int 1024)
    with (Ok (SpecFloat.S754_finite false 4503599627370496 (-42))).
  cbn [rbind].
  destruct (bytes_human_loop_unit
              (SpecFloat.S754_finite false 4503599627370496 (-42))
              (py "KMGT") eq_refl based 66) as (x & u & -> & Hu).
  exists x, u. split; [reflexivity|exact Hu].
Qed.

Lemma bytes_human_unit_example :
  exists x u,
    bytes_human (5 * 1024 ^ 5) = Ok (Float.format_2f x ++ [u])
    /\ In u (py "BKMGT").
Proof.
  apply (bytes_human_unit (5 * 1024 ^ 5)
           (SpecFloat.S754_finite false 5629499534213120 0)).
  vm_compute. reflexivity.
Defined.

(** X22.  A size of at most 1024 bytes is shown in bytes, as the number
    itself with two zeros after the point: the unit changes only above
    1024, so that 1024 bytes are 1024.00B and not 1.00K. *)
Theorem bytes_human_small (size : Z) :
  (0 <= size <= 1024)%Z ->
  bytes_human size = Ok (Py.str_of_int size ++ py ".00B").
Proof.
  intros Hs.
  assert (Hall : forallb
                   (fun k => match bytes_human (Z.of_nat k) with
                             | Ok s => pystr_eqb s (Py.str_of_int (Z.of_nat k)
                                                    ++ py ".00B")
                             | Err _ => false
                             end)
                   (seq 0 1025) = true) by (vm_compute; reflexivity).
  rewrite forallb_forall in Hall.
  specialize (Hall (Z.to_nat size)). rewrite Z2Nat.id in Hall by lia.
  specialize (Hall ltac:(apply in_seq; lia)).
  destruct (bytes_human size) as [s|]; [|discriminate].
  unfold pystr_eqb in Hall. apply bool_decide_eq_true in Hall. now subst.
Qed.

Lemma bytes_human_small_example :
  bytes_human 1024 = Ok (py "1024.00B").
Proof. exact (bytes_human_small 1024 ltac:(lia)). Defined.

(** X23.  [percent_human] gives 0.00% when the total is zero, whatever
    the part (there is no division then), and 100.00% when the part is
    the total and the total, not zero, converts to a [float]. *)
Theorem percent_human_ends :
  (forall part : Z, percent_human part 0 = Ok (py "0.00%"))
  /\ (forall (total : Z) (s : bool) (m : positive) (e : Z),
         Float.of_int total = Ok (SpecFloat.S754_finite s m e) ->
         percent_human total total = Ok (py "100.00%")).
Proof.
  split; [reflexivity|]. intros total s m e H. unfold percent_human.
  destruct (Z.eqb_spec total 0) as [->|_]; [discriminate|].
  rewrite H. cbn [rbind]. unfold Float.div. cbn [Float.is_zero rbind].
  rewrite SFdiv_same. vm_compute. reflexivity.
Qed.

(** The whole of 1000 is 100.00%. *)
Example percent_human_whole_1000 :
  percent_human 1000 1000 = Ok (py "100.00%").
Proof. vm_compute. reflexivity. Qed.

(* ===================================================================== *)
(** * Resuming, totals and failed runs                                    *)
(* ===================================================================== *)

Section Resume.

Context {L : PyLib}.

Lemma fs_open_empty (dest : pystr) (E : env) (w : world) :
  size_on_disk w dest = 0%Z ->
  fs_open dest true E w = fs_open dest false E w.
Proof.
  unfold size_on_disk, fs_open. intros H. f_equal. unfold set_fs. f_equal.
  destruct (fs w !! dest) as [f|] eqn:Hf; [|reflexivity].
  symmetry. apply insert_id. rewrite Hf. f_equal.
  destruct f as [c m]. cbn in *. destruct c; [reflexivity|discriminate].
Qed.

Lemma bind_cong {A B} (c1 c2 : M A) (k1 k2 : A -> M B) (E : env) (w : world) :
  c1 E w = c2 E w ->
  (forall a w', c1 E w = (Ok a, w') -> k1 a E w' = k2 a E w') ->
  bind c1 k1 E w = bind c2 k2 E w.
Proof.
  intros Hc Hk. unfold bind. rewrite <- Hc.
  destruct (c1 E w) as [[a|e] w']; [now apply Hk|reflexivity].
Qed.

(** X24.  Resuming onto a destination that is missing or empty is a
    plain download: the offset is zero, which counts as no resume, so the
    request has no Range header and status 200 is expected; the run is
    the run of the call without resume. *)
Theorem request_download_resume_empty (E : env) (url dest : pystr)
    (progress : progress_event -> result unit) (w : world) :
  size_on_disk w dest = 0%Z ->
  request_download url dest progress true E w
  = request_download url dest progress false E w.
Proof.
  intros H. unfold request_download.
  apply bind_cong; [now apply fs_open_empty|]. intros [] w1 Ho.
  destruct (fs_open_tell dest true E w) as (w1' & Ho' & _ & _ & _ & _ & Htell).
  rewrite Ho in Ho'. injection Ho' as <-.
  apply bind_cong; [now rewrite Htell, H|]. intros offset w2 Ht.
  rewrite Htell, H in Ht. injection Ht as <- <-. reflexivity.
Qed.

End Resume.

Lemma request_download_resume_empty_example :
  @request_download Example.lib file_url temp_path accept_all true
    (env_of response_full) world_empty
  = @request_download Example.lib file_url temp_path accept_all false
      (env_of response_full) world_empty.
Proof.
  exact (@request_download_resume_empty Example.lib (env_of response_full)
           file_url temp_path accept_all world_empty eq_refl).
Defined.

Section Totals.

Context {L : PyLib}.


Lemma download_finish_error_frame (opts : options) (t : targets)
    (d : option dlinfo) (E : env) (w w' : world) (e : exn) (p : pystr) :
  download_finish opts t d E w = (Err e, w') ->
  p <> file_name_temp_path t ->
  fs w' !! p = fs w !! p.
Proof.
  intros H Ht. unfold download_finish in H.
  destruct d as [info|]; [|now injection H as _ <-].
  unfold bind at 1 in H.
  destruct (match dl_size info with
            | Some storage_size =>
                on_exception
                  (download_verify_size (file_name_temp_path t) storage_size)
                  (os_remove (file_name_temp_path t))
            | None => ret tt
            end E w) as [r3 w3] eqn:Hv.
  assert (H3 : fs w3 !! p = fs w !! p).
  { destruct (dl_size info) as [total|]; [|now injection Hv as _ <-].
    unfold on_exception, download_verify_size, bind, stat, os_remove,
      raise, ret in Hv. cbn in Hv.
    destruct (fs w !! file_name_temp_path t) as [g|] eqn:Hg; cbn in Hv.
    - destruct (Z.of_nat (length (content g)) =? total)%Z; cbn in Hv.
      + now injection Hv as _ <-.
      + rewrite Hg in Hv. injection Hv as _ <-. cbn.
        now rewrite lookup_delete_ne by congruence.
    - rewrite Hg in Hv. now injection Hv as _ <-. }
  destruct r3 as [[]|e3]; [|now injection H as _ <-].
  unfold bind at 1 in H.
  destruct ((if opt_mtime opts
             then match dl_modified info with
                  | Some storage_mtime =>
                      download_set_mtime (file_name_temp_path t) storage_mtime
                  | None => ret tt
                  end
             else ret tt) E w3) as [r4 w4] eqn:Hm.
  assert (H4 : fs w4 !! p = fs w3 !! p).
  { destruct (opt_mtime opts); [destruct (dl_modified info) as [m|]|];
      try (now injection Hm as _ <-).
    unfold download_set_mtime, os_utime in Hm.
    destruct (fs w3 !! file_name_temp_path t); injection Hm as _ <-;
      [|reflexivity].
    cbn. now rewrite lookup_insert_ne by congruence. }
  destruct r4 as [[]|e4]; [|injection H as _ <-; now rewrite H4].
  unfold os_rename in H.
  destruct (fs w4 !! file_name_temp_path t); [discriminate|].
  injection H as _ <-. now rewrite H4.
Qed.

(** X26.  A run of [download] that fails changes no file but, at most,
    the temporary file of the name it downloads: the final path is written
    only by the rename that ends a run well. *)
Theorem download_failure_keeps_final (opts : options) (E : env) (w : world)
    (e : exn) :
  fst (download opts E w) = Err e ->
  exists file_name,
    forall p,
      p <> path_join (create_out_dir opts) (create_file_name_temp file_name) ->
      fs (snd (download opts E w)) !! p = fs w !! p.
Proof.
  intros He.
  destruct (download_transfer_frame opts E w) as (file_name & Hfr & Ht).
  exists file_name. intros p Htmp. revert He.
  unfold download, bind.
  destruct (download_transfer opts E w) as [[[t d]|e0] w2];
    cbn [fst snd] in *; [|intros _; now apply Hfr].
  specialize (Ht t d eq_refl). subst t.
  destruct (download_finish opts _ d E w2) as [r w3] eqn:Hfin.
  cbn [fst snd]. intros ->.
  rewrite (download_finish_error_frame _ _ _ _ _ _ e p Hfin) by assumption.
  now apply Hfr.
Qed.

End Totals.


Lemma download_failure_keeps_final_example :
  exists file_name,
    forall p,
      p <> path_join (create_out_dir options_plain)
                     (create_file_name_temp file_name) ->
      fs (snd (@download Example.lib options_plain
                 (env_page_then response_short) world_empty)) !! p
      = fs world_empty !! p.
Proof.
  apply (@download_failure_keeps_final Example.lib options_plain
           (env_page_then response_short) world_empty
           (UnexpectedSize 998 1000)).
  vm_compute. reflexivity.
Defined.

Section Requests.

Context {L : PyLib}.

Lemma download_finish_trace (opts : options) (t : targets)
    (d : option dlinfo) (E : env) (w w' : world) (r : result unit) :
  download_finish opts t d E w = (r, w') -> trace w' = trace w.
Proof.
  intros H. unfold download_finish in H.
  destruct d as [info|]; [|now injection H as _ <-].
  unfold bind at 1 in H.
  destruct (match dl_size info with
            | Some storage_size =>
                on_exception
                  (download_verify_size (file_name_temp_path t) storage_size)
                  (os_remove (file_name_temp_path t))
            | None => ret tt
            end E w) as [r3 w3] eqn:Hv.
  assert (H3 : trace w3 = trace w).
  { destruct (dl_size info) as [total|]; [|now injection Hv as _ <-].
    unfold on_exception, download_verify_size, bind, stat, os_remove,
      raise, ret in Hv. cbn in Hv.
    destruct (fs w !! file_name_temp_path t) as [g|] eqn:Hg; cbn in Hv.
    - destruct (Z.of_nat (length (content g)) =? total)%Z; cbn in Hv.
      + now injection Hv as _ <-.
      + rewrite Hg in Hv. now injection Hv as _ <-.
    - rewrite Hg in Hv. now injection Hv as _ <-. }
  destruct r3 as [[]|e3]; [|now injection H as _ <-].
  unfold bind at 1 in H.
  destruct ((if opt_mtime opts
             then match dl_modified info with
                  | Some storage_mtime =>
                      download_set_mtime (file_name_temp_path t) storage_mtime
                  | None => ret tt
                  end
             else ret tt) E w3) as [r4 w4] eqn:Hm.
  assert (H4 : trace w4 = trace w3).
  { destruct (opt_mtime opts); [destruct (dl_modified info) as [m|]|];
      try (now injection Hm as _ <-).
    unfold download_set_mtime, os_utime in Hm.
    destruct (fs w3 !! file_name_temp_path t); now injection Hm as _ <-. }
  destruct r4 as [[]|e4]; [|injection H as _ <-; congruence].
  unfold os_rename in H.
  destruct (fs w4 !! file_name_temp_path t); injection H as _ <-; cbn;
    congruence.
Qed.

(** X27.  One run of [download] makes at most two requests: the first,
    if any, is the request for the page, to the URL of the options with
    an empty User-Agent as only header; the second, if any, is the request
    of the transfer, whose first header is the empty User-Agent. *)
Theorem download_requests (opts : options) (E : env) (w : world) :
  let page := {| req_url := opt_url opts;
                 req_headers := [(py "User-Agent", [])] |} in
  exists es,
    trace (snd (download opts E w)) = trace w ++ es
    /\ (requests_made es = []
        \/ requests_made es = [page]
        \/ exists url headers,
             requests_made es
             = [page; {| req_url := url;
                         req_headers := (py "User-Agent", []) :: headers |}]).
Proof.
  cbv zeta.
  set (page := {| req_url := opt_url opts;
                  req_headers := [(py "User-Agent", [])] |}).
  set (P := fun es : list effect =>
              requests_made es = []
              \/ requests_made es = [page]
              \/ exists url headers,
                   requests_made es
                   = [page; {| req_url := url;
                               req_headers :=
                                 (py "User-Agent", []) :: headers |}]).
  change (exists es, trace (snd (download opts E w)) = trace w ++ es /\ P es).
  assert (Hnone : forall w', trace w' = trace w ->
            exists es, trace w' = trace w ++ es /\ P es).
  { intros w' ->. exists []. rewrite app_nil_r. split; [reflexivity|now left]. }
  assert (Hpage : forall w',
            trace w' = trace w ++ [Requested page] ->
            exists es, trace w' = trace w ++ es /\ P es).
  { intros w' ->. eexists. split; [reflexivity|]. right. left. reflexivity. }
  destruct (download opts E w) as [res w'] eqn:Hrun. cbn [snd].
  revert Hrun. unfold download. unfold bind at 1.
  destruct (download_transfer opts E w) as [rt w2] eqn:Ht.
  assert (Hfin : forall w3, trace w3 = trace w2 ->
            exists es, trace w3 = trace w ++ es /\ P es);
    [|destruct rt as [[t d]|e];
      [destruct (download_finish opts (fst (t, d)) (snd (t, d)) E w2)
         as [rf w3] eqn:Hf;
       intros [= <- <-]; apply Hfin;
       eapply download_finish_trace; exact Hf
      |intros [= <- <-]; now apply Hfin]].
  intros w3 ->. clear res w'. revert Ht.
  unfold download_transfer. cbv zeta. unfold bind at 1.
  destruct (match create_file_name opts None with
            | Some f => assert_not_exists (path_join (create_out_dir opts) f)
            | None => ret tt
            end E w) as [r0 w0] eqn:H0.
  assert (Hw0 : w0 = w).
  { destruct (create_file_name opts None).
    - pose proof (assert_not_exists_world
                    (path_join (create_out_dir opts) p) E w) as Hx.
      now rewrite H0 in Hx.
    - now injection H0 as _ <-. }
  subst w0. clear H0.
  destruct r0 as [[]|e]; [|intros [= _ <-]; now apply Hnone].
  unfold bind at 1.
  pose proof (fetch_storage_world opts (opt_url opts) E w) as Hw1.
  destruct (fetch_storage opts (opt_url opts) E w) as [[[url name]|e] w1];
    cbn [snd] in Hw1.
  2:{ intros [= _ <-]. apply Hpage. now rewrite Hw1. }
  cbn [fst snd]. unfold bind at 1. unfold lift at 1.
  destruct (match create_file_name opts None with
            | Some f => Ok f
            | None =>
                match create_file_name opts (Some name) with
                | Some f => Ok f
                | None => Err TypeError
                end
            end) as [file_name|e].
  2:{ intros [= _ <-]. apply Hpage. now rewrite Hw1. }
  unfold bind at 1.
  pose proof (assert_not_exists_world
                (path_join (create_out_dir opts) file_name) E w1) as Ha.
  destruct (assert_not_exists _ E w1) as [[[]|e] w1']; cbn [snd] in Ha.
  2:{ intros [= _ <-]. apply Hpage. now rewrite Ha, Hw1. }
  subst w1'. unfold bind at 1.
  destruct (request_download _ _ _ _ E w1) as [rd w2'] eqn:Hrd.
  pose proof (request_download_spec _ _ _ _ _ _ _ _ Hrd) as [_ Hs].
  cbv zeta in Hs. intros Hrun.
  assert (Hw2 : w2 = w2') by (destruct rd; now injection Hrun as _ <-).
  subst w2'.
  destruct (download_progress _) as [[]|e] in Hs.
  - destruct Hs as (evs & Htr & _).
    rewrite Htr, Hw1. cbn [trace]. rewrite <- !app_assoc.
    eexists. split; [reflexivity|].
    right. right. cbn [app requests_made].
    rewrite requests_made_map. eauto.
  - destruct Hs as [_ Htr].
    rewrite Htr, Hw1. cbn [trace]. rewrite <- !app_assoc.
    eexists. split; [reflexivity|].
    right. left. reflexivity.
Qed.

End Requests.
